(** * A shallow embedding of the real-time messaging gateway

    The development follows the source files that make up the gateway:
    the shared schema (table and record shapes), the storage layer
    [server/storage.ts], the WebSocket gateway [server/socket.ts] and the
    client-side connection manager [client/src/lib/socket.ts].

    Conventions.
    - JavaScript numbers that carry identifiers are integers ([Z]); the
      only non-integer number the gateway can produce is [NaN].
    - The database is a record of tables, each a list of rows in table
      order; [select ... where] is [filter], [const [x] = ...] is [head],
      [update ... where] maps over the rows. An insert into [messages]
      is checked against the foreign keys the schema declares.
    - [async] functions are run to completion at the point where they
      are called: one inbound event is handled at a time.
    - Every call of [ws.send] on the server is recorded, in order, as a
      pair of the target connection and the envelope.
    - [Number] applied to a string is a builtin of the language, not
      code of the gateway; it is a parameter of the development
      ([Js.StringToNumber]).
    - A parameter of a query that is compared with an [integer] column
      and lies outside the range of the column makes the query raise
      where the caller can tell a raise from an empty result.
    - On the client the browser is the environment: it raises [open] and
      [close] on sockets, fires pending timers, and decides whether a
      call of [socket.send] throws. The client's calls into the browser
      are recorded in a log. *)

From Stdlib Require Import Ascii String.
From stdpp Require Import gmap list strings pretty sorting.

Local Open Scope Z_scope.

(** ** JavaScript values *)

Module Js.

(** A JavaScript number as far as the gateway is concerned. *)
Inductive number :=
| NaN
| Num (z : Z).

#[global] Instance number_eq_dec : EqDecision number.
Proof. solve_decision. Defined.

(** The [any]-typed [message] field of an inbound envelope. *)
Inductive any :=
| Undefined
| ANumber (z : Z)
| AString (s : string).

#[global] Instance any_eq_dec : EqDecision any.
Proof. solve_decision. Defined.

(** [Number(s)] for a string [s] is the StringToNumber of ECMAScript,
    which is not code of this repository: white space around the
    literal is skipped, the empty string is [0], decimal, hexadecimal,
    octal and binary literals, fractions and exponents are read, and
    the value is rounded to a double. The development does not fix
    this function: what is proved of the gateway holds whatever number
    a string is converted to. A string whose value is a fraction or an
    infinity has, like a JSON number of that kind, no representation in
    [number] and is not an input of the development. *)
Class StringToNumber := string_to_number : string → number.

(** [Number(v)]. *)
Definition Number `{StringToNumber} (v : any) : number :=
  match v with
  | Undefined => NaN
  | ANumber z => Num z
  | AString s => string_to_number s
  end.

(** Truthiness, one function per type of operand. *)
Definition truthy_number (n : number) : bool :=
  match n with NaN => false | Num z => negb (z =? 0) end.

Definition truthy_opt_number (n : option number) : bool :=
  match n with None => false | Some n => truthy_number n end.

Definition truthy_string (s : string) : bool :=
  match s with EmptyString => false | String _ _ => true end.

Definition truthy_opt_string (s : option string) : bool :=
  match s with None => false | Some s => truthy_string s end.

Definition truthy_any (v : any) : bool :=
  match v with
  | Undefined => false
  | ANumber z => negb (z =? 0)
  | AString s => truthy_string s
  end.

(** The text a value becomes when it is stored in a [text] column. *)
Definition to_text (v : any) : string :=
  match v with
  | Undefined => ""
  | ANumber z => pretty z
  | AString s => s
  end.

End Js.

(** ** The shared schema *)

Module Schema.

Record Attachment := {
  att_name : string;
  att_type : string;
  att_url : string;
  att_size : option Z;
}.

(** One element of the [reactions] column. *)
Record Reaction := {
  r_emoji : string;
  r_userId : Z;
}.

(** [MessageReaction], the argument of [addReactionToMessage]. *)
Record MessageReaction := {
  mr_messageId : Z;
  mr_emoji : string;
  mr_userId : Z;
}.

(** A row of [users]; the profile columns that the gateway never
    inspects are kept together in [u_profile]. *)
Record User := {
  u_id : Z;
  u_username : string;
  u_password : string;
  u_profile : string;
  u_isOnline : bool;
}.

(** [UserPublic]: the columns selected for senders and members. *)
Record UserPublic := {
  up_id : Z;
  up_username : string;
  up_profile : string;
  up_isOnline : bool;
}.

Record Conversation := {
  c_id : Z;
  c_name : option string;
  c_isGroup : bool;
  c_createdAt : option Z;
}.

Record ConversationMember := {
  cm_conversationId : Z;
  cm_userId : Z;
}.

(** A row of [messages]; [created_at] is filled by [defaultNow()] on
    insert, [attachments] and [reactions] are nullable [jsonb] columns. *)
Record Message := {
  m_id : Z;
  m_conversationId : Z;
  m_senderId : Z;
  m_content : string;
  m_createdAt : Z;
  m_updatedAt : option Z;
  m_isEdited : bool;
  m_attachments : option (list Attachment);
  m_reactions : option (list Reaction);
}.

Record InsertMessage := {
  im_conversationId : Z;
  im_senderId : Z;
  im_content : string;
  im_attachments : option (list Attachment);
}.

Record MessageWithSender := {
  ms_message : Message;
  ms_sender : UserPublic;
}.

Record ConversationWithMembers := {
  cw_conversation : Conversation;
  cw_members : list UserPublic;
  cw_lastMessage : option MessageWithSender;
}.

#[global] Instance Attachment_eq_dec : EqDecision Attachment.
Proof. solve_decision. Defined.
#[global] Instance Reaction_eq_dec : EqDecision Reaction.
Proof. solve_decision. Defined.
#[global] Instance UserPublic_eq_dec : EqDecision UserPublic.
Proof. solve_decision. Defined.
#[global] Instance Message_eq_dec : EqDecision Message.
Proof. solve_decision. Defined.
#[global] Instance MessageWithSender_eq_dec : EqDecision MessageWithSender.
Proof. solve_decision. Defined.

End Schema.

(** ** The storage layer ([DatabaseStorage]) *)

Module Storage.
Import Schema.

(** The tables the gateway reaches, the [serial] counter of
    [messages.id], and the database clock behind [defaultNow()] and
    [new Date()]. *)
Record Db := {
  users : list User;
  conversations : list Conversation;
  conversationMembers : list ConversationMember;
  messages : list Message;
  next_message_id : Z;
  now : Z;
}.

(** The outcome of a call that may throw. *)
Inductive Result (A : Type) :=
| Ok (a : A)
| Throw (e : string).
Arguments Ok {A} a.
Arguments Throw {A} e.

Definition with_users (d : Db) (us : list User) : Db :=
  {| users := us; conversations := conversations d;
     conversationMembers := conversationMembers d; messages := messages d;
     next_message_id := next_message_id d; now := now d |}.

Definition with_messages (d : Db) (ms : list Message) (next : Z) : Db :=
  {| users := users d; conversations := conversations d;
     conversationMembers := conversationMembers d; messages := ms;
     next_message_id := next; now := now d |}.

Definition set_isOnline (u : User) (b : bool) : User :=
  {| u_id := u_id u; u_username := u_username u; u_password := u_password u;
     u_profile := u_profile u; u_isOnline := b |}.

Definition set_reactions (m : Message) (rs : list Reaction) : Message :=
  {| m_id := m_id m; m_conversationId := m_conversationId m;
     m_senderId := m_senderId m; m_content := m_content m;
     m_createdAt := m_createdAt m; m_updatedAt := m_updatedAt m;
     m_isEdited := m_isEdited m; m_attachments := m_attachments m;
     m_reactions := Some rs |}.

Definition set_edited (m : Message) (content : string) (t : Z) : Message :=
  {| m_id := m_id m; m_conversationId := m_conversationId m;
     m_senderId := m_senderId m; m_content := content;
     m_createdAt := m_createdAt m; m_updatedAt := Some t;
     m_isEdited := true; m_attachments := m_attachments m;
     m_reactions := m_reactions m |}.

(** The column list [{id, username, displayName, ..., banReason}]. *)
Definition publicOf (u : User) : UserPublic :=
  {| up_id := u_id u; up_username := u_username u;
     up_profile := u_profile u; up_isOnline := u_isOnline u |}.

(** [db.select({...}).from(users).where(eq(users.id, id))], first row. *)
Definition selectPublic (d : Db) (id : Z) : option UserPublic :=
  publicOf <$> head (filter (λ u, u_id u = id) (users d)).

(** The range of an [integer] column. The driver raises when a query
    compares such a column with a parameter outside the range. *)
Definition int4 (z : Z) : Prop := -2147483648 ≤ z ≤ 2147483647.

#[global] Instance int4_dec z : Decision (int4 z).
Proof. unfold int4. apply _. Defined.

Definition out_of_range : string := "value out of range for type integer".

(** The first row of [messages] with the given id. *)
Definition messageRow (d : Db) (messageId : Z) : option Message :=
  head (filter (λ m, m_id m = messageId) (messages d)).

(** [db.select().from(messages).where(eq(messages.id, messageId))],
    first row. *)
Definition selectMessage (d : Db) (messageId : Z) : Result (option Message) :=
  if bool_decide (int4 messageId) then Ok (messageRow d messageId)
  else Throw out_of_range.

Definition getUser (d : Db) (id : Z) : option User :=
  head (filter (λ u, u_id u = id) (users d)).

Definition updateUserOnlineStatus (d : Db) (id : Z) (isOnline : bool)
  : Db * option User :=
  let result :=
    (λ u, if decide (u_id u = id) then set_isOnline u isOnline else u)
      <$> users d in
  (with_users d result, head (filter (λ u, u_id u = id) result)).

(** [orderBy(desc(messages.createdAt)).limit(1)]. *)
Fixpoint latest (l : list Message) : option Message :=
  match l with
  | [] => None
  | m :: l' =>
      match latest l' with
      | Some m' => if m_createdAt m <? m_createdAt m' then Some m' else Some m
      | None => Some m
      end
  end.

(** [getConversationById]. The members are the rows of [users] whose id
    is among the member ids ([inArray]; an empty id list selects no
    row), in table order. *)
Definition getConversationById (d : Db) (id : Z)
  : option ConversationWithMembers :=
  match head (filter (λ c, c_id c = id) (conversations d)) with
  | None => None
  | Some conversation =>
      let memberResults :=
        filter (λ m, cm_conversationId m = id) (conversationMembers d) in
      let memberIds := cm_userId <$> memberResults in
      let members :=
        publicOf <$> filter (λ u, u_id u ∈ memberIds) (users d) in
      let lastMessage :=
        latest (filter (λ m, m_conversationId m = id) (messages d)) in
      let lastMessageWithSender :=
        match lastMessage with
        | Some lm =>
            match selectPublic d (m_senderId lm) with
            | Some sender => Some {| ms_message := lm; ms_sender := sender |}
            | None => None
            end
        | None => None
        end in
      Some {| cw_conversation := conversation; cw_members := members;
              cw_lastMessage := lastMessageWithSender |}
  end.

(** [a.lastMessage?.createdAt || a.createdAt || new Date()]. *)
Definition sortDate (d : Db) (a : ConversationWithMembers) : Z :=
  match cw_lastMessage a with
  | Some lm => m_createdAt (ms_message lm)
  | None =>
      match c_createdAt (cw_conversation a) with
      | Some t => t
      | None => now d
      end
  end.

(** [Array.prototype.sort] with the comparator [dateB - dateA]: a
    stable sort, most recent first. *)
Fixpoint insertByDate (d : Db) (a : ConversationWithMembers)
  (l : list ConversationWithMembers) : list ConversationWithMembers :=
  match l with
  | [] => [a]
  | b :: l' =>
      if sortDate d b <=? sortDate d a then a :: b :: l'
      else b :: insertByDate d a l'
  end.

Definition sortByDate (d : Db) (l : list ConversationWithMembers)
  : list ConversationWithMembers :=
  foldr (insertByDate d) [] l.

Definition getConversationsForUser (d : Db) (userId : Z)
  : list ConversationWithMembers :=
  let memberResults :=
    filter (λ m, cm_userId m = userId) (conversationMembers d) in
  let conversationIds := cm_conversationId <$> memberResults in
  let result := omap (getConversationById d) conversationIds in
  sortByDate d result.

(** [createMessage]. The insert is refused by the foreign keys of
    [messages] ([conversation_id], [sender_id]) when the conversation
    or the sender does not exist. *)
Definition createMessage (d : Db) (insertMessage : InsertMessage)
  : Db * Result MessageWithSender :=
  if bool_decide
       (im_conversationId insertMessage ∈ c_id <$> conversations d
        ∧ im_senderId insertMessage ∈ u_id <$> users d)
  then
    let message :=
      {| m_id := next_message_id d;
         m_conversationId := im_conversationId insertMessage;
         m_senderId := im_senderId insertMessage;
         m_content := im_content insertMessage;
         m_createdAt := now d;
         m_updatedAt := None;
         m_isEdited := false;
         m_attachments := im_attachments insertMessage;
         m_reactions := None |} in
    let d' := with_messages d (messages d ++ [message]) (next_message_id d + 1) in
    match selectPublic d' (m_senderId message) with
    | None => (d', Throw "Sender not found")
    | Some sender => (d', Ok {| ms_message := message; ms_sender := sender |})
    end
  else (d, Throw "insert or update on table messages violates foreign key constraint").

(** [updateMessage]. The row of [.returning()] is the row just
    written; the call raises when the first query does. *)
Definition updateMessage (d : Db) (messageId : Z) (content : string)
  : Db * Result (option MessageWithSender) :=
  match selectMessage d messageId with
  | Throw e => (d, Throw e)
  | Ok None => (d, Ok None)
  | Ok (Some existingMessage) =>
      let rows :=
        (λ m, if decide (m_id m = messageId)
              then set_edited m content (now d) else m) <$> messages d in
      let d' := with_messages d rows (next_message_id d) in
      match messageRow d' messageId with
      | None => (d', Ok None)
      | Some updatedMessage =>
          match selectPublic d' (m_senderId updatedMessage) with
          | None => (d', Ok None)
          | Some sender =>
              (d', Ok (Some {| ms_message := updatedMessage; ms_sender := sender |}))
          end
      end
  end.

(** The predicate of [findIndex] in [addReactionToMessage]. *)
Definition sameReaction (userId : Z) (emoji : string) (r : Reaction) : Prop :=
  r_userId r = userId ∧ r_emoji r = emoji.

#[global] Instance sameReaction_dec userId emoji r :
  Decision (sameReaction userId emoji r).
Proof. unfold sameReaction. apply _. Defined.

Definition addReactionToMessage (d : Db) (messageId : Z)
  (reaction : MessageReaction) : Db * Result (option MessageWithSender) :=
  match selectMessage d messageId with
  | Throw e => (d, Throw e)
  | Ok None => (d, Ok None)
  | Ok (Some existingMessage) =>
      let currentReactions := default [] (m_reactions existingMessage) in
      let existingReactionIndex :=
        list_find (sameReaction (mr_userId reaction) (mr_emoji reaction))
          currentReactions in
      let updatedReactions :=
        match existingReactionIndex with
        | Some _ => currentReactions
        | None =>
            currentReactions ++
              [{| r_emoji := mr_emoji reaction; r_userId := mr_userId reaction |}]
        end in
      let rows :=
        (λ m, if decide (m_id m = messageId)
              then set_reactions m updatedReactions else m) <$> messages d in
      let d' := with_messages d rows (next_message_id d) in
      match messageRow d' messageId with
      | None => (d', Ok None)
      | Some updatedMessage =>
          match selectPublic d' (m_senderId updatedMessage) with
          | None => (d', Ok None)
          | Some sender =>
              (d', Ok (Some {| ms_message := updatedMessage; ms_sender := sender |}))
          end
      end
  end.

Definition removeReactionFromMessage (d : Db) (messageId userId : Z)
  (emoji : string) : Db * Result (option MessageWithSender) :=
  match selectMessage d messageId with
  | Throw e => (d, Throw e)
  | Ok None => (d, Ok None)
  | Ok (Some existingMessage) =>
      let currentReactions := default [] (m_reactions existingMessage) in
      let updatedReactions :=
        filter (λ r, ¬ sameReaction userId emoji r) currentReactions in
      let rows :=
        (λ m, if decide (m_id m = messageId)
              then set_reactions m updatedReactions else m) <$> messages d in
      let d' := with_messages d rows (next_message_id d) in
      match messageRow d' messageId with
      | None => (d', Ok None)
      | Some updatedMessage =>
          match selectPublic d' (m_senderId updatedMessage) with
          | None => (d', Ok None)
          | Some sender =>
              (d', Ok (Some {| ms_message := updatedMessage; ms_sender := sender |}))
          end
      end
  end.

End Storage.

(** ** The gateway ([setupSocketServer]) *)

Module Gateway.
Import Schema Storage.

(** The identity of a [WebSocket] object. *)
Abbreviation Conn := nat (only parsing).

Inductive ReadyState := CONNECTING | OPEN | CLOSING | CLOSED.

#[global] Instance ReadyState_eq_dec : EqDecision ReadyState.
Proof. solve_decision. Defined.

(** [MessagePayload], the parsed inbound envelope. *)
Record MessagePayload := {
  type : string;
  conversationId : option Z;
  message : Js.any;
  messageId : option Z;
  content : option string;
  reaction : option MessageReaction;
  emoji : option string;
  userId : option Z;
  attachments : option (list Attachment);
}.

(** The envelopes the gateway sends. *)
Inductive Envelope :=
| connected (greeting : string)
| new_message (conversationId : Z) (saved : MessageWithSender)
| message_updated (conversationId : Z) (updated : MessageWithSender)
| message_reacted (conversationId : Z) (updated : MessageWithSender)
| message_reaction_removed (conversationId : Z) (updated : MessageWithSender)
| typing (conversationId : Z) (typer : Z)
| user_status (user : Z) (isOnline : bool)
| error (text : string).

#[global] Instance Envelope_eq_dec : EqDecision Envelope.
Proof. solve_decision. Defined.

(** One recorded call [target.send(envelope)]. *)
Abbreviation Delivery := (nat * Envelope)%type (only parsing).

(** The state of the server: the registry [clients], the [userId]
    variable captured by the handlers of each connection (absent is
    [undefined]), the [readyState] of each connection, and the store. *)
Record State := {
  clients : gmap Z nat;
  userIdOf : gmap nat Js.number;
  readyStateOf : gmap nat ReadyState;
  storage : Db;
}.

Definition with_storage (s : State) (d : Db) : State :=
  {| clients := clients s; userIdOf := userIdOf s;
     readyStateOf := readyStateOf s; storage := d |}.

Definition with_clients (s : State) (c : gmap Z nat) : State :=
  {| clients := c; userIdOf := userIdOf s;
     readyStateOf := readyStateOf s; storage := storage s |}.

Definition with_userId (s : State) (ws : Conn) (n : Js.number) : State :=
  {| clients := clients s; userIdOf := <[ws := n]> (userIdOf s);
     readyStateOf := readyStateOf s; storage := storage s |}.

Definition with_readyState (s : State) (ws : Conn) (r : ReadyState) : State :=
  {| clients := clients s; userIdOf := userIdOf s;
     readyStateOf := <[ws := r]> (readyStateOf s); storage := storage s |}.

(** [const client = clients.get(id);
     if (client && client.readyState === WebSocket.OPEN) client.send(e)]. *)
Definition sendIfOpen (s : State) (id : Z) (e : Envelope) : list Delivery :=
  match clients s !! id with
  | Some client =>
      if decide (readyStateOf s !! client = Some OPEN) then [(client, e)] else []
  | None => []
  end.

(** [members.forEach(member => ...)] over the ids of the members. *)
Definition toMembers (s : State) (members : list UserPublic) (e : Envelope)
  : list Delivery :=
  members ≫= (λ member, sendIfOpen s (up_id member) e).

(** [Set.prototype.add] on a set kept in insertion order. *)
Definition setAdd (x : Z) (set : list Z) : list Z :=
  if decide (x ∈ set) then set else set ++ [x].

Definition uniqueMembers (conversations : list ConversationWithMembers)
  : list Z :=
  foldl (λ set conv,
           foldl (λ set member, setAdd (up_id member) set) set (cw_members conv))
        [] conversations.

Definition broadcastUserStatus (s : State) (user : Z) (isOnline : bool)
  : list Delivery :=
  match getUser (storage s) user with
  | None => []
  | Some _ =>
      let conversations := getConversationsForUser (storage s) user in
      uniqueMembers conversations ≫=
        (λ memberId,
           if decide (memberId ≠ user)
           then sendIfOpen s memberId (user_status user isOnline)
           else [])
  end.

(** [wss.on('connection')]: a fresh connection [ws], open, whose
    [userId] is [undefined], greeted with [connected]. *)
Definition on_connection (s : State) (ws : Conn) : State * list Delivery :=
  ({| clients := clients s; userIdOf := delete ws (userIdOf s);
      readyStateOf := <[ws := OPEN]> (readyStateOf s); storage := storage s |},
   [(ws, connected "Connected to chat server")]).

Section Conversion.
Context {toNumber : Js.StringToNumber}.

Definition case_authenticate (s : State) (ws : Conn) (payload : MessagePayload)
  : State * list Delivery :=
  let user := Js.Number (message payload) in
  let s := with_userId s ws user in
  match user with
  | Js.NaN => (s, [])  (* isNaN(userId) *)
  | Js.Num user =>
      let s := with_clients s (<[user := ws]> (clients s)) in
      let s := with_storage s (updateUserOnlineStatus (storage s) user true).1 in
      (s, broadcastUserStatus s user true)
  end.

(** The [messageData] object built by the [message] branch. *)
Definition messageData (user conversation_id : Z) (payload : MessagePayload)
  : InsertMessage :=
  {| im_conversationId := conversation_id;
     im_senderId := user;
     im_content := Js.to_text (message payload);
     im_attachments := Some (default [] (attachments payload)) |}.

Definition case_message (s : State) (ws : Conn) (payload : MessagePayload)
  : State * list Delivery :=
  match userIdOf s !! ws with
  | Some (Js.Num user) =>
      if negb (user =? 0) then
        match conversationId payload with
        | Some conversation_id =>
            if negb (conversation_id =? 0) && Js.truthy_any (message payload) then
              match createMessage (storage s)
                      (messageData user conversation_id payload) with
              | (d, Throw _) => (with_storage s d, [])
              | (d, Ok savedMessage) =>
                  let s := with_storage s d in
                  match getConversationById (storage s) conversation_id with
                  | Some conversation =>
                      (s, toMembers s (cw_members conversation)
                            (new_message conversation_id savedMessage))
                  | None => (s, [])
                  end
              end
            else (s, [(ws, error "Invalid message format")])
        | None => (s, [(ws, error "Invalid message format")])
        end
      else (s, [(ws, error "Not authenticated")])
  | _ => (s, [(ws, error "Not authenticated")])
  end.

Definition case_typing (s : State) (ws : Conn) (payload : MessagePayload)
  : State * list Delivery :=
  match userIdOf s !! ws, conversationId payload with
  | Some (Js.Num user), Some conversation_id =>
      if negb (user =? 0) && negb (conversation_id =? 0) then
        match getConversationById (storage s) conversation_id with
        | Some typingConversation =>
            (s, cw_members typingConversation ≫=
                  (λ member,
                     if decide (up_id member ≠ user)
                     then sendIfOpen s (up_id member) (typing conversation_id user)
                     else []))
        | None => (s, [])
        end
      else (s, [])
  | _, _ => (s, [])
  end.

(** The guard [!userId || !payload.messageId || !payload.<field>] of the
    edit and reaction branches; [Some (user, id, text)] when it passes. *)
Definition guard3 (s : State) (ws : Conn) (id : option Z) (text : option string)
  : option (Z * Z * string) :=
  match userIdOf s !! ws, id, text with
  | Some (Js.Num user), Some id, Some text =>
      if negb (user =? 0) && negb (id =? 0) && Js.truthy_string text
      then Some (user, id, text) else None
  | _, _, _ => None
  end.

Definition case_edit_message (s : State) (ws : Conn) (payload : MessagePayload)
  : State * list Delivery :=
  match guard3 s ws (messageId payload) (content payload) with
  | None => (s, [(ws, error "Invalid message edit format")])
  | Some (_, message_id, text) =>
      match updateMessage (storage s) message_id text with
      | (d, Throw _) => (with_storage s d, [])
      | (d, Ok None) => (with_storage s d, [(ws, error "Failed to update message")])
      | (d, Ok (Some updatedMessage)) =>
          let s := with_storage s d in
          let conversation_id := m_conversationId (ms_message updatedMessage) in
          match getConversationById (storage s) conversation_id with
          | Some messageConversation =>
              (s, toMembers s (cw_members messageConversation)
                    (message_updated conversation_id updatedMessage))
          | None => (s, [])
          end
      end
  end.

Definition case_add_reaction (s : State) (ws : Conn) (payload : MessagePayload)
  : State * list Delivery :=
  match guard3 s ws (messageId payload) (emoji payload) with
  | None => (s, [(ws, error "Invalid reaction format")])
  | Some (user, message_id, emoji) =>
      let reaction :=
        {| mr_messageId := message_id; mr_userId := user; mr_emoji := emoji |} in
      match addReactionToMessage (storage s) message_id reaction with
      | (d, Throw _) => (with_storage s d, [])
      | (d, Ok None) => (with_storage s d, [(ws, error "Failed to add reaction")])
      | (d, Ok (Some messageWithReaction)) =>
          let s := with_storage s d in
          let conversation_id := m_conversationId (ms_message messageWithReaction) in
          match getConversationById (storage s) conversation_id with
          | Some reactionConversation =>
              (s, toMembers s (cw_members reactionConversation)
                    (message_reacted conversation_id messageWithReaction))
          | None => (s, [])
          end
      end
  end.

Definition case_remove_reaction (s : State) (ws : Conn) (payload : MessagePayload)
  : State * list Delivery :=
  match guard3 s ws (messageId payload) (emoji payload) with
  | None => (s, [(ws, error "Invalid reaction removal format")])
  | Some (user, message_id, emoji) =>
      match removeReactionFromMessage (storage s) message_id user emoji with
      | (d, Throw _) => (with_storage s d, [])
      | (d, Ok None) => (with_storage s d, [(ws, error "Failed to remove reaction")])
      | (d, Ok (Some messageAfterRemoval)) =>
          let s := with_storage s d in
          let conversation_id := m_conversationId (ms_message messageAfterRemoval) in
          match getConversationById (storage s) conversation_id with
          | Some removalConversation =>
              (s, toMembers s (cw_members removalConversation)
                    (message_reaction_removed conversation_id messageAfterRemoval))
          | None => (s, [])
          end
      end
  end.

(** [ws.on('message')]: the [switch] on [payload.type]. *)
Definition on_message (s : State) (ws : Conn) (payload : MessagePayload)
  : State * list Delivery :=
  if decide (type payload = "authenticate") then case_authenticate s ws payload
  else if decide (type payload = "message") then case_message s ws payload
  else if decide (type payload = "typing") then case_typing s ws payload
  else if decide (type payload = "edit_message") then case_edit_message s ws payload
  else if decide (type payload = "add_reaction") then case_add_reaction s ws payload
  else if decide (type payload = "remove_reaction") then case_remove_reaction s ws payload
  else (s, []).

(** [ws.on('close')]. *)
Definition on_close (s : State) (ws : Conn) : State * list Delivery :=
  let s := with_readyState s ws CLOSED in
  match userIdOf s !! ws with
  | Some (Js.Num user) =>
      if negb (user =? 0) then
        let s := with_clients s (delete user (clients s)) in
        let s := with_storage s (updateUserOnlineStatus (storage s) user false).1 in
        (s, broadcastUserStatus s user false)
      else (s, [])
  | _ => (s, [])
  end.

(** The events the server reacts to, and a run over a list of them
    that collects the deliveries in order. *)
Inductive Event :=
| Connection (ws : Conn)
| Inbound (ws : Conn) (payload : MessagePayload)
| Close (ws : Conn).

Definition step (s : State) (ev : Event) : State * list Delivery :=
  match ev with
  | Connection ws => on_connection s ws
  | Inbound ws payload => on_message s ws payload
  | Close ws => on_close s ws
  end.

Fixpoint run (s : State) (evs : list Event) : State * list Delivery :=
  match evs with
  | [] => (s, [])
  | ev :: evs =>
      let '(s1, out1) := step s ev in
      let '(s2, out2) := run s1 evs in
      (s2, out1 ++ out2)
  end.

End Conversion.

(** The deliveries that reach connection [ws]. *)
Definition received (ws : Conn) (out : list Delivery) : list Envelope :=
  snd <$> filter (λ d, d.1 = ws) out.

(** Payload builders, one per row of the client-to-gateway table. *)
Definition authenticate (user : Js.any) : MessagePayload :=
  {| type := "authenticate"; conversationId := None; message := user;
     messageId := None; content := None; reaction := None; emoji := None;
     userId := None; attachments := None |}.

Definition send_message (conversation_id : Z) (text : string)
  (atts : option (list Attachment)) : MessagePayload :=
  {| type := "message"; conversationId := Some conversation_id;
     message := Js.AString text; messageId := None; content := None;
     reaction := None; emoji := None; userId := None; attachments := atts |}.

Definition typing_notice (conversation_id : Z) : MessagePayload :=
  {| type := "typing"; conversationId := Some conversation_id;
     message := Js.Undefined; messageId := None; content := None;
     reaction := None; emoji := None; userId := None; attachments := None |}.

Definition edit_message (message_id : Z) (text : string) : MessagePayload :=
  {| type := "edit_message"; conversationId := None; message := Js.Undefined;
     messageId := Some message_id; content := Some text; reaction := None;
     emoji := None; userId := None; attachments := None |}.

Definition add_reaction (message_id : Z) (e : string) : MessagePayload :=
  {| type := "add_reaction"; conversationId := None; message := Js.Undefined;
     messageId := Some message_id; content := None; reaction := None;
     emoji := Some e; userId := None; attachments := None |}.

Definition remove_reaction (message_id : Z) (e : string) : MessagePayload :=
  {| type := "remove_reaction"; conversationId := None; message := Js.Undefined;
     messageId := Some message_id; content := None; reaction := None;
     emoji := Some e; userId := None; attachments := None |}.

End Gateway.

(** ** The client connection manager ([client/src/lib/socket.ts]) *)

Module Client.
Import Schema.

Definition MAX_RECONNECT_ATTEMPTS : Z := 5.
Definition RECONNECT_DELAY_MS : Z := 3000.

Inductive ReadyState := CONNECTING | OPEN | CLOSING | CLOSED.

#[global] Instance ReadyState_eq_dec : EqDecision ReadyState.
Proof. solve_decision. Defined.

Inductive QueuedMessage :=
| message (conversationId : Z) (text : string)
    (attachments : option (list Attachment))
| edit_message (messageId : Z) (content : string)
| add_reaction (messageId : Z) (emoji : string)
| remove_reaction (messageId : Z) (emoji : string)
| typing (conversationId : Z).

(** What is handed to [socket.send]. *)
Inductive Outbound :=
| authenticate (userId : Z)
| queued (m : QueuedMessage).

(** The calls into the browser, in the order they are made; [Send] is
    recorded when [socket.send] returns normally. *)
Inductive Effect :=
| Send (sock : nat) (data : Outbound)
| NewWebSocket (sock : nat)
| CloseSocket (sock : nat)
| SetTimeout (timer : nat) (delay : Z)
| ClearTimeout (timer : nat).

(** A [WebSocket] object: its [readyState] and the [userId] captured by
    its [onopen] handler. *)
Record WebSocket := {
  readyState : ReadyState;
  captured : Z;
}.

(** The module-level variables, the sockets constructed so far (a socket
    is named by its index), the timers pending in the browser with
    their delays, and the log of browser calls. *)
Record State := {
  socket : option nat;
  sockets : list WebSocket;
  socketReconnectTimer : option nat;
  pendingTimers : list (nat * Z);
  nextTimer : nat;
  currentUserId : option Z;
  reconnectAttempts : Z;
  messageQueue : list QueuedMessage;
  log : list Effect;
}.

Definition initial : State :=
  {| socket := None; sockets := []; socketReconnectTimer := None;
     pendingTimers := []; nextTimer := 1%nat; currentUserId := None;
     reconnectAttempts := 0; messageQueue := []; log := [] |}.

Inductive Event :=
| ConnectSocket (userId : Z)
| DisconnectSocket
| SendMessage (conversationId : Z) (text : string)
    (attachments : option (list Attachment))
| EditMessage (messageId : Z) (content : string)
| AddReaction (messageId : Z) (emoji : string)
| RemoveReaction (messageId : Z) (emoji : string)
| SendTypingNotification (conversationId : Z)
| SocketOpen (sock : nat)
| SocketClose (sock : nat)
| SocketError (sock : nat)
| TimerFire (timer : nat).

(** The calls an application makes to take the connection in hand. *)
Definition manual (ev : Event) : bool :=
  match ev with
  | ConnectSocket _ | DisconnectSocket => true
  | _ => false
  end.

Definition isOpenEvent (ev : Event) : bool :=
  match ev with SocketOpen _ => true | _ => false end.

Definition isSetTimeout (e : Effect) : bool :=
  match e with SetTimeout _ _ => true | _ => false end.

Definition isClearTimeout (e : Effect) : bool :=
  match e with ClearTimeout _ => true | _ => false end.

Definition isNewWebSocket (e : Effect) : bool :=
  match e with NewWebSocket _ => true | _ => false end.

Section Transport.

(** Whether the next [socket.send(data)] throws, given the browser
    calls made so far. *)
Variable send_throws : list Effect → Outbound → bool.

Definition set_readyState (s : State) (k : nat) (r : ReadyState) : State :=
  {| socket := socket s;
     sockets := alter (λ w, {| readyState := r; captured := captured w |}) k (sockets s);
     socketReconnectTimer := socketReconnectTimer s;
     pendingTimers := pendingTimers s; nextTimer := nextTimer s;
     currentUserId := currentUserId s;
     reconnectAttempts := reconnectAttempts s;
     messageQueue := messageQueue s; log := log s |}.

Definition set_queue_log (s : State) (q : list QueuedMessage) (l : list Effect)
  : State :=
  {| socket := socket s; sockets := sockets s;
     socketReconnectTimer := socketReconnectTimer s;
     pendingTimers := pendingTimers s; nextTimer := nextTimer s;
     currentUserId := currentUserId s;
     reconnectAttempts := reconnectAttempts s;
     messageQueue := q; log := l |}.

Definition set_timer (s : State) (t : option nat) (pending : list (nat * Z))
  (next : nat) (l : list Effect) : State :=
  {| socket := socket s; sockets := sockets s;
     socketReconnectTimer := t;
     pendingTimers := pending; nextTimer := next;
     currentUserId := currentUserId s;
     reconnectAttempts := reconnectAttempts s;
     messageQueue := messageQueue s; log := l |}.

Definition set_attempts (s : State) (n : Z) : State :=
  {| socket := socket s; sockets := sockets s;
     socketReconnectTimer := socketReconnectTimer s;
     pendingTimers := pendingTimers s; nextTimer := nextTimer s;
     currentUserId := currentUserId s;
     reconnectAttempts := n;
     messageQueue := messageQueue s; log := log s |}.

(** [socket && socket.readyState === WebSocket.OPEN], with the socket. *)
Definition openSocket (s : State) : option nat :=
  match socket s with
  | Some k =>
      match sockets s !! k with
      | Some w => if decide (readyState w = OPEN) then Some k else None
      | None => None
      end
  | None => None
  end.

(** [!socket || socket.readyState === WebSocket.CLOSED]. *)
Definition noSocketOrClosed (s : State) : bool :=
  match socket s with
  | Some k => bool_decide (readyState <$> sockets s !! k = Some CLOSED)
  | None => true
  end.

(** [socket.close()]. *)
Definition closeCall (s : State) (k : nat) : State :=
  let s :=
    match readyState <$> sockets s !! k with
    | Some CONNECTING | Some OPEN => set_readyState s k CLOSING
    | _ => s
    end in
  set_queue_log s (messageQueue s) (log s ++ [CloseSocket k]).

(** [clearTimeout(socketReconnectTimer); socketReconnectTimer = null]
    when the variable is set. *)
Definition clearReconnectTimer (s : State) : State :=
  match socketReconnectTimer s with
  | Some t =>
      set_timer s None (filter (λ p, p.1 ≠ t) (pendingTimers s))
        (nextTimer s) (log s ++ [ClearTimeout t])
  | None => s
  end.

Definition reconnectSocket (s : State) : State :=
  match socketReconnectTimer s, currentUserId s with
  | None, Some user =>
      if user =? 0 then s
      else if reconnectAttempts s <? MAX_RECONNECT_ATTEMPTS then
        let t := nextTimer s in
        set_timer s (Some t) (pendingTimers s ++ [(t, RECONNECT_DELAY_MS)])
          (S t) (log s ++ [SetTimeout t RECONNECT_DELAY_MS])
      else s
  | _, _ => s
  end.

(** [sendAuthMessage]; the boolean tells whether [socket.send] threw. *)
Definition sendAuthMessage (s : State) (userId : Z) : State * bool :=
  match openSocket s with
  | Some k =>
      if send_throws (log s) (authenticate userId) then (s, true)
      else (set_queue_log s (messageQueue s)
              (log s ++ [Send k (authenticate userId)]), false)
  | None => (s, false)
  end.

(** The [while] loop of [processMessageQueue]. *)
Fixpoint drain (k : nat) (l : list Effect) (queue : list QueuedMessage)
  : list Effect * list QueuedMessage :=
  match queue with
  | [] => (l, [])
  | queuedMessage :: rest =>
      if send_throws l (queued queuedMessage)
      then (l, queuedMessage :: rest)
      else drain k (l ++ [Send k (queued queuedMessage)]) rest
  end.

Definition processMessageQueue (s : State) : State :=
  match openSocket s with
  | Some k =>
      let '(l, q) := drain k (log s) (messageQueue s) in
      set_queue_log s q l
  | None => s
  end.

(** [connectSocket]; the boolean tells whether it threw. *)
Definition connectSocket (s : State) (userId : Z) : State * bool :=
  let s :=
    {| socket := socket s; sockets := sockets s;
       socketReconnectTimer := socketReconnectTimer s;
       pendingTimers := pendingTimers s; nextTimer := nextTimer s;
       currentUserId := Some userId;
       reconnectAttempts := reconnectAttempts s;
       messageQueue := messageQueue s; log := log s |} in
  match openSocket s with
  | Some _ =>
      let '(s, threw) := sendAuthMessage s userId in
      if threw then (s, true) else (processMessageQueue s, false)
  | None =>
      let s := match socket s with Some k => closeCall s k | None => s end in
      let k := length (sockets s) in
      ({| socket := Some k;
          sockets := sockets s ++ [{| readyState := CONNECTING; captured := userId |}];
          socketReconnectTimer := socketReconnectTimer s;
          pendingTimers := pendingTimers s; nextTimer := nextTimer s;
          currentUserId := currentUserId s;
          reconnectAttempts := reconnectAttempts s;
          messageQueue := messageQueue s;
          log := log s ++ [NewWebSocket k] |}, false)
  end.

Definition disconnectSocket (s : State) : State :=
  let s :=
    match socket s with
    | Some k =>
        let s := closeCall s k in
        {| socket := None; sockets := sockets s;
           socketReconnectTimer := socketReconnectTimer s;
           pendingTimers := pendingTimers s; nextTimer := nextTimer s;
           currentUserId := currentUserId s;
           reconnectAttempts := reconnectAttempts s;
           messageQueue := messageQueue s; log := log s |}
    | None => s
    end in
  clearReconnectTimer s.

(** [socket.onopen] of socket [k]. *)
Definition onopen (s : State) (k : nat) : State :=
  let s := set_attempts s 0 in
  let userId := default 0 (captured <$> sockets s !! k) in
  let '(s, threw) := sendAuthMessage s userId in
  if threw then s
  else clearReconnectTimer (processMessageQueue s).

(** [socket.onclose]. *)
Definition onclose (s : State) : State := reconnectSocket s.

(** The callback given to [setTimeout] by [reconnectSocket]. The timer
    is only set while [currentUserId] is a non-zero number and nothing
    resets the variable, so [currentUserId!] is that number. *)
Definition reconnectCallback (s : State) : State :=
  let '(s, threw) := connectSocket s (default 0 (currentUserId s)) in
  if threw then s
  else
    let s := set_attempts s (reconnectAttempts s + 1) in
    set_timer s None (pendingTimers s) (nextTimer s) (log s).

(** The common shape of [sendMessage], [editMessage], [addReaction]
    and [removeReaction]; they differ in the test that guards
    [reconnectSocket] after a failed send: [readyState === CLOSED]
    for the first two, [readyState !== CONNECTING] for the others. *)
Definition submit (retryUnlessConnecting : bool) (s : State)
  (messagePayload : QueuedMessage) : State :=
  match openSocket s with
  | Some k =>
      if send_throws (log s) (queued messagePayload) then
        let s := set_queue_log s (messageQueue s ++ [messagePayload]) (log s) in
        let state := readyState <$> sockets s !! k in
        if retryUnlessConnecting
        then (if bool_decide (state ≠ Some CONNECTING) then reconnectSocket s else s)
        else (if bool_decide (state = Some CLOSED) then reconnectSocket s else s)
      else set_queue_log s (messageQueue s) (log s ++ [Send k (queued messagePayload)])
  | None =>
      let s := set_queue_log s (messageQueue s ++ [messagePayload]) (log s) in
      if noSocketOrClosed s then reconnectSocket s else s
  end.

Definition sendMessage (s : State) (conversationId : Z) (text : string)
  (attachments : option (list Attachment)) : State :=
  submit false s (message conversationId text attachments).

Definition editMessage (s : State) (messageId : Z) (content : string) : State :=
  submit false s (edit_message messageId content).

Definition addReaction (s : State) (messageId : Z) (emoji : string) : State :=
  submit true s (add_reaction messageId emoji).

Definition removeReaction (s : State) (messageId : Z) (emoji : string) : State :=
  submit true s (remove_reaction messageId emoji).

Definition sendTypingNotification (s : State) (conversationId : Z) : State :=
  match openSocket s with
  | Some k =>
      if send_throws (log s) (queued (typing conversationId)) then s
      else set_queue_log s (messageQueue s)
             (log s ++ [Send k (queued (typing conversationId))])
  | None => s
  end.

(** One event; [None] when the browser cannot raise it in this state:
    [open] needs a connecting socket, [close] a socket that is not yet
    closed, a timer fires only while it is pending. *)
Definition step (s : State) (ev : Event) : option State :=
  match ev with
  | ConnectSocket userId => Some (connectSocket s userId).1
  | DisconnectSocket => Some (disconnectSocket s)
  | SendMessage c t a => Some (sendMessage s c t a)
  | EditMessage m c => Some (editMessage s m c)
  | AddReaction m e => Some (addReaction s m e)
  | RemoveReaction m e => Some (removeReaction s m e)
  | SendTypingNotification c => Some (sendTypingNotification s c)
  | SocketOpen k =>
      match readyState <$> sockets s !! k with
      | Some CONNECTING => Some (onopen (set_readyState s k OPEN) k)
      | _ => None
      end
  | SocketClose k =>
      match readyState <$> sockets s !! k with
      | Some CONNECTING | Some OPEN | Some CLOSING =>
          Some (onclose (set_readyState s k CLOSED))
      | _ => None
      end
  | SocketError k =>
      match sockets s !! k with Some _ => Some s | None => None end
  | TimerFire t =>
      if decide (t ∈ (pendingTimers s).*1) then
        Some (reconnectCallback
                (set_timer s (socketReconnectTimer s)
                   (filter (λ p, p.1 ≠ t) (pendingTimers s))
                   (nextTimer s) (log s)))
      else None
  end.

Fixpoint run (s : State) (evs : list Event) : option State :=
  match evs with
  | [] => Some s
  | ev :: evs =>
      match step s ev with
      | Some s' => run s' evs
      | None => None
      end
  end.

End Transport.

(** Counters over the log of browser calls. *)
Definition scheduled (l : list Effect) : nat :=
  length (filter (λ e, isSetTimeout e) l).

Definition cleared (l : list Effect) : nat :=
  length (filter (λ e, isClearTimeout e) l).

Definition created (l : list Effect) : nat :=
  length (filter (λ e, isNewWebSocket e) l).

(** A socket that can no longer open. *)
Definition closingOrClosed (w : WebSocket) : Prop :=
  readyState w = CLOSING ∨ readyState w = CLOSED.

(** The state in which the client has given up: the attempt counter
    stands at its maximum, no timer is pending and no socket is
    connecting or open. *)
Definition Exhausted (s : State) : Prop :=
  reconnectAttempts s = MAX_RECONNECT_ATTEMPTS
  ∧ pendingTimers s = []
  ∧ Forall closingOrClosed (sockets s).

(** What holds of every state the client can be in: a pending timer is
    the one held in [socketReconnectTimer] and has the fixed delay; the
    attempt counter, plus one while the timer variable is set, stays
    within the maximum; every socket but the current one is closing or
    closed. *)
Record Inv (s : State) : Prop := {
  inv_timer :
    pendingTimers s = []
    ∨ ∃ t, socketReconnectTimer s = Some t
           ∧ pendingTimers s = [(t, RECONNECT_DELAY_MS)];
  inv_attempts : 0 ≤ reconnectAttempts s;
  inv_budget :
    reconnectAttempts s + match socketReconnectTimer s with Some _ => 1 | None => 0 end
    ≤ MAX_RECONNECT_ATTEMPTS;
  inv_stale :
    ∀ k w, sockets s !! k = Some w → socket s ≠ Some k → closingOrClosed w;
}.

(** The attempts made since the last open, counting the one that is
    scheduled. *)
Definition budget (s : State) : Z :=
  reconnectAttempts s + match socketReconnectTimer s with Some _ => 1 | None => 0 end.

(** [budget] set against the timers scheduled and cleared so far. *)
Definition balance (s : State) : Z :=
  budget s - Z.of_nat (scheduled (log s)) + Z.of_nat (cleared (log s)).

(** Two states that differ at most in the queue and in the messages
    sent. *)
Record Quiet (s s' : State) : Prop := {
  q_socket : socket s' = socket s;
  q_sockets : sockets s' = sockets s;
  q_timer : socketReconnectTimer s' = socketReconnectTimer s;
  q_pending : pendingTimers s' = pendingTimers s;
  q_attempts : reconnectAttempts s' = reconnectAttempts s;
  q_scheduled : scheduled (log s') = scheduled (log s);
  q_cleared : cleared (log s') = cleared (log s);
  q_created : created (log s') = created (log s);
}.

(** Two states with the same timer variable, pending timers, attempt
    counter and timer counts. *)
Record SameTimers (s s' : State) : Prop := {
  st_timer : socketReconnectTimer s' = socketReconnectTimer s;
  st_pending : pendingTimers s' = pendingTimers s;
  st_attempts : reconnectAttempts s' = reconnectAttempts s;
  st_scheduled : scheduled (log s') = scheduled (log s);
  st_cleared : cleared (log s') = cleared (log s);
}.

Definition isDisconnect (ev : Event) : bool :=
  match ev with DisconnectSocket => true | _ => false end.

(** [s'] satisfies the invariant and has the balance and the number of
    cleared timers of [s]. *)
Definition Keeps (s s' : State) : Prop :=
  Inv s' ∧ balance s' = balance s ∧ cleared (log s') = cleared (log s).

End Client.

(** ** A concrete deployment used to exercise the definitions *)

Module Scenario.
Import Schema Storage Gateway.

(** The clients of this deployment give their user id as a number, as
    [sendAuthMessage] of the client does, so the conversion of strings
    plays no part in it; it is fixed here only to have closed terms. *)
#[export] Instance conversion : Js.StringToNumber := λ _, Js.NaN.

Definition alice : User :=
  {| u_id := 1; u_username := "alice"; u_password := "pw-a";
     u_profile := "Alice"; u_isOnline := false |}.
Definition bob : User :=
  {| u_id := 2; u_username := "bob"; u_password := "pw-b";
     u_profile := "Bob"; u_isOnline := false |}.
Definition carol : User :=
  {| u_id := 3; u_username := "carol"; u_password := "pw-c";
     u_profile := "Carol"; u_isOnline := false |}.

Definition room : Conversation :=
  {| c_id := 7; c_name := Some "room"; c_isGroup := true; c_createdAt := Some 100 |}.

Definition hello : Message :=
  {| m_id := 5; m_conversationId := 7; m_senderId := 1; m_content := "hello";
     m_createdAt := 150; m_updatedAt := None; m_isEdited := false;
     m_attachments := Some []; m_reactions := None |}.

Definition db : Db :=
  {| users := [alice; bob; carol];
     conversations := [room];
     conversationMembers :=
       [ {| cm_conversationId := 7; cm_userId := 1 |};
         {| cm_conversationId := 7; cm_userId := 2 |};
         {| cm_conversationId := 7; cm_userId := 3 |} ];
     messages := [hello];
     next_message_id := 6;
     now := 200 |}.

(** Nobody is connected yet. *)
Definition idle : State :=
  {| clients := ∅; userIdOf := ∅; readyStateOf := ∅; storage := db |}.

(** Connection 10 is open and has not authenticated. *)
Definition fresh : State := (run idle [Connection 10]).1.

(** Connections 1 and 2 are open and have not authenticated. *)
Definition twoOpen : State := (run idle [Connection 1; Connection 2]).1.

(** Alice, Bob and Carol are connected on 10, 20 and 30 and have
    authenticated. *)
Definition online : State :=
  (run idle
     [ Connection 10; Inbound 10 (authenticate (Js.ANumber 1));
       Connection 20; Inbound 20 (authenticate (Js.ANumber 2));
       Connection 30; Inbound 30 (authenticate (Js.ANumber 3)) ]).1.

Definition thumbsUp : MessageReaction :=
  {| mr_messageId := 5; mr_emoji := "+1"; mr_userId := 2 |}.

Definition photo : Attachment :=
  {| att_name := "cat.png"; att_type := "image/png";
     att_url := "/uploads/cat.png"; att_size := Some 2048 |}.

End Scenario.

Module ClientScenario.
Import Client.

(** A transport whose [send] never throws. *)
Definition never : list Effect → Outbound → bool := λ _ _, false.

(** A transport whose [send] throws on the call made after three
    browser calls. *)
Definition flaky : list Effect → Outbound → bool :=
  λ l _, bool_decide (length l = 3%nat).

(** The user connects; the connection fails and every one of the
    reconnection attempts fails too. *)
Definition retries : list Event :=
  [ ConnectSocket 1; SocketClose 0;
    TimerFire 1; SocketClose 1;
    TimerFire 2; SocketClose 2;
    TimerFire 3; SocketClose 3;
    TimerFire 4; SocketClose 4;
    TimerFire 5; SocketClose 5 ].

Definition gaveUp : State := default initial (run never initial retries).

(** The connection fails once; from then on the application calls
    [disconnectSocket] and submits a message, six times over. No socket
    opens. *)
Definition restless : list Event :=
  [ ConnectSocket 1; SocketClose 0;
    DisconnectSocket; SendMessage 7 "a" None;
    DisconnectSocket; SendMessage 7 "b" None;
    DisconnectSocket; SendMessage 7 "c" None;
    DisconnectSocket; SendMessage 7 "d" None;
    DisconnectSocket; SendMessage 7 "e" None;
    DisconnectSocket; SendMessage 7 "f" None ].

Definition worn : State := default initial (run never initial restless).

(** Three actions queued while disconnected, then the connection opens. *)
Definition m1 : QueuedMessage := message 7 "a" None.
Definition m2 : QueuedMessage := edit_message 5 "b".
Definition m3 : QueuedMessage := add_reaction 5 "c".

Definition backlog : State :=
  {| socket := Some 0%nat;
     sockets := [{| readyState := OPEN; captured := 1 |}];
     socketReconnectTimer := None; pendingTimers := []; nextTimer := 1%nat;
     currentUserId := Some 1; reconnectAttempts := 0;
     messageQueue := [m1; m2; m3];
     log := [NewWebSocket 0; Send 0 (authenticate 1)] |}.

End ClientScenario.

(** ** Statements of the specification and their settings *)

Module Claims.
Import Schema Storage Gateway.

(** [p] is a member of some existing conversation that [u] is a member
    of, and [p] is a user. *)
Definition sharesConversation (d : Db) (u p : Z) : Prop :=
  ∃ id,
    id ∈ c_id <$> conversations d
    ∧ {| cm_conversationId := id; cm_userId := u |} ∈ conversationMembers d
    ∧ {| cm_conversationId := id; cm_userId := p |} ∈ conversationMembers d
    ∧ p ∈ u_id <$> users d.

(** The setting of the fan-out statement: [ws] is authenticated as [a]
    and sends a well-formed [message] envelope to a conversation whose
    members are [a], [b] and [c], each registered on an open connection
    of its own. *)
Record FanoutScene (s : State) (ws : Conn) (payload : MessagePayload)
  (cid a b c : Z) (ca cb cc : Conn) : Prop := {
  fs_type : type payload = "message";
  fs_conversation : conversationId payload = Some cid;
  fs_cid : cid ≠ 0;
  fs_content : Js.truthy_any (message payload) = true;
  fs_sender : userIdOf s !! ws = Some (Js.Num a);
  fs_sender_id : a ≠ 0;
  fs_members :
    ∃ conv, getConversationById (storage s) cid = Some conv
            ∧ up_id <$> cw_members conv ≡ₚ [a; b; c];
  fs_distinct : NoDup [a; b; c];
  fs_a : clients s !! a = Some ca;
  fs_b : clients s !! b = Some cb;
  fs_c : clients s !! c = Some cc;
  fs_conns : NoDup [ca; cb; cc];
  fs_open_a : readyStateOf s !! ca = Some OPEN;
  fs_open_b : readyStateOf s !! cb = Some OPEN;
  fs_open_c : readyStateOf s !! cc = Some OPEN;
}.

(** The fan-out statement as the specification words it: the sender gets nothing. *)
Definition fanout_skips_sender : Prop :=
  ∀ (to_number : Js.StringToNumber) s ws payload cid a b c ca cb cc,
    FanoutScene s ws payload cid a b c ca cb cc →
    ∃ d saved,
      createMessage (storage s) (messageData a cid payload) = (d, Ok saved)
      ∧ storage (on_message s ws payload).1 = d
      ∧ received ca (on_message s ws payload).2 = []
      ∧ received cb (on_message s ws payload).2 = [new_message cid saved]
      ∧ received cc (on_message s ws payload).2 = [new_message cid saved].

(** The registry statement as the specification words it: after [c1] and then [c2]
    authenticate as [u] and [c1] closes, [u] is still mapped to [c2]. *)
Definition close_keeps_newer_connection : Prop :=
  ∀ (to_number : Js.StringToNumber) s (c1 c2 : Conn) (u : Z),
    c1 ≠ c2 → u ≠ 0 →
    clients
      (run s [ Inbound c1 (authenticate (Js.ANumber u));
               Inbound c2 (authenticate (Js.ANumber u));
               Close c1 ]).1 !! u = Some c2.

(** The setting of the presence statements: [p] shares a conversation
    with the existing user [u] and is registered, alone, on the open
    connection [cp]. *)
Record PresenceScene (s : State) (u p : Z) (cp : Conn) : Prop := {
  ps_user : u ∈ u_id <$> users (storage s);
  ps_shares : sharesConversation (storage s) u p;
  ps_other : p ≠ u;
  ps_registered : clients s !! p = Some cp;
  ps_open : readyStateOf s !! cp = Some OPEN;
  ps_alone : ∀ q, q ≠ u → clients s !! q = Some cp → q = p;
}.

(** The presence statement as the specification words it: a user who is already online
    (marked so in the store and present in the registry) and
    authenticates again causes no further [user_status] broadcast. *)
Definition no_duplicate_online_broadcast : Prop :=
  ∀ (to_number : Js.StringToNumber) s ws u p cp,
    PresenceScene s u p cp →
    (∀ row, row ∈ users (storage s) → u_id row = u → u_isOnline row = true) →
    is_Some (clients s !! u) →
    received cp (on_message s ws (authenticate (Js.ANumber u))).2 = [].

(** The envelope types that need a user id. *)
Definition needsUser : list string :=
  ["message"; "typing"; "edit_message"; "add_reaction"; "remove_reaction"].

(** The unauthenticated-action statement as the specification words it. *)
Definition unauthenticated_action_gets_error : Prop :=
  ∀ (to_number : Js.StringToNumber) s ws payload,
    userIdOf s !! ws = None →
    type payload ∈ needsUser →
    ∃ text, on_message s ws payload = (s, [(ws, error text)]).

(** The validation failures that the gateway tests for itself: empty
    content, a missing emoji, a message that the store looks up and does
    not find. *)
Inductive DetectedFailure (d : Db) (payload : MessagePayload) : Prop :=
| EmptyMessage :
    type payload = "message" →
    Js.truthy_any (message payload) = false →
    DetectedFailure d payload
| EmptyEdit :
    type payload = "edit_message" →
    Js.truthy_opt_string (content payload) = false →
    DetectedFailure d payload
| MissingEmoji :
    type payload ∈ ["add_reaction"; "remove_reaction"] →
    Js.truthy_opt_string (emoji payload) = false →
    DetectedFailure d payload
| MessageNotFound id :
    type payload ∈ ["edit_message"; "add_reaction"; "remove_reaction"] →
    messageId payload = Some id →
    selectMessage d id = Ok None →
    DetectedFailure d payload.

(** An otherwise well-formed [message] envelope for a conversation
    that does not exist. *)
Definition ConversationNotFound (d : Db) (payload : MessagePayload) : Prop :=
  type payload = "message"
  ∧ Js.truthy_any (message payload) = true
  ∧ ∃ id, conversationId payload = Some id ∧ id ≠ 0
          ∧ id ∉ c_id <$> conversations d.

(** The validation statement as the specification words it: every such failure, the
    missing conversation included, is answered by exactly one [error]
    envelope to the originating connection and changes nothing. *)
Definition every_validation_failure_gets_error : Prop :=
  ∀ (to_number : Js.StringToNumber) s ws payload,
    Js.truthy_opt_number (userIdOf s !! ws) = true →
    DetectedFailure (storage s) payload ∨ ConversationNotFound (storage s) payload →
    ∃ text, on_message s ws payload = (s, [(ws, error text)]).

(** The reconnection statement as the specification words it: the
    client never schedules more than five reconnection timers without
    an open in between. *)
Definition at_most_five_timers_without_open : Prop :=
  ∀ (send_throws : list Client.Effect → Client.Outbound → bool)
    (evs evs' : list Client.Event) (s s' : Client.State),
    Client.run send_throws Client.initial evs = Some s →
    Forall (λ ev, Client.isOpenEvent ev = false) evs' →
    Client.run send_throws s evs' = Some s' →
    (Client.scheduled (Client.log s') ≤ Client.scheduled (Client.log s) + 5)%nat.

End Claims.

(** ** More of the storage layer *)

Module StorageMore.
Import Schema Storage.

Definition with_conversationMembers (d : Db) (rows : list ConversationMember) : Db :=
  {| users := users d; conversations := conversations d;
     conversationMembers := rows; messages := messages d;
     next_message_id := next_message_id d; now := now d |}.

(** [orderBy(messages.createdAt)]: a stable sort, oldest first. *)
Fixpoint insertByCreated (m : Message) (l : list Message) : list Message :=
  match l with
  | [] => [m]
  | m' :: l' =>
      if m_createdAt m <=? m_createdAt m' then m :: m' :: l'
      else m' :: insertByCreated m l'
  end.

Definition sortByCreated (l : list Message) : list Message :=
  foldr insertByCreated [] l.

(** [getMessagesForConversation]: the messages of the conversation,
    oldest first, each with its sender; a message whose sender has no
    row is left out. *)
Definition getMessagesForConversation (d : Db) (conversationId : Z)
  : list MessageWithSender :=
  let allMessages :=
    sortByCreated (filter (λ m, m_conversationId m = conversationId) (messages d)) in
  omap (λ message,
          match selectPublic d (m_senderId message) with
          | Some sender => Some {| ms_message := message; ms_sender := sender |}
          | None => None
          end) allMessages.

(** [clearMessagesInConversation]. The [delete] raises when the
    parameter does not fit the column [conversation_id]; the [catch]
    block then answers [false]. *)
Definition clearMessagesInConversation (d : Db) (conversationId : Z) : Db * bool :=
  if bool_decide (int4 conversationId) then
    (with_messages d
       (filter (λ m, m_conversationId m ≠ conversationId) (messages d))
       (next_message_id d),
     true)
  else (d, false).

(** [removeUserFromConversation]. The lookup of the conversation
    raises when [conversationId] does not fit the column [id], and the
    [delete] raises when [userId] does not fit the column [user_id]; the
    [catch] block then answers [false]. *)
Definition removeUserFromConversation (d : Db) (conversationId userId : Z)
  : Db * bool :=
  if bool_decide (int4 conversationId) then
    match getConversationById d conversationId with
    | None => (d, false)
    | Some conversation =>
        if bool_decide (int4 userId) then
          (with_conversationMembers d
             (filter (λ row, ¬ (cm_conversationId row = conversationId
                                ∧ cm_userId row = userId))
                     (conversationMembers d)),
           true)
        else (d, false)
    end
  else (d, false).

(** Message ids behave as a [serial] primary key: they are pairwise
    different and below the next value of the sequence. *)
Definition MessagesWf (d : Db) : Prop :=
  NoDup (m_id <$> messages d)
  ∧ ∀ m, m ∈ messages d → m_id m < next_message_id d.

(** [d'] has the conversations, the membership rows and the user ids of
    [d], and every message id of [d], in the same order, before any new
    one. *)
Definition Extends (d d' : Db) : Prop :=
  conversations d' = conversations d
  ∧ conversationMembers d' = conversationMembers d
  ∧ u_id <$> users d' = u_id <$> users d
  ∧ (m_id <$> messages d) `prefix_of` (m_id <$> messages d').

End StorageMore.

(** ** Settings and predicates for further gateway properties *)

Module GatewayMore.
Import Schema Storage Gateway.

Definition isError (e : Envelope) : bool :=
  match e with error _ => true | _ => false end.

(** [p] is a member of the existing conversation [cid] and a user, user
    ids are unique, and [p] is registered on the open connection [cp],
    on which no other member of the conversation is registered. *)
Record Recipient (s : State) (cid p : Z) (cp : Conn) : Prop := {
  rc_unique : NoDup (u_id <$> users (storage s));
  rc_conversation : cid ∈ c_id <$> conversations (storage s);
  rc_row :
    {| cm_conversationId := cid; cm_userId := p |} ∈ conversationMembers (storage s);
  rc_user : p ∈ u_id <$> users (storage s);
  rc_registered : clients s !! p = Some cp;
  rc_open : readyStateOf s !! cp = Some OPEN;
  rc_alone :
    ∀ q, q ≠ p →
         {| cm_conversationId := cid; cm_userId := q |} ∈ conversationMembers (storage s) →
         clients s !! q ≠ Some cp;
}.

(** Every delivery of [out] is an [error] envelope to [ws], or an
    envelope of another kind to a connection that is open and registered
    in [s]. *)
Definition WellAddressed (s : State) (ws : Conn) (out : list Delivery) : Prop :=
  ∀ c e, (c, e) ∈ out →
    (c = ws ∧ isError e = true)
    ∨ (isError e = false
       ∧ readyStateOf s !! c = Some OPEN
       ∧ ∃ u, clients s !! u = Some c).

(** The connection [ws] has authenticated as a user with a non-zero id. *)
Definition authenticatedAs (s : State) (ws : Conn) (user : Z) : Prop :=
  userIdOf s !! ws = Some (Js.Num user) ∧ user ≠ 0.

End GatewayMore.

(** ** Settings for further client properties *)

Module ClientMore.
Import Client.

(** The payload that a call of [sendMessage], [editMessage],
    [addReaction] or [removeReaction] submits. *)
Definition payloadOf (ev : Event) : option QueuedMessage :=
  match ev with
  | SendMessage c t a => Some (message c t a)
  | EditMessage m c => Some (edit_message m c)
  | AddReaction m e => Some (add_reaction m e)
  | RemoveReaction m e => Some (remove_reaction m e)
  | _ => None
  end.

Definition isTyping (m : QueuedMessage) : bool :=
  match m with typing _ => true | _ => false end.

Definition isConnect (ev : Event) : bool :=
  match ev with ConnectSocket _ => true | _ => false end.

(** What [socket.send] was given and accepted, in order. *)
Definition sent (l : list Effect) : list Outbound :=
  omap (λ e, match e with Send _ data => Some data | _ => None end) l.

(** The actions among them: everything but [authenticate] and [typing]. *)
Definition actionsSent (l : list Effect) : list QueuedMessage :=
  omap (λ data, match data with
                | queued m => if isTyping m then None else Some m
                | authenticate _ => None
                end) (sent l).

(** The actions the client holds or has sent. *)
Definition actions (s : State) : list QueuedMessage :=
  actionsSent (log s) ++ messageQueue s.

(** No [typing] notice waits in the queue. *)
Definition NoTyping (s : State) : Prop :=
  Forall (λ m, isTyping m = false) (messageQueue s).

(** From [s] to [s'] no action is added, lost or reordered, and no
    [typing] notice enters the queue. *)
Definition Holds (s s' : State) : Prop :=
  NoTyping s → NoTyping s' ∧ actions s' = actions s.

(** The client has no user id that counts as one, and no timer is
    pending. *)
Definition Userless (s : State) : Prop :=
  (currentUserId s = None ∨ currentUserId s = Some 0) ∧ pendingTimers s = [].

(** Two states with the same user id and pending timers, and as many
    timers scheduled and sockets created. *)
Record Still (s s' : State) : Prop := {
  still_user : currentUserId s' = currentUserId s;
  still_pending : pendingTimers s' = pendingTimers s;
  still_scheduled : scheduled (log s') = scheduled (log s);
  still_created : created (log s') = created (log s);
}.

End ClientMore.

(** ** The client's callback registry and [socket.onmessage] *)

Module ClientEvents.
Import Schema.

(** The five callback arrays, named by the function that subscribes to
    them. A callback is known by its identity, which is what
    [cb !== callback] compares. *)
Inductive Channel :=
| NewMessage | Typing | UserStatusChange | MessageUpdated | MessageReacted.

#[global] Instance Channel_eq_dec : EqDecision Channel.
Proof. solve_decision. Defined.

Record Callbacks := {
  messageCallbacks : list nat;
  typingCallbacks : list nat;
  statusCallbacks : list nat;
  messageUpdatedCallbacks : list nat;
  messageReactedCallbacks : list nat;
}.

Definition none : Callbacks :=
  {| messageCallbacks := []; typingCallbacks := []; statusCallbacks := [];
     messageUpdatedCallbacks := []; messageReactedCallbacks := [] |}.

Definition callbacksOf (c : Callbacks) (ch : Channel) : list nat :=
  match ch with
  | NewMessage => messageCallbacks c
  | Typing => typingCallbacks c
  | UserStatusChange => statusCallbacks c
  | MessageUpdated => messageUpdatedCallbacks c
  | MessageReacted => messageReactedCallbacks c
  end.

Definition setCallbacks (c : Callbacks) (ch : Channel) (l : list nat) : Callbacks :=
  match ch with
  | NewMessage =>
      {| messageCallbacks := l; typingCallbacks := typingCallbacks c;
         statusCallbacks := statusCallbacks c;
         messageUpdatedCallbacks := messageUpdatedCallbacks c;
         messageReactedCallbacks := messageReactedCallbacks c |}
  | Typing =>
      {| messageCallbacks := messageCallbacks c; typingCallbacks := l;
         statusCallbacks := statusCallbacks c;
         messageUpdatedCallbacks := messageUpdatedCallbacks c;
         messageReactedCallbacks := messageReactedCallbacks c |}
  | UserStatusChange =>
      {| messageCallbacks := messageCallbacks c;
         typingCallbacks := typingCallbacks c; statusCallbacks := l;
         messageUpdatedCallbacks := messageUpdatedCallbacks c;
         messageReactedCallbacks := messageReactedCallbacks c |}
  | MessageUpdated =>
      {| messageCallbacks := messageCallbacks c;
         typingCallbacks := typingCallbacks c;
         statusCallbacks := statusCallbacks c;
         messageUpdatedCallbacks := l;
         messageReactedCallbacks := messageReactedCallbacks c |}
  | MessageReacted =>
      {| messageCallbacks := messageCallbacks c;
         typingCallbacks := typingCallbacks c;
         statusCallbacks := statusCallbacks c;
         messageUpdatedCallbacks := messageUpdatedCallbacks c;
         messageReactedCallbacks := l |}
  end.

(** The body shared by [onNewMessage], [onTyping], [onUserStatusChange],
    [onMessageUpdated] and [onMessageReacted]: [callbacks.push(callback)]. *)
Definition subscribe (ch : Channel) (c : Callbacks) (callback : nat) : Callbacks :=
  setCallbacks c ch (callbacksOf c ch ++ [callback]).

(** The function they return:
    [callbacks = callbacks.filter(cb => cb !== callback)]. *)
Definition unsubscribe (ch : Channel) (c : Callbacks) (callback : nat) : Callbacks :=
  setCallbacks c ch (filter (λ cb, cb ≠ callback) (callbacksOf c ch)).

Definition onNewMessage := subscribe NewMessage.
Definition onTyping := subscribe Typing.
Definition onUserStatusChange := subscribe UserStatusChange.
Definition onMessageUpdated := subscribe MessageUpdated.
Definition onMessageReacted := subscribe MessageReacted.

(** The arguments a callback is called with. *)
Inductive Args :=
| MessageArgs (conversationId : Z) (message : MessageWithSender)
| TypingArgs (conversationId userId : Z)
| StatusArgs (userId : Z) (isOnline : bool).

(** One call [cb(...)] made by [socket.onmessage]. *)
Record Call := {
  channel : Channel;
  callee : nat;
  args : Args;
}.

(** [callbacks.forEach(cb => cb(...))] inside the [try] block: the calls
    made, up to and including the first one that throws. *)
Fixpoint forEach (throws : Call → bool) (calls : list Call) : list Call :=
  match calls with
  | [] => []
  | call :: rest => if throws call then [call] else call :: forEach throws rest
  end.

(** The [switch] of [socket.onmessage] on an envelope of the gateway. *)
Definition route (data : Gateway.Envelope) : option (Channel * Args) :=
  match data with
  | Gateway.new_message conversationId message =>
      Some (NewMessage, MessageArgs conversationId message)
  | Gateway.typing conversationId userId =>
      Some (Typing, TypingArgs conversationId userId)
  | Gateway.user_status userId isOnline =>
      Some (UserStatusChange, StatusArgs userId isOnline)
  | Gateway.message_updated conversationId message =>
      Some (MessageUpdated, MessageArgs conversationId message)
  | Gateway.message_reacted conversationId message
  | Gateway.message_reaction_removed conversationId message =>
      Some (MessageReacted, MessageArgs conversationId message)
  | Gateway.connected _ | Gateway.error _ => None
  end.

Definition onmessage (throws : Call → bool) (c : Callbacks)
  (data : Gateway.Envelope) : list Call :=
  match route data with
  | Some (ch, a) =>
      forEach throws
        ((λ cb, {| channel := ch; callee := cb; args := a |}) <$> callbacksOf c ch)
  | None => []
  end.

(** What happens to the registry: the application subscribes or calls
    a function that a subscription returned, or an envelope arrives. *)
Inductive Op :=
| Subscribe (ch : Channel) (callback : nat)
| Unsubscribe (ch : Channel) (callback : nat)
| Receive (data : Gateway.Envelope).

Definition step (throws : Call → bool) (c : Callbacks) (op : Op)
  : Callbacks * list Call :=
  match op with
  | Subscribe ch callback => (subscribe ch c callback, [])
  | Unsubscribe ch callback => (unsubscribe ch c callback, [])
  | Receive data => (c, onmessage throws c data)
  end.

Fixpoint run (throws : Call → bool) (c : Callbacks) (ops : list Op)
  : Callbacks * list Call :=
  match ops with
  | [] => (c, [])
  | op :: ops =>
      let '(c1, calls1) := step throws c op in
      let '(c2, calls2) := run throws c1 ops in
      (c2, calls1 ++ calls2)
  end.

End ClientEvents.

(** ** Further concrete settings *)

Module MoreScenario.
Import Schema Storage Gateway Client Scenario ClientScenario.

(** Bob has reacted to Alice's message. *)
Definition helloLiked : Message :=
  set_reactions hello [{| r_emoji := "+1"; r_userId := 2 |}].

Definition liked : Db := (addReactionToMessage db 5 thumbsUp).1.

(** Alice posts [hi] in the room. *)
Definition hi : InsertMessage :=
  {| im_conversationId := 7; im_senderId := 1; im_content := "hi";
     im_attachments := Some [] |}.

Definition savedHi : MessageWithSender :=
  {| ms_message :=
       {| m_id := 6; m_conversationId := 7; m_senderId := 1; m_content := "hi";
          m_createdAt := 200; m_updatedAt := None; m_isEdited := false;
          m_attachments := Some []; m_reactions := None |};
     ms_sender := publicOf alice |}.

(** The room as [getConversationById] returns it. *)
Definition roomView : ConversationWithMembers :=
  {| cw_conversation := room;
     cw_members := [publicOf alice; publicOf bob; publicOf carol];
     cw_lastMessage := Some {| ms_message := hello; ms_sender := publicOf alice |} |}.

(** Alice as the others see her once she is connected. *)
Definition aliceOnline : UserPublic := publicOf (set_isOnline alice true).

(** A day on the server: three users connect, talk, and one leaves. *)
Definition day : list Gateway.Event :=
  [ Connection 10; Inbound 10 (Gateway.authenticate (Js.ANumber 1));
    Connection 20; Inbound 20 (Gateway.authenticate (Js.ANumber 2));
    Inbound 10 (send_message 7 "hi" None);
    Inbound 20 (Gateway.add_reaction 5 "+1");
    Inbound 20 (Gateway.edit_message 5 "hello!");
    Close 10 ].

(** The client connects as user 1 and the socket is still connecting. *)
Definition connecting : Client.State :=
  default initial (Client.run never initial [ConnectSocket 1]).

(** The client is connected as user 1. *)
Definition started : list Client.Event := [ConnectSocket 1; SocketOpen 0].

Definition opened : Client.State :=
  default initial (Client.run never initial started).

(** Actions before, while and after the socket opens. *)
Definition busy : list Client.Event :=
  [ SendMessage 7 "a" None; ConnectSocket 1; EditMessage 5 "b";
    SendTypingNotification 7; SocketOpen 0; AddReaction 5 "c" ].

Definition afterBusy : Client.State :=
  default initial (Client.run never initial busy).

(** Nobody has called [connectSocket]. *)
Definition idleEvents : list Client.Event :=
  [ SendMessage 7 "a" None; SendTypingNotification 7; DisconnectSocket;
    RemoveReaction 5 "c" ].

Definition afterIdle : Client.State :=
  default initial (Client.run never initial idleEvents).

End MoreScenario.

(** * Properties *)

(** ** Storage: selecting after an update that keeps the key *)

Section StorageFacts.
Import Schema Storage.

Lemma head_filter_fmap {A} (key : A → Z) (f : A → A) (k : Z) (l : list A) :
  (∀ x, key (f x) = key x) →
  head (filter (λ x, key x = k) (f <$> l)) = f <$> head (filter (λ x, key x = k) l).
Proof.
  intros Hkey. induction l as [|x l IH]; [done|].
  rewrite fmap_cons, !filter_cons, Hkey.
  destruct (decide (key x = k)); [done|exact IH].
Qed.

Lemma fmap_update_twice {A} (key : A → Z) (f g : A → A) (k : Z) (l : list A) :
  (∀ x, key (f x) = key x) →
  (∀ x, g (f x) = f x) →
  (λ x, if decide (key x = k) then g x else x) <$>
    ((λ x, if decide (key x = k) then f x else x) <$> l)
  = (λ x, if decide (key x = k) then f x else x) <$> l.
Proof.
  intros Hkey Hgf. rewrite <- list_fmap_compose. apply list_fmap_ext.
  intros i x _. simpl. destruct (decide (key x = k)) as [Hk|Hk].
  - rewrite Hkey. destruct (decide (key x = k)); [apply Hgf|done].
  - destruct (decide (key x = k)); done.
Qed.

Lemma messageRow_updated (d : Db) (f : Message → Message) (k next : Z) :
  (∀ x, m_id (f x) = m_id x) →
  messageRow
    (with_messages d ((λ m, if decide (m_id m = k) then f m else m) <$> messages d) next) k
  = f <$> messageRow d k.
Proof.
  intros Hid. unfold messageRow. simpl.
  rewrite (head_filter_fmap m_id); [|intros x; destruct (decide _); auto].
  destruct (head (filter (λ m, m_id m = k) (messages d))) as [m|] eqn:Hm; [|done].
  simpl. apply head_Some_elem_of, list_elem_of_filter in Hm as [Hm _].
  destruct (decide (m_id m = k)); done.
Qed.

Lemma selectMessage_updated (d : Db) (f : Message → Message) (k next : Z) :
  (∀ x, m_id (f x) = m_id x) →
  selectMessage
    (with_messages d ((λ m, if decide (m_id m = k) then f m else m) <$> messages d) next) k
  = match selectMessage d k with
    | Ok row => Ok (f <$> row)
    | Throw e => Throw e
    end.
Proof.
  intros Hid. unfold selectMessage. destruct (bool_decide (int4 k)); [|done].
  by rewrite messageRow_updated.
Qed.

(** An update of the rows with one id leaves the rows with another id
    where they are. *)
Lemma lookup_update_other (f : Message → Message) (k : Z) (l : list Message)
  (i : nat) (row : Message) :
  m_id row ≠ k → (∀ x, m_id (f x) = m_id x) →
  l !! i = Some row
  ↔ ((λ m, if decide (m_id m = k) then f m else m) <$> l) !! i = Some row.
Proof.
  intros Hne Hid. rewrite list_lookup_fmap. split.
  - intros Hi. rewrite Hi. simpl. by rewrite decide_False.
  - intros Hi. destruct (l !! i) as [row'|]; [|done]. simpl in Hi.
    destruct (decide (m_id row' = k)) as [Heq|Hne']; [|congruence].
    injection Hi as <-. rewrite Hid in Hne. done.
Qed.

(** A lookup that finds a row was made with an id that fits the column. *)
Lemma selectMessage_Some (d : Db) (k : Z) (m : Message) :
  selectMessage d k = Ok (Some m) ↔ int4 k ∧ messageRow d k = Some m.
Proof.
  unfold selectMessage. destruct (bool_decide (int4 k)) eqn:Hk.
  - apply bool_decide_eq_true in Hk. split; [by intros [= ->]|by intros [_ ->]].
  - apply bool_decide_eq_false in Hk. split; [done|by intros [? _]].
Qed.

Lemma selectMessage_row (d : Db) (k : Z) (m : Message) :
  selectMessage d k = Ok (Some m) → messageRow d k = Some m.
Proof. by intros [_ ?]%selectMessage_Some. Qed.

Lemma selectMessage_Throw (d : Db) (k : Z) :
  ¬ int4 k → selectMessage d k = Throw out_of_range.
Proof. intros Hk. unfold selectMessage. by rewrite bool_decide_eq_false_2. Qed.

End StorageFacts.

(** ** Reactions are idempotent in the store *)

Section Reactions.
Import Schema Storage.

Lemma addReaction_first (d : Db) (messageId : Z) (reaction : MessageReaction)
  (m : Message) (sender : UserPublic) :
  selectMessage d messageId = Ok (Some m) →
  selectPublic d (m_senderId m) = Some sender →
  ∃ rs,
    addReactionToMessage d messageId reaction
    = (with_messages d
         ((λ x, if decide (m_id x = messageId) then set_reactions x rs else x)
            <$> messages d) (next_message_id d),
       Ok (Some {| ms_message := set_reactions m rs; ms_sender := sender |}))
    ∧ is_Some (list_find (sameReaction (mr_userId reaction) (mr_emoji reaction)) rs)
    ∧ rs = match list_find (sameReaction (mr_userId reaction) (mr_emoji reaction))
                   (default [] (m_reactions m)) with
           | Some _ => default [] (m_reactions m)
           | None => default [] (m_reactions m) ++
                       [{| r_emoji := mr_emoji reaction; r_userId := mr_userId reaction |}]
           end.
Proof.
  intros Hm Hs. unfold addReactionToMessage. rewrite Hm.
  set (P := sameReaction (mr_userId reaction) (mr_emoji reaction)).
  set (old := default [] (m_reactions m)).
  set (rs := match list_find P old with
             | Some _ => old
             | None => old ++ [{| r_emoji := mr_emoji reaction;
                                  r_userId := mr_userId reaction |}]
             end).
  exists rs. rewrite messageRow_updated by done. rewrite (selectMessage_row _ _ _ Hm). simpl.
  unfold selectPublic in *. simpl. rewrite Hs. split; [done|]. split; [|done].
  subst rs. destruct (list_find P old) as [p|] eqn:Hfind; [by rewrite Hfind|].
  eapply (list_find_elem_of P); [apply elem_of_app; right; apply list_elem_of_singleton; done|].
  by split.
Qed.

Lemma sameReaction_eq (userId : Z) (emoji : string) (r : Reaction) :
  sameReaction userId emoji r ↔ r = {| r_emoji := emoji; r_userId := userId |}.
Proof.
  unfold sameReaction. destruct r as [e u]. simpl. split.
  - intros [-> ->]. done.
  - intros [= -> ->]. done.
Qed.

Lemma find_reaction_None (userId : Z) (emoji : string) (rs : list Reaction) :
  list_find (sameReaction userId emoji) rs = None
  ↔ {| r_emoji := emoji; r_userId := userId |} ∉ rs.
Proof.
  rewrite list_find_None, Forall_forall. split.
  - intros H Hin. apply (H _ Hin). by apply sameReaction_eq.
  - intros H x Hx Hsame. apply sameReaction_eq in Hsame. by subst.
Qed.

(** C3. Adding the same reaction of the same user to an existing message
    twice: the first call writes the message it returns to the store,
    where a lookup finds it, and leaves every row with another id as
    it was; the second call returns the same message and leaves the
    store as the first call left it; the reaction occurs in the list,
    which is the old list when the reaction was already there and the
    old list with one more element otherwise. *)
Theorem addReactionToMessage_idempotent (d : Db) (messageId : Z)
  (reaction : MessageReaction) (m : Message) (sender : UserPublic) :
  selectMessage d messageId = Ok (Some m) →
  selectPublic d (m_senderId m) = Some sender →
  let r := {| r_emoji := mr_emoji reaction; r_userId := mr_userId reaction |} in
  let old := default [] (m_reactions m) in
  ∃ d1 m1 rs1,
    addReactionToMessage d messageId reaction = (d1, Ok (Some m1))
    ∧ addReactionToMessage d1 messageId reaction = (d1, Ok (Some m1))
    ∧ m_reactions (ms_message m1) = Some rs1
    ∧ r ∈ rs1
    ∧ (r ∈ old → rs1 = old)
    ∧ (r ∉ old → rs1 = old ++ [r] ∧ length rs1 = S (length old))
    ∧ selectMessage d1 messageId = Ok (Some (ms_message m1))
    ∧ ms_message m1 = set_reactions m rs1
    ∧ length (messages d1) = length (messages d)
    ∧ ∀ i row, m_id row ≠ messageId →
               messages d !! i = Some row ↔ messages d1 !! i = Some row.
Proof.
  intros Hm Hs r old.
  destruct (addReaction_first d messageId reaction m sender Hm Hs)
    as (rs & Hfirst & Hfound & Hrs).
  set (d1 := with_messages d
               ((λ x, if decide (m_id x = messageId) then set_reactions x rs else x)
                  <$> messages d) (next_message_id d)) in *.
  assert (Hm1 : selectMessage d1 messageId = Ok (Some (set_reactions m rs))).
  { unfold d1. rewrite selectMessage_updated by done. by rewrite Hm. }
  assert (Hs1 : selectPublic d1 (m_senderId (set_reactions m rs)) = Some sender).
  { exact Hs. }
  destruct (addReaction_first d1 messageId reaction _ sender Hm1 Hs1)
    as (rs' & Hsecond & _ & Hrs').
  simpl in Hrs'. destruct Hfound as [p Hp]. rewrite Hp in Hrs'. subst rs'.
  exists d1, {| ms_message := set_reactions m rs; ms_sender := sender |}, rs.
  split; [exact Hfirst|]. split.
  { rewrite Hsecond. f_equal.
    unfold d1, with_messages. simpl. f_equal.
    apply (fmap_update_twice m_id (λ x, set_reactions x rs)
             (λ x, set_reactions x rs)); done. }
  split; [done|].
  assert (Hin : r ∈ rs).
  { destruct p as [i x]. apply list_find_Some in Hp as (Hl & Hsame & _).
    apply sameReaction_eq in Hsame. subst x.
    by apply list_elem_of_lookup_2 in Hl. }
  split; [exact Hin|]. fold old in Hrs. fold r in Hrs.
  split; [|split; [|split; [exact Hm1|split; [done|split]]]].
  - intros Hold. destruct (list_find _ old) eqn:Hf; [done|].
    apply find_reaction_None in Hf. done.
  - intros Hold. apply find_reaction_None in Hold. rewrite Hold in Hrs.
    subst rs. split; [done|]. rewrite length_app. simpl. lia.
  - unfold d1. simpl. apply length_fmap.
  - intros i row Hne. unfold d1. simpl. by apply lookup_update_other.
Qed.

End Reactions.

(** ** Gateway: what one connection receives from a fan-out *)

Section Deliveries.
Import Schema Storage Gateway.

Lemma received_app (ws : Conn) (o1 o2 : list Delivery) :
  received ws (o1 ++ o2) = received ws o1 ++ received ws o2.
Proof. unfold received. by rewrite filter_app, fmap_app. Qed.

Lemma received_bind {A} (ws : Conn) (g : A → list Delivery) (l : list A) :
  received ws (l ≫= g) = l ≫= (λ x, received ws (g x)).
Proof.
  induction l as [|x l IH]; [done|].
  rewrite !bind_cons, received_app, IH. done.
Qed.

Lemma received_sendIfOpen (s : State) (ws : Conn) (id : Z) (e : Envelope) :
  received ws (sendIfOpen s id e)
  = if decide (clients s !! id = Some ws ∧ readyStateOf s !! ws = Some OPEN)
    then [e] else [].
Proof.
  unfold sendIfOpen, received.
  destruct (clients s !! id) as [client|] eqn:Hc.
  - destruct (decide (readyStateOf s !! client = Some OPEN)) as [Ho|Ho].
    + rewrite filter_cons. simpl. destruct (decide (client = ws)) as [->|Hne].
      * rewrite decide_True; done.
      * rewrite decide_False; [done|]. intros [[= ?] _]. done.
    + rewrite decide_False; [done|]. intros [[= ->] ?]. done.
  - rewrite decide_False; [done|]. intros [? _]. done.
Qed.

Lemma bind_all_nil {A B} (h : A → list B) (l : list A) :
  (∀ x, x ∈ l → h x = []) → l ≫= h = [].
Proof.
  induction l as [|x l IH]; intros H; [done|].
  rewrite bind_cons, (H x), IH; [done| |].
  - intros y Hy. apply H. by right.
  - by left.
Qed.

Lemma bind_single {A B} (h : A → list B) (l : list A) (p : A) (e : B) :
  NoDup l → p ∈ l → h p = [e] → (∀ x, x ∈ l → x ≠ p → h x = []) →
  l ≫= h = [e].
Proof.
  induction l as [|x l IH]; intros Hnd Hp Hhp Hother.
  - by apply elem_of_nil in Hp.
  - apply NoDup_cons in Hnd as [Hx Hnd]. rewrite bind_cons.
    apply elem_of_cons in Hp as [->|Hp].
    + rewrite Hhp, bind_all_nil; [done|].
      intros y Hy. apply Hother; [by right|]. intros ->. done.
    + rewrite (Hother x); [|by left|by intros ->]. simpl.
      apply IH; [done..|]. intros y Hy. apply Hother. by right.
Qed.

(** A registered, open connection that stands for exactly one of the
    recipients receives the envelope exactly once. *)
Lemma received_fanout_one (s : State) (ids : list Z) (e : Envelope)
  (skip : Z → bool) (p : Z) (cp : Conn) :
  NoDup ids → p ∈ ids → skip p = false →
  clients s !! p = Some cp → readyStateOf s !! cp = Some OPEN →
  (∀ q, q ∈ ids → skip q = false → clients s !! q = Some cp → q = p) →
  received cp (ids ≫= (λ id, if skip id then [] else sendIfOpen s id e)) = [e].
Proof.
  intros Hnd Hp Hskip Hc Ho Honly. rewrite received_bind.
  apply (bind_single _ _ p); [done..| |].
  - rewrite Hskip, received_sendIfOpen, decide_True; done.
  - intros q Hq Hne. destruct (skip q) eqn:Hsq; [done|].
    rewrite received_sendIfOpen, decide_False; [done|].
    intros [Hcq _]. apply Hne. by apply Honly.
Qed.

(** A connection that stands for none of the recipients receives nothing. *)
Lemma received_fanout_none (s : State) (ids : list Z) (e : Envelope)
  (skip : Z → bool) (ws : Conn) :
  (∀ q, q ∈ ids → skip q = false → clients s !! q ≠ Some ws) →
  received ws (ids ≫= (λ id, if skip id then [] else sendIfOpen s id e)) = [].
Proof.
  intros Hnone. rewrite received_bind. apply bind_all_nil. intros q Hq.
  destruct (skip q) eqn:Hsq; [done|].
  rewrite received_sendIfOpen, decide_False; [done|].
  intros [Hcq _]. by eapply Hnone.
Qed.

Lemma toMembers_ids (s : State) (members : list UserPublic) (e : Envelope) :
  toMembers s members e
  = (up_id <$> members) ≫= (λ id, if (λ _, false) id then [] else sendIfOpen s id e).
Proof.
  unfold toMembers. induction members as [|m l IH]; [done|].
  rewrite fmap_cons, !bind_cons, IH. done.
Qed.

End Deliveries.

(** ** Storage: who is a member of what *)

Section Membership.
Import Schema Storage.

Lemma head_filter_is_Some {A} (P : A → Prop) `{∀ x, Decision (P x)} (l : list A) :
  is_Some (head (filter P l)) ↔ ∃ x, x ∈ l ∧ P x.
Proof.
  split.
  - intros [x Hx]. exists x. by apply head_Some_elem_of, list_elem_of_filter in Hx as [? ?].
  - intros (x & Hx & HP).
    destruct (filter P l) as [|y l'] eqn:Hf; [|by eexists].
    assert (x ∈ filter P l) as Hin by by apply list_elem_of_filter.
    rewrite Hf in Hin. by apply elem_of_nil in Hin.
Qed.

Lemma selectPublic_is_Some (d : Db) (id : Z) :
  is_Some (selectPublic d id) ↔ id ∈ u_id <$> users d.
Proof.
  unfold selectPublic. rewrite fmap_is_Some, head_filter_is_Some, list_elem_of_fmap.
  split; intros (x & ? & ?); exists x; done.
Qed.

Lemma getUser_is_Some (d : Db) (id : Z) :
  is_Some (getUser d id) ↔ id ∈ u_id <$> users d.
Proof.
  unfold getUser. rewrite head_filter_is_Some, list_elem_of_fmap.
  split; intros (x & ? & ?); exists x; done.
Qed.

Lemma getConversationById_is_Some (d : Db) (id : Z) :
  is_Some (getConversationById d id) ↔ id ∈ c_id <$> conversations d.
Proof.
  unfold getConversationById. rewrite list_elem_of_fmap.
  destruct (head (filter (λ c, c_id c = id) (conversations d))) as [c|] eqn:Hc.
  - split; [|by eexists]. intros _.
    apply head_Some_elem_of, list_elem_of_filter in Hc as [? ?]. by exists c.
  - split; [by intros [? ?]|]. intros (row & Hid & Hin). exfalso.
    assert (is_Some (head (filter (λ c, c_id c = id) (conversations d)))) as [? ?].
    { apply head_filter_is_Some. by exists row. }
    congruence.
Qed.

(** The members of a conversation: the users named by its rows of
    [conversation_members], each once if user ids are unique. *)
Lemma getConversationById_member (d : Db) (id : Z) (conv : ConversationWithMembers) (p : Z) :
  getConversationById d id = Some conv →
  p ∈ up_id <$> cw_members conv
  ↔ p ∈ u_id <$> users d
    ∧ {| cm_conversationId := id; cm_userId := p |} ∈ conversationMembers d.
Proof.
  unfold getConversationById.
  destruct (head (filter (λ c, c_id c = id) (conversations d))); [|done].
  intros [= <-]. simpl. rewrite <- list_fmap_compose, !list_elem_of_fmap.
  split.
  - intros (u & -> & Hu). apply list_elem_of_filter in Hu as [Hmem Hu].
    split; [by exists u|].
    apply list_elem_of_fmap in Hmem as ([k q] & Hq & Hin).
    apply list_elem_of_filter in Hin as [Hk Hin]. simpl in *. by subst.
  - intros [(u & -> & Hu) Hrow]. exists u. split; [done|].
    apply list_elem_of_filter. split; [|done].
    apply list_elem_of_fmap. eexists. split; [|apply list_elem_of_filter; split; [|exact Hrow]]; done.
Qed.

(** The member list reads only [users], [conversations] and
    [conversation_members]. *)
Lemma getConversationById_members_agree (d d' : Db) (id : Z) :
  users d' = users d →
  conversations d' = conversations d →
  conversationMembers d' = conversationMembers d →
  cw_members <$> getConversationById d' id = cw_members <$> getConversationById d id.
Proof.
  intros Hu Hc Hm. unfold getConversationById. rewrite Hu, Hc, Hm.
  destruct (head (filter (λ c, c_id c = id) (conversations d))); done.
Qed.

End Membership.

(** ** Gateway: dispatch on the envelope type *)

Section Dispatch.
Import Schema Storage Gateway.
Context {toNumber : Js.StringToNumber}.

Lemma on_message_authenticate s ws payload :
  type payload = "authenticate" → on_message s ws payload = case_authenticate s ws payload.
Proof. intros H. unfold on_message. by rewrite H. Qed.

Lemma on_message_message s ws payload :
  type payload = "message" → on_message s ws payload = case_message s ws payload.
Proof. intros H. unfold on_message. by rewrite H. Qed.

Lemma on_message_typing s ws payload :
  type payload = "typing" → on_message s ws payload = case_typing s ws payload.
Proof. intros H. unfold on_message. by rewrite H. Qed.

Lemma on_message_edit_message s ws payload :
  type payload = "edit_message" → on_message s ws payload = case_edit_message s ws payload.
Proof. intros H. unfold on_message. by rewrite H. Qed.

Lemma on_message_add_reaction s ws payload :
  type payload = "add_reaction" → on_message s ws payload = case_add_reaction s ws payload.
Proof. intros H. unfold on_message. by rewrite H. Qed.

Lemma on_message_remove_reaction s ws payload :
  type payload = "remove_reaction" →
  on_message s ws payload = case_remove_reaction s ws payload.
Proof. intros H. unfold on_message. by rewrite H. Qed.

(** The conversion of strings is consulted only for an [authenticate]
    envelope whose [message] is a string. *)
Lemma conversion_only_for_strings (other : Js.StringToNumber) (s : State) (ws : Conn)
  (payload : MessagePayload) :
  (type payload = "authenticate" → ∀ text, message payload ≠ Js.AString text) →
  on_message s ws payload = @on_message other s ws payload.
Proof.
  intros Hpayload. unfold on_message.
  destruct (decide (type payload = "authenticate")) as [Ht|]; [|done].
  unfold case_authenticate. specialize (Hpayload Ht).
  destruct (message payload) as [|z|text]; [done..|]. by destruct (Hpayload text).
Qed.

Lemma with_storage_same (s : State) : with_storage s (storage s) = s.
Proof. by destruct s. Qed.

Lemma nonzero_eqb (z : Z) : z ≠ 0 → negb (z =? 0) = true.
Proof. intros H. apply negb_true_iff, Z.eqb_neq. exact H. Qed.

Lemma createMessage_ok (d : Db) (data : InsertMessage) :
  im_conversationId data ∈ c_id <$> conversations d →
  im_senderId data ∈ u_id <$> users d →
  ∃ saved,
    createMessage d data
    = (with_messages d (messages d ++ [ms_message saved]) (next_message_id d + 1),
       Ok saved)
    ∧ m_conversationId (ms_message saved) = im_conversationId data
    ∧ m_senderId (ms_message saved) = im_senderId data
    ∧ m_content (ms_message saved) = im_content data
    ∧ m_attachments (ms_message saved) = im_attachments data
    ∧ up_id (ms_sender saved) = im_senderId data.
Proof.
  intros Hc Hu. unfold createMessage. rewrite bool_decide_eq_true_2 by done.
  destruct (proj2 (selectPublic_is_Some d (im_senderId data)) Hu) as [sender Hs].
  unfold selectPublic in *. simpl. rewrite Hs.
  eexists (Build_MessageWithSender _ sender). simpl.
  split; [reflexivity|]. simpl. repeat split.
  apply fmap_Some in Hs as (u & Hu' & ->).
  apply head_Some_elem_of, list_elem_of_filter in Hu' as [? ?]. done.
Qed.

End Dispatch.

(** ** Fan-out of a new message *)

Section Fanout.
Import Schema Storage Gateway Claims.
Context {toNumber : Js.StringToNumber}.

(** C1, as amended. In a conversation whose members [a], [b], [c] are
    all reachable, a [message] envelope from [a] is persisted and then
    delivered exactly once to each of the three connections, the
    sender's included, as a [new_message] that carries the persisted
    record; no other connection receives anything. *)
Theorem new_message_reaches_every_member s ws payload cid a b c ca cb cc :
  FanoutScene s ws payload cid a b c ca cb cc →
  ∃ d saved,
    createMessage (storage s) (messageData a cid payload) = (d, Ok saved)
    ∧ storage (on_message s ws payload).1 = d
    ∧ ms_message saved ∈ messages d
    ∧ received ca (on_message s ws payload).2 = [new_message cid saved]
    ∧ received cb (on_message s ws payload).2 = [new_message cid saved]
    ∧ received cc (on_message s ws payload).2 = [new_message cid saved]
    ∧ ∀ x, x ∉ [ca; cb; cc] → received x (on_message s ws payload).2 = [].
Proof.
  intros [Ht Hcid Hnz Htruthy Hws Ha (conv & Hconv & Hperm) Hnd Hca Hcb Hcc Hconns Hoa Hob Hoc].
  assert (Hin : ∀ x, x ∈ up_id <$> cw_members conv ↔ x ∈ [a; b; c]).
  { intros x. by rewrite Hperm. }
  assert (Hconv_in : cid ∈ c_id <$> conversations (storage s)).
  { apply getConversationById_is_Some. by eexists. }
  assert (Ha_in : a ∈ u_id <$> users (storage s)).
  { eapply (getConversationById_member _ _ _ a Hconv). apply Hin. by left. }
  destruct (createMessage_ok (storage s) (messageData a cid payload) Hconv_in Ha_in)
    as (saved & Hcreate & _).
  set (d := with_messages (storage s) (messages (storage s) ++ [ms_message saved])
              (next_message_id (storage s) + 1)) in *.
  assert (Hconv' : ∃ conv', getConversationById d cid = Some conv'
                            ∧ cw_members conv' = cw_members conv).
  { pose proof (getConversationById_members_agree (storage s) d cid eq_refl eq_refl eq_refl) as H.
    rewrite Hconv in H. simpl in H.
    destruct (getConversationById d cid) as [conv'|]; [|done].
    exists conv'. split; [done|]. by injection H. }
  destruct Hconv' as (conv' & Hconv' & Hmem).
  assert (Hrun : on_message s ws payload
                 = (with_storage s d,
                    toMembers (with_storage s d) (cw_members conv)
                      (new_message cid saved))).
  { rewrite on_message_message by done. unfold case_message.
    rewrite Hws, (nonzero_eqb a Ha), Hcid, (nonzero_eqb cid Hnz), Htruthy. simpl.
    rewrite Hcreate. simpl.
    rewrite Hconv', Hmem. done. }
  exists d, saved. rewrite Hrun. simpl.
  split; [done|]. split; [done|].
  split; [unfold d; simpl; apply elem_of_app; right; by left|].
  rewrite toMembers_ids.
  assert (Hnd' : NoDup (up_id <$> cw_members conv)) by by rewrite Hperm.
  assert (Hne : ca ≠ cb ∧ ca ≠ cc ∧ cb ≠ cc).
  { apply NoDup_cons in Hconns as [Hca_notin Hconns].
    apply NoDup_cons in Hconns as [Hcb_notin _].
    rewrite !elem_of_cons, elem_of_nil in Hca_notin.
    rewrite !elem_of_cons, elem_of_nil in Hcb_notin. tauto. }
  destruct Hne as (Hab & Hac & Hbc).
  assert (Hlook : ∀ q, q ∈ up_id <$> cw_members conv →
                       clients s !! q = Some ca ∧ q = a
                       ∨ clients s !! q = Some cb ∧ q = b
                       ∨ clients s !! q = Some cc ∧ q = c).
  { intros q Hq. apply Hin in Hq.
    rewrite !elem_of_cons, elem_of_nil in Hq.
    destruct Hq as [->| [->| [->| []]]]; [left|right; left|right; right]; done. }
  assert (Hmember : a ∈ up_id <$> cw_members conv
                    ∧ b ∈ up_id <$> cw_members conv
                    ∧ c ∈ up_id <$> cw_members conv).
  { rewrite !Hin, !elem_of_cons. tauto. }
  destruct Hmember as (Hma & Hmb & Hmc).
  repeat split.
  - apply (received_fanout_one (with_storage s d) _ _ (λ _, false) a); [done..|].
    intros q Hq _ Hqc. simpl in Hqc.
    destruct (Hlook q Hq) as [[? ?]|[[? ?]|[? ?]]]; [done|congruence..].
  - apply (received_fanout_one (with_storage s d) _ _ (λ _, false) b); [done..|].
    intros q Hq _ Hqc. simpl in Hqc.
    destruct (Hlook q Hq) as [[? ?]|[[? ?]|[? ?]]]; [congruence|done|congruence].
  - apply (received_fanout_one (with_storage s d) _ _ (λ _, false) c); [done..|].
    intros q Hq _ Hqc. simpl in Hqc.
    destruct (Hlook q Hq) as [[? ?]|[[? ?]|[? ?]]]; [congruence..|done].
  - intros x Hx. apply (received_fanout_none (with_storage s d) _ _ (λ _, false)).
    intros q Hq _ Hqc. simpl in Hqc.
    rewrite !elem_of_cons, elem_of_nil in Hx.
    destruct (Hlook q Hq) as [[? ?]|[[? ?]|[? ?]]];
      apply Hx; [left|right; left|right; right; left]; congruence.
Qed.

End Fanout.

(** ** The registry across authentication and close *)

Section Registry.
Import Schema Storage Gateway Claims.
Context {toNumber : Js.StringToNumber}.

Lemma run_cons_state (s : State) (ev : Event) (evs : list Event) :
  (run s (ev :: evs)).1 = (run (step s ev).1 evs).1.
Proof.
  simpl. destruct (step s ev) as [s1 o1]. simpl.
  destruct (run s1 evs) as [s2 o2]. done.
Qed.

Lemma run_cons_out (s : State) (ev : Event) (evs : list Event) :
  (run s (ev :: evs)).2 = (step s ev).2 ++ (run (step s ev).1 evs).2.
Proof.
  simpl. destruct (step s ev) as [s1 o1]. simpl.
  destruct (run s1 evs) as [s2 o2]. done.
Qed.

Lemma authenticate_state (s : State) (ws : Conn) (payload : MessagePayload) (u : Z) :
  type payload = "authenticate" →
  Js.Number (message payload) = Js.Num u →
  clients (on_message s ws payload).1 = <[u := ws]> (clients s)
  ∧ userIdOf (on_message s ws payload).1 = <[ws := Js.Num u]> (userIdOf s)
  ∧ readyStateOf (on_message s ws payload).1 = readyStateOf s
  ∧ storage (on_message s ws payload).1
    = (updateUserOnlineStatus (storage s) u true).1.
Proof.
  intros Ht Hn. rewrite on_message_authenticate by done.
  unfold case_authenticate. rewrite Hn. done.
Qed.

Lemma close_state (s : State) (ws : Conn) (u : Z) :
  userIdOf s !! ws = Some (Js.Num u) → u ≠ 0 →
  clients (on_close s ws).1 = delete u (clients s)
  ∧ userIdOf (on_close s ws).1 = userIdOf s
  ∧ readyStateOf (on_close s ws).1 = <[ws := CLOSED]> (readyStateOf s)
  ∧ storage (on_close s ws).1 = (updateUserOnlineStatus (storage s) u false).1.
Proof.
  intros Hu Hnz. unfold on_close. simpl. rewrite Hu, (nonzero_eqb u Hnz). done.
Qed.

(** C2, as amended. When connection [c1] and then connection [c2]
    authenticate as the same user and [c1] closes, the close removes the
    registry entry of that user although it holds [c2]: the user is
    left without an entry and a fan-out addressed to the user reaches
    no connection. *)
Theorem close_evicts_newer_connection (s : State) (c1 c2 : Conn) (u : Z) :
  u ≠ 0 →
  let s3 := (run s [ Inbound c1 (authenticate (Js.ANumber u));
                     Inbound c2 (authenticate (Js.ANumber u));
                     Close c1 ]).1 in
  clients s3 !! u = None ∧ ∀ e, sendIfOpen s3 u e = [].
Proof.
  intros Hnz s3.
  assert (Hc : clients s3 !! u = None).
  { unfold s3. rewrite !run_cons_state. cbn [run step fst].
    set (s1 := (on_message s c1 (authenticate (Js.ANumber u))).1).
    set (s2 := (on_message s1 c2 (authenticate (Js.ANumber u))).1).
    destruct (authenticate_state s c1 (authenticate (Js.ANumber u)) u eq_refl eq_refl)
      as (_ & Hu1 & _).
    destruct (authenticate_state s1 c2 (authenticate (Js.ANumber u)) u eq_refl eq_refl)
      as (_ & Hu2 & _).
    fold s1 in Hu1. fold s2 in Hu2.
    assert (Hvar : userIdOf s2 !! c1 = Some (Js.Num u)).
    { rewrite Hu2, Hu1. destruct (decide (c2 = c1)) as [->|Hne].
      - by rewrite lookup_insert_eq.
      - rewrite lookup_insert_ne by done. by rewrite lookup_insert_eq. }
    destruct (close_state s2 c1 u Hvar Hnz) as (Hcl & _).
    rewrite Hcl. apply lookup_delete_eq. }
  split; [exact Hc|]. intros e. unfold sendIfOpen. by rewrite Hc.
Qed.

End Registry.

(** ** Rejected envelopes *)

Section Rejection.
Import Schema Storage Gateway Claims.
Context {toNumber : Js.StringToNumber}.

Lemma guard3_falsy_user (s : State) (ws : Conn) (id : option Z) (text : option string) :
  Js.truthy_opt_number (userIdOf s !! ws) = false → guard3 s ws id text = None.
Proof.
  unfold guard3. destruct (userIdOf s !! ws) as [[|u]|]; simpl; try done.
  intros Hu. destruct id, text; try done. by rewrite Hu.
Qed.

Lemma guard3_falsy_text (s : State) (ws : Conn) (id : option Z) (text : option string) :
  Js.truthy_opt_string text = false → guard3 s ws id text = None.
Proof.
  unfold guard3. destruct (userIdOf s !! ws) as [[|u]|]; try done.
  destruct id, text; simpl; try done. intros ->. by rewrite andb_false_r.
Qed.

Lemma guard3_Some (s : State) (ws : Conn) (id : option Z) (text : option string) r :
  guard3 s ws id text = Some r → ∃ u i t, r = (u, i, t) ∧ id = Some i ∧ text = Some t.
Proof.
  unfold guard3. destruct (userIdOf s !! ws) as [[|u]|]; try done.
  destruct id as [i|], text as [t|]; try done.
  destruct (_ && _); [|done]. intros [= <-]. by exists u, i, t.
Qed.

Lemma case_message_falsy_user (s : State) (ws : Conn) (payload : MessagePayload) :
  Js.truthy_opt_number (userIdOf s !! ws) = false →
  case_message s ws payload = (s, [(ws, error "Not authenticated")]).
Proof.
  unfold case_message. destruct (userIdOf s !! ws) as [[|u]|]; simpl; try done.
  by intros ->.
Qed.

Lemma case_typing_falsy_user (s : State) (ws : Conn) (payload : MessagePayload) :
  Js.truthy_opt_number (userIdOf s !! ws) = false →
  case_typing s ws payload = (s, []).
Proof.
  unfold case_typing. destruct (userIdOf s !! ws) as [[|u]|]; simpl; try done.
  intros ->. by destruct (conversationId payload).
Qed.

Lemma case_message_empty (s : State) (ws : Conn) (payload : MessagePayload) :
  Js.truthy_any (message payload) = false →
  ∃ text, case_message s ws payload = (s, [(ws, error text)])
          ∧ text ∈ ["Not authenticated"; "Invalid message format"].
Proof.
  intros He. unfold case_message.
  destruct (userIdOf s !! ws) as [[|u]|];
    try (eexists; split; [reflexivity|]; apply elem_of_cons; by left).
  destruct (negb (u =? 0));
    [|eexists; split; [reflexivity|]; apply elem_of_cons; by left].
  exists "Invalid message format". split; [|apply elem_of_cons; right; apply elem_of_cons; by left].
  destruct (conversationId payload); [|done]. by rewrite He, andb_false_r.
Qed.

Lemma updateMessage_missing (d : Db) (id : Z) (text : string) :
  selectMessage d id = Ok None → updateMessage d id text = (d, Ok None).
Proof. intros Hnone. unfold updateMessage. by rewrite Hnone. Qed.

Lemma addReactionToMessage_missing (d : Db) (id : Z) (r : MessageReaction) :
  selectMessage d id = Ok None → addReactionToMessage d id r = (d, Ok None).
Proof. intros Hnone. unfold addReactionToMessage. by rewrite Hnone. Qed.

Lemma removeReactionFromMessage_missing (d : Db) (id u : Z) (e : string) :
  selectMessage d id = Ok None → removeReactionFromMessage d id u e = (d, Ok None).
Proof. intros Hnone. unfold removeReactionFromMessage. by rewrite Hnone. Qed.

Lemma updateMessage_raises (d : Db) (id : Z) (text : string) :
  ¬ int4 id → updateMessage d id text = (d, Throw out_of_range).
Proof. intros Hk. unfold updateMessage. by rewrite selectMessage_Throw. Qed.

Lemma addReactionToMessage_raises (d : Db) (id : Z) (r : MessageReaction) :
  ¬ int4 id → addReactionToMessage d id r = (d, Throw out_of_range).
Proof. intros Hk. unfold addReactionToMessage. by rewrite selectMessage_Throw. Qed.

Lemma removeReactionFromMessage_raises (d : Db) (id u : Z) (e : string) :
  ¬ int4 id → removeReactionFromMessage d id u e = (d, Throw out_of_range).
Proof. intros Hk. unfold removeReactionFromMessage. by rewrite selectMessage_Throw. Qed.

End Rejection.

Section RejectionTheorems.
Import Schema Storage Gateway Claims.
Context {toNumber : Js.StringToNumber}.

(** C4. What the gateway does with an attachments-only message: a
    [message] envelope whose text is the empty string is answered with
    the error [Invalid message format] and nothing is persisted or
    delivered, whatever its attachments are. *)
Theorem attachments_only_message_rejected (s : State) (ws : Conn) (user cid : Z)
  (atts : option (list Attachment)) :
  userIdOf s !! ws = Some (Js.Num user) → user ≠ 0 →
  on_message s ws (send_message cid "" atts)
  = (s, [(ws, error "Invalid message format")]).
Proof.
  intros Hu Hnz. rewrite on_message_message by done.
  unfold case_message. rewrite Hu, (nonzero_eqb user Hnz). simpl.
  by rewrite andb_false_r.
Qed.

(** C8, as amended. On a connection that has not authenticated, a
    [message], [edit_message], [add_reaction] or [remove_reaction]
    envelope is answered with one [error] envelope on that connection,
    and a [typing] envelope is dropped without any reply; in all five
    cases the state, the store included, is unchanged and no other
    connection receives anything. *)
Theorem unauthenticated_action_dropped (s : State) (ws : Conn)
  (payload : MessagePayload) :
  userIdOf s !! ws = None →
  (type payload ∈ ["message"; "edit_message"; "add_reaction"; "remove_reaction"] →
   ∃ text, on_message s ws payload = (s, [(ws, error text)]))
  ∧ (type payload = "typing" → on_message s ws payload = (s, [])).
Proof.
  intros Hu.
  assert (Hf : Js.truthy_opt_number (userIdOf s !! ws) = false) by by rewrite Hu.
  split.
  - rewrite !elem_of_cons, elem_of_nil. intros [Ht|[Ht|[Ht|[Ht|[]]]]].
    + rewrite on_message_message, case_message_falsy_user by done. by eexists.
    + rewrite on_message_edit_message by done. unfold case_edit_message.
      rewrite guard3_falsy_user by done. by eexists.
    + rewrite on_message_add_reaction by done. unfold case_add_reaction.
      rewrite guard3_falsy_user by done. by eexists.
    + rewrite on_message_remove_reaction by done. unfold case_remove_reaction.
      rewrite guard3_falsy_user by done. by eexists.
  - intros Ht. by rewrite on_message_typing, case_typing_falsy_user.
Qed.

(** A well-formed [message] envelope for a conversation that does not
    exist: the store refuses the insert, the exception is caught, and no
    envelope is sent. *)
Lemma missing_conversation_dropped (s : State) (ws : Conn) (payload : MessagePayload) :
  Js.truthy_opt_number (userIdOf s !! ws) = true →
  ConversationNotFound (storage s) payload →
  on_message s ws payload = (s, []).
Proof.
  intros Hu (Ht & Htruthy & id & Hid & Hnz & Hnone).
  rewrite on_message_message by done. unfold case_message.
  destruct (userIdOf s !! ws) as [[|u]|]; simpl in Hu; try done.
  rewrite Hu, Hid, (nonzero_eqb id Hnz), Htruthy. simpl.
  unfold createMessage. simpl.
  rewrite bool_decide_eq_false_2 by (intros [? _]; done).
  by rewrite with_storage_same.
Qed.

(** An [edit_message], [add_reaction] or [remove_reaction] envelope
    that passes the guard and names a message id outside the range of
    the id column: the store raises, the exception is caught, and no
    envelope is sent. *)
Lemma out_of_range_message_dropped (s : State) (ws : Conn) (payload : MessagePayload)
  (user id : Z) (text : string) :
  userIdOf s !! ws = Some (Js.Num user) → user ≠ 0 →
  messageId payload = Some id → ¬ int4 id →
  Js.truthy_string text = true →
  (type payload = "edit_message" ∧ content payload = Some text)
  ∨ (type payload ∈ ["add_reaction"; "remove_reaction"] ∧ emoji payload = Some text) →
  on_message s ws payload = (s, []).
Proof.
  intros Hu Hnz Hid Hk Htext Hcase.
  assert (Hz : id ≠ 0) by (intros ->; apply Hk; unfold int4; lia).
  assert (Hg : guard3 s ws (Some id) (Some text) = Some (user, id, text)).
  { unfold guard3. by rewrite Hu, (nonzero_eqb user Hnz), (nonzero_eqb id Hz), Htext. }
  destruct Hcase as [[Ht Hc]|[Ht Hc]].
  - rewrite on_message_edit_message by done. unfold case_edit_message.
    rewrite Hid, Hc, Hg, updateMessage_raises by done. by rewrite with_storage_same.
  - rewrite !elem_of_cons, elem_of_nil in Ht. destruct Ht as [Ht|[Ht|[]]].
    + rewrite on_message_add_reaction by done. unfold case_add_reaction.
      rewrite Hid, Hc, Hg, addReactionToMessage_raises by done.
      by rewrite with_storage_same.
    + rewrite on_message_remove_reaction by done. unfold case_remove_reaction.
      rewrite Hid, Hc, Hg, removeReactionFromMessage_raises by done.
      by rewrite with_storage_same.
Qed.

(** C9, as amended. Empty content, a missing emoji and a message that
    the store looks up and does not find (its id lies within the range
    of the id column) are each answered with exactly one [error]
    envelope, sent to the originating connection only, and leave the
    state, the store included, unchanged. *)
Theorem detected_failure_rejected (s : State) (ws : Conn)
  (payload : MessagePayload) :
  DetectedFailure (storage s) payload →
  ∃ text, on_message s ws payload = (s, [(ws, error text)]).
Proof.
  intros [Ht He|Ht He|Ht He|id Ht Hid Hnone].
  - rewrite on_message_message by done.
    destruct (case_message_empty s ws payload He) as (text & -> & _). by eexists.
  - rewrite on_message_edit_message by done. unfold case_edit_message.
    rewrite guard3_falsy_text by done. by eexists.
  - rewrite !elem_of_cons, elem_of_nil in Ht. destruct Ht as [Ht|[Ht|[]]].
    + rewrite on_message_add_reaction by done. unfold case_add_reaction.
      rewrite guard3_falsy_text by done. by eexists.
    + rewrite on_message_remove_reaction by done. unfold case_remove_reaction.
      rewrite guard3_falsy_text by done. by eexists.
  - rewrite !elem_of_cons, elem_of_nil in Ht. destruct Ht as [Ht|[Ht|[Ht|[]]]].
    + rewrite on_message_edit_message by done. unfold case_edit_message.
      destruct (guard3 s ws (messageId payload) (content payload))
        as [r|] eqn:Hg; [|by eexists].
      apply guard3_Some in Hg as (u & i & t & -> & Hi & _).
      rewrite Hid in Hi. injection Hi as <-.
      rewrite updateMessage_missing, with_storage_same by done. by eexists.
    + rewrite on_message_add_reaction by done. unfold case_add_reaction.
      destruct (guard3 s ws (messageId payload) (emoji payload))
        as [r|] eqn:Hg; [|by eexists].
      apply guard3_Some in Hg as (u & i & t & -> & Hi & _).
      rewrite Hid in Hi. injection Hi as <-.
      rewrite addReactionToMessage_missing, with_storage_same by done. by eexists.
    + rewrite on_message_remove_reaction by done. unfold case_remove_reaction.
      destruct (guard3 s ws (messageId payload) (emoji payload))
        as [r|] eqn:Hg; [|by eexists].
      apply guard3_Some in Hg as (u & i & t & -> & Hi & _).
      rewrite Hid in Hi. injection Hi as <-.
      rewrite removeReactionFromMessage_missing, with_storage_same by done.
      by eexists.
Qed.

(** C10. After [authenticate] with the user id [0] the connection is
    the registry entry of key [0] and every user row with id [0] is
    online, and the connection's user id is the number [0]; on any
    connection in that condition every [message], [edit_message],
    [add_reaction] and [remove_reaction] envelope is answered with one
    [error] envelope, [Not authenticated] or one of the invalid-format
    texts, and changes nothing. *)
Theorem user_zero_locked_out (s : State) (ws : Conn) :
  let s1 := (on_message s ws (authenticate (Js.ANumber 0))).1 in
  clients s1 !! 0 = Some ws
  ∧ (∀ row, row ∈ users (storage s1) → u_id row = 0 → u_isOnline row = true)
  ∧ userIdOf s1 !! ws = Some (Js.Num 0)
  ∧ ∀ s' payload,
      userIdOf s' !! ws = Some (Js.Num 0) →
      type payload ∈ ["message"; "edit_message"; "add_reaction"; "remove_reaction"] →
      ∃ text,
        on_message s' ws payload = (s', [(ws, error text)])
        ∧ text ∈ ["Not authenticated"; "Invalid message edit format";
                  "Invalid reaction format"; "Invalid reaction removal format"].
Proof.
  intros s1.
  destruct (authenticate_state s ws (authenticate (Js.ANumber 0)) 0 eq_refl eq_refl)
    as (Hc & Hu & _ & Hd).
  fold s1 in Hc, Hu, Hd. split; [by rewrite Hc, lookup_insert_eq|].
  split.
  { rewrite Hd. simpl. intros row Hrow Hid.
    apply list_elem_of_fmap in Hrow as (u0 & -> & _).
    destruct (decide (u_id u0 = 0)); [done|]. done. }
  split; [by rewrite Hu, lookup_insert_eq|].
  intros s' payload Hvar Ht.
  assert (Hf : Js.truthy_opt_number (userIdOf s' !! ws) = false) by by rewrite Hvar.
  rewrite !elem_of_cons, elem_of_nil in Ht. destruct Ht as [Ht|[Ht|[Ht|[Ht|[]]]]].
  - rewrite on_message_message, case_message_falsy_user by done.
    eexists; split; [done|]. rewrite !elem_of_cons. auto.
  - rewrite on_message_edit_message by done. unfold case_edit_message.
    rewrite guard3_falsy_user by done.
    eexists; split; [done|]. rewrite !elem_of_cons. auto.
  - rewrite on_message_add_reaction by done. unfold case_add_reaction.
    rewrite guard3_falsy_user by done.
    eexists; split; [done|]. rewrite !elem_of_cons. auto.
  - rewrite on_message_remove_reaction by done. unfold case_remove_reaction.
    rewrite guard3_falsy_user by done.
    eexists; split; [done|]. rewrite !elem_of_cons. auto 6.
Qed.

End RejectionTheorems.

(** ** Presence: who hears about a status change *)

Section Presence.
Import Schema Storage Gateway Claims.

Lemma setAdd_elem (x y : Z) (set : list Z) : y ∈ setAdd x set ↔ y = x ∨ y ∈ set.
Proof.
  unfold setAdd. destruct (decide (x ∈ set)) as [Hin|Hin].
  - split; [by right|]. intros [->|?]; done.
  - rewrite elem_of_app, list_elem_of_singleton. tauto.
Qed.

Lemma setAdd_NoDup (x : Z) (set : list Z) : NoDup set → NoDup (setAdd x set).
Proof.
  intros Hnd. unfold setAdd. destruct (decide (x ∈ set)) as [Hin|Hin]; [done|].
  apply NoDup_app. split; [done|]. split.
  - intros y Hy Hy'. apply list_elem_of_singleton in Hy'. by subst.
  - apply NoDup_singleton.
Qed.

Lemma add_members_spec (members : list UserPublic) (set : list Z) :
  let set' := foldl (λ set member, setAdd (up_id member) set) set members in
  (NoDup set → NoDup set')
  ∧ ∀ y, y ∈ set' ↔ y ∈ set ∨ y ∈ up_id <$> members.
Proof.
  revert set. induction members as [|m l IH]; intros set; simpl.
  - split; [done|]. intros y. rewrite elem_of_nil. tauto.
  - destruct (IH (setAdd (up_id m) set)) as [Hnd Hel]. split.
    + intros H. apply Hnd. by apply setAdd_NoDup.
    + intros y. rewrite Hel, setAdd_elem, elem_of_cons. tauto.
Qed.

Lemma add_conversations_spec (convs : list ConversationWithMembers) (set : list Z) :
  let set' :=
    foldl (λ set conv,
             foldl (λ set member, setAdd (up_id member) set) set (cw_members conv))
          set convs in
  (NoDup set → NoDup set')
  ∧ ∀ y, y ∈ set' ↔ y ∈ set ∨ ∃ conv, conv ∈ convs ∧ y ∈ up_id <$> cw_members conv.
Proof.
  revert set. induction convs as [|c l IH]; intros set; simpl.
  - split; [done|]. intros y. split; [by left|]. intros [?|(? & H & _)]; [done|].
    by apply elem_of_nil in H.
  - destruct (add_members_spec (cw_members c) set) as [Hnd1 Hel1]. simpl in *.
    destruct (IH (foldl (λ set member, setAdd (up_id member) set) set (cw_members c)))
      as [Hnd Hel]. split.
    + intros H. by apply Hnd, Hnd1.
    + intros y. rewrite Hel, Hel1. split.
      * intros [[?|?]|(conv & ? & ?)]; [by left|right..].
        -- exists c. split; [by left|done].
        -- exists conv. split; [by right|done].
      * intros [?|(conv & Hc & ?)]; [by left; left|].
        apply elem_of_cons in Hc as [->|Hc]; [by left; right|].
        right. by exists conv.
Qed.

Lemma uniqueMembers_spec (convs : list ConversationWithMembers) :
  NoDup (uniqueMembers convs)
  ∧ ∀ y, y ∈ uniqueMembers convs
         ↔ ∃ conv, conv ∈ convs ∧ y ∈ up_id <$> cw_members conv.
Proof.
  destruct (add_conversations_spec convs []) as [Hnd Hel]. split.
  - apply Hnd, NoDup_nil_2.
  - intros y. unfold uniqueMembers. rewrite Hel, elem_of_nil. tauto.
Qed.

Lemma insertByDate_elem (d : Db) (a x : ConversationWithMembers)
  (l : list ConversationWithMembers) :
  x ∈ insertByDate d a l ↔ x = a ∨ x ∈ l.
Proof.
  induction l as [|b l IH]; simpl.
  - by rewrite list_elem_of_singleton, elem_of_nil; tauto.
  - destruct (sortDate d b <=? sortDate d a).
    + by rewrite elem_of_cons.
    + rewrite !elem_of_cons, IH. tauto.
Qed.

Lemma sortByDate_elem (d : Db) (x : ConversationWithMembers)
  (l : list ConversationWithMembers) :
  x ∈ sortByDate d l ↔ x ∈ l.
Proof.
  unfold sortByDate. induction l as [|a l IH]; simpl; [done|].
  by rewrite insertByDate_elem, IH, elem_of_cons.
Qed.

Lemma getConversationsForUser_elem (d : Db) (u : Z) (conv : ConversationWithMembers) :
  conv ∈ getConversationsForUser d u
  ↔ ∃ id, {| cm_conversationId := id; cm_userId := u |} ∈ conversationMembers d
          ∧ getConversationById d id = Some conv.
Proof.
  unfold getConversationsForUser. rewrite sortByDate_elem, list_elem_of_omap.
  split.
  - intros (id & Hid & Hconv). exists id. split; [|done].
    apply list_elem_of_fmap in Hid as ([k q] & -> & Hrow).
    apply list_elem_of_filter in Hrow as [Hq Hrow]. simpl in *. by subst.
  - intros (id & Hrow & Hconv). exists id. split; [|done].
    apply list_elem_of_fmap. eexists. split; [|apply list_elem_of_filter; split; [|exact Hrow]]; done.
Qed.

(** The recipients of a status change of [u] are the users who share a
    conversation with [u]. *)
Lemma interested_spec (d : Db) (u p : Z) :
  p ∈ uniqueMembers (getConversationsForUser d u) ↔ sharesConversation d u p.
Proof.
  destruct (uniqueMembers_spec (getConversationsForUser d u)) as [_ Hel].
  rewrite Hel. unfold sharesConversation. split.
  - intros (conv & Hconv & Hp).
    apply getConversationsForUser_elem in Hconv as (id & Hrow & Hconv).
    exists id. split; [apply getConversationById_is_Some; by eexists|].
    split; [done|].
    apply (getConversationById_member d id conv p Hconv) in Hp as [? ?]. done.
  - intros (id & Hid & Hu & Hp & Huser).
    apply getConversationById_is_Some in Hid as [conv Hconv].
    exists conv. split; [apply getConversationsForUser_elem; by exists id|].
    by apply (getConversationById_member d id conv p Hconv).
Qed.

Lemma updateUserOnlineStatus_ids (d : Db) (u : Z) (b : bool) :
  u_id <$> users (updateUserOnlineStatus d u b).1 = u_id <$> users d.
Proof.
  simpl. rewrite <- list_fmap_compose. apply list_fmap_ext.
  intros i x _. simpl. by destruct (decide (u_id x = u)).
Qed.

Lemma sharesConversation_updateUserOnlineStatus (d : Db) (v : Z) (b : bool) (u p : Z) :
  sharesConversation (updateUserOnlineStatus d v b).1 u p ↔ sharesConversation d u p.
Proof.
  unfold sharesConversation. rewrite updateUserOnlineStatus_ids. done.
Qed.

Lemma broadcastUserStatus_received (s : State) (u p : Z) (cp : Conn) (b : bool) :
  PresenceScene s u p cp →
  received cp (broadcastUserStatus s u b) = [user_status u b].
Proof.
  intros [Huser Hshares Hne Hreg Hopen Halone].
  unfold broadcastUserStatus.
  destruct (proj2 (getUser_is_Some (storage s) u) Huser) as [row ->].
  destruct (uniqueMembers_spec (getConversationsForUser (storage s) u)) as [Hnd _].
  assert (Hext : ∀ id,
             (if decide (id ≠ u) then sendIfOpen s id (user_status u b) else [])
             = (if bool_decide (id = u) then []
                else sendIfOpen s id (user_status u b))).
  { intros id. destruct (decide (id ≠ u)) as [Hd|Hd].
    - by rewrite bool_decide_eq_false_2.
    - rewrite bool_decide_eq_true_2; [done|]. by destruct (decide (id = u)). }
  rewrite (list_bind_ext _ _ _ _ Hext eq_refl).
  apply (received_fanout_one s _ _ (λ id, bool_decide (id = u)) p); try done.
  - by apply interested_spec.
  - by apply bool_decide_eq_false_2.
  - intros q _ Hq. apply Halone. by apply bool_decide_eq_false_1 in Hq.
Qed.

End Presence.

Section PresenceEvents.
Import Schema Storage Gateway Claims.
Context {toNumber : Js.StringToNumber}.

Lemma authenticate_out (s : State) (ws : Conn) (u : Z) :
  (on_message s ws (authenticate (Js.ANumber u))).2
  = broadcastUserStatus (on_message s ws (authenticate (Js.ANumber u))).1 u true.
Proof. by rewrite on_message_authenticate. Qed.

Lemma close_out (s : State) (ws : Conn) (u : Z) :
  userIdOf s !! ws = Some (Js.Num u) → u ≠ 0 →
  (on_close s ws).2 = broadcastUserStatus (on_close s ws).1 u false.
Proof.
  intros Hu Hnz. unfold on_close. simpl. by rewrite Hu, (nonzero_eqb u Hnz).
Qed.

Lemma presence_scene_authenticate (s : State) (ws : Conn) (u p : Z) (cp : Conn) :
  PresenceScene s u p cp →
  PresenceScene (on_message s ws (authenticate (Js.ANumber u))).1 u p cp.
Proof.
  intros [Huser Hshares Hne Hreg Hopen Halone].
  destruct (authenticate_state s ws (authenticate (Js.ANumber u)) u eq_refl eq_refl)
    as (Hc & _ & Hr & Hd).
  constructor; rewrite ?Hc, ?Hr, ?Hd; try done.
  - by rewrite updateUserOnlineStatus_ids.
  - by apply sharesConversation_updateUserOnlineStatus.
  - by rewrite lookup_insert_ne.
  - intros q Hq. rewrite lookup_insert_ne by done. by apply Halone.
Qed.

Lemma presence_scene_close (s : State) (ws : Conn) (u p : Z) (cp : Conn) :
  userIdOf s !! ws = Some (Js.Num u) → u ≠ 0 → cp ≠ ws →
  PresenceScene s u p cp →
  PresenceScene (on_close s ws).1 u p cp.
Proof.
  intros Hu Hnz Hcp [Huser Hshares Hne Hreg Hopen Halone].
  destruct (close_state s ws u Hu Hnz) as (Hc & _ & Hr & Hd).
  constructor; rewrite ?Hc, ?Hr, ?Hd; try done.
  - by rewrite updateUserOnlineStatus_ids.
  - by apply sharesConversation_updateUserOnlineStatus.
  - by rewrite lookup_delete_ne.
  - by rewrite lookup_insert_ne.
  - intros q Hq. rewrite lookup_delete_ne by done. by apply Halone.
Qed.

(** C5, as amended. A peer who shares a conversation with an existing
    user [u] and is registered, alone, on an open connection receives
    exactly one [user_status] with [isOnline: true] for every
    [authenticate] event of [u], whether or not [u] was online before
    (two such events in a row give two broadcasts), and exactly one with
    [isOnline: false] for every close of a connection whose user id is
    [u], [u] not zero. *)
Theorem status_broadcast_on_every_event (s : State) (ws : Conn) (u p : Z) (cp : Conn) :
  PresenceScene s u p cp →
  received cp (on_message s ws (authenticate (Js.ANumber u))).2
  = [user_status u true]
  ∧ received cp
      (run s [ Inbound ws (authenticate (Js.ANumber u));
               Inbound ws (authenticate (Js.ANumber u)) ]).2
    = [user_status u true; user_status u true]
  ∧ (userIdOf s !! ws = Some (Js.Num u) → u ≠ 0 → cp ≠ ws →
     received cp (on_close s ws).2 = [user_status u false]).
Proof.
  intros Hscene.
  pose proof (presence_scene_authenticate s ws u p cp Hscene) as Hscene1.
  assert (Hfirst : received cp (on_message s ws (authenticate (Js.ANumber u))).2
                   = [user_status u true]).
  { rewrite authenticate_out. by apply (broadcastUserStatus_received _ u p). }
  split; [exact Hfirst|]. split.
  - rewrite !run_cons_out. cbn [run step fst snd].
    rewrite app_nil_r, received_app, Hfirst.
    rewrite authenticate_out.
    rewrite (broadcastUserStatus_received _ u p); [done|].
    by apply presence_scene_authenticate.
  - intros Hu Hnz Hcp. rewrite (close_out s ws u) by done.
    apply (broadcastUserStatus_received _ u p). by apply presence_scene_close.
Qed.

End PresenceEvents.

(** ** The statements on the concrete deployment *)

Section OnScenario.
Import Schema Storage Gateway Claims Scenario.

Ltac listed := vm_compute; repeat first [apply list_elem_of_here | apply list_elem_of_further].

Lemma online_clients : clients online = <[3 := 30%nat]> (<[2 := 20%nat]> (<[1 := 10%nat]> ∅)).
Proof. vm_compute. reflexivity. Qed.

Lemma online_fanout_scene :
  FanoutScene online 10 (send_message 7 "hi" None) 7 1 2 3 10 20 30.
Proof.
  constructor; try (vm_compute; reflexivity); try done.
  - eexists. split; [vm_compute; reflexivity|]. vm_compute. reflexivity.
  - apply (bool_decide_unpack _). vm_compute. reflexivity.
  - apply (bool_decide_unpack _). vm_compute. reflexivity.
Qed.

Lemma online_presence_scene : PresenceScene online 1 2 20.
Proof.
  constructor; try (vm_compute; reflexivity); try done.
  - listed.
  - exists 7. repeat split; listed.
  - intros q Hq. rewrite online_clients.
    destruct (decide (q = 3)) as [->|H3]; [by rewrite lookup_insert_eq|].
    rewrite lookup_insert_ne by done.
    destruct (decide (q = 2)) as [->|H2]; [done|].
    rewrite lookup_insert_ne by done.
    rewrite lookup_insert_ne by done. by rewrite lookup_empty.
Qed.

(** C1: in the deployment the sender's own connection does receive the
    message. *)
Lemma fanout_skips_sender_counterexample : ¬ fanout_skips_sender.
Proof.
  intros H.
  destruct (H conversion online 10%nat (send_message 7 "hi" None) 7 1 2 3 10%nat 20%nat 30%nat
              online_fanout_scene) as (d & saved & _ & _ & Hca & _).
  vm_compute in Hca. discriminate Hca.
Qed.

Lemma new_message_reaches_every_member_witness :
  ∃ d saved,
    createMessage (storage online) (messageData 1 7 (send_message 7 "hi" None))
    = (d, Ok saved)
    ∧ storage (on_message online 10 (send_message 7 "hi" None)).1 = d
    ∧ ms_message saved ∈ messages d
    ∧ received 10 (on_message online 10 (send_message 7 "hi" None)).2
      = [new_message 7 saved]
    ∧ received 20 (on_message online 10 (send_message 7 "hi" None)).2
      = [new_message 7 saved]
    ∧ received 30 (on_message online 10 (send_message 7 "hi" None)).2
      = [new_message 7 saved]
    ∧ ∀ x, x ∉ [10%nat; 20%nat; 30%nat] →
           received x (on_message online 10 (send_message 7 "hi" None)).2 = [].
Proof.
  exact (new_message_reaches_every_member online 10%nat (send_message 7 "hi" None)
           7 1 2 3 10%nat 20%nat 30%nat online_fanout_scene).
Defined.

(** C2: the second connection is evicted by the close of the first. *)
Lemma close_keeps_newer_connection_counterexample : ¬ close_keeps_newer_connection.
Proof.
  intros H. specialize (H conversion twoOpen 1%nat 2%nat 1).
  assert (Hc : (1%nat : nat) ≠ 2%nat) by done.
  assert (Hu : (1 : Z) ≠ 0) by done.
  specialize (H Hc Hu). vm_compute in H. discriminate H.
Qed.

Lemma close_evicts_newer_connection_witness :
  let s3 := (run twoOpen [ Inbound 1 (authenticate (Js.ANumber 1));
                           Inbound 2 (authenticate (Js.ANumber 1));
                           Close 1 ]).1 in
  clients s3 !! 1 = None ∧ ∀ e, sendIfOpen s3 1 e = [].
Proof.
  apply (close_evicts_newer_connection twoOpen 1%nat 2%nat 1). lia.
Defined.

Lemma addReactionToMessage_idempotent_witness :
  ∃ d1 m1 rs1,
    addReactionToMessage db 5 thumbsUp = (d1, Ok (Some m1))
    ∧ addReactionToMessage d1 5 thumbsUp = (d1, Ok (Some m1))
    ∧ m_reactions (ms_message m1) = Some rs1
    ∧ {| r_emoji := "+1"; r_userId := 2 |} ∈ rs1
    ∧ ({| r_emoji := "+1"; r_userId := 2 |} ∈ [] → rs1 = [])
    ∧ ({| r_emoji := "+1"; r_userId := 2 |} ∉ [] →
       rs1 = [] ++ [{| r_emoji := "+1"; r_userId := 2 |}] ∧ length rs1 = 1%nat)
    ∧ selectMessage d1 5 = Ok (Some (ms_message m1))
    ∧ ms_message m1 = set_reactions hello rs1
    ∧ length (messages d1) = length (messages db)
    ∧ ∀ i row, m_id row ≠ 5 →
               messages db !! i = Some row ↔ messages d1 !! i = Some row.
Proof.
  apply (addReactionToMessage_idempotent db 5 thumbsUp hello (publicOf alice));
    vm_compute; reflexivity.
Defined.

Lemma attachments_only_message_rejected_witness :
  on_message online 10 (send_message 7 "" (Some [photo]))
  = (online, [(10%nat, error "Invalid message format")]).
Proof.
  apply (attachments_only_message_rejected online 10%nat 1 7 (Some [photo])).
  - vm_compute. reflexivity.
  - lia.
Defined.

(** C5: Alice is online and registered; when she authenticates again
    Bob is told once more. *)
Lemma no_duplicate_online_broadcast_counterexample : ¬ no_duplicate_online_broadcast.
Proof.
  intros H. specialize (H conversion online 10%nat 1 2 20%nat online_presence_scene).
  assert (Honline : ∀ row, row ∈ users (storage online) → u_id row = 1 →
                           u_isOnline row = true).
  { apply (proj1 (Forall_forall (λ row, u_id row = 1 → u_isOnline row = true) _)).
    vm_compute.
    repeat (constructor; [intros ?; first [reflexivity | discriminate]|]).
    constructor. }
  assert (Hreg : is_Some (clients online !! 1)).
  { exists 10%nat. vm_compute. reflexivity. }
  specialize (H Honline Hreg). vm_compute in H. discriminate H.
Qed.

Lemma status_broadcast_on_every_event_witness :
  received 20 (on_message online 10 (authenticate (Js.ANumber 1))).2
  = [user_status 1 true]
  ∧ received 20
      (run online [ Inbound 10 (authenticate (Js.ANumber 1));
                    Inbound 10 (authenticate (Js.ANumber 1)) ]).2
    = [user_status 1 true; user_status 1 true]
  ∧ received 20 (on_close online 10).2 = [user_status 1 false].
Proof.
  destruct (status_broadcast_on_every_event online 10%nat 1 2 20%nat
              online_presence_scene) as (H1 & H2 & H3).
  split; [exact H1|]. split; [exact H2|].
  apply H3; [vm_compute; reflexivity|lia|lia].
Defined.

(** C8: a [typing] envelope on a connection that has not authenticated
    gets no reply. *)
Lemma unauthenticated_action_gets_error_counterexample :
  ¬ unauthenticated_action_gets_error.
Proof.
  intros H. destruct (H conversion fresh 10%nat (typing_notice 7)) as [text Htext].
  - vm_compute. reflexivity.
  - listed.
  - apply (f_equal snd) in Htext. vm_compute in Htext. discriminate Htext.
Qed.

Lemma unauthenticated_action_dropped_witness :
  (∃ text, on_message fresh 10 (send_message 7 "hi" None) = (fresh, [(10%nat, error text)]))
  ∧ on_message fresh 10 (typing_notice 7) = (fresh, []).
Proof.
  destruct (unauthenticated_action_dropped fresh 10%nat (send_message 7 "hi" None))
    as [Hreply _]; [vm_compute; reflexivity|].
  destruct (unauthenticated_action_dropped fresh 10%nat (typing_notice 7))
    as [_ Hsilent]; [vm_compute; reflexivity|].
  split; [apply Hreply; listed|apply Hsilent; reflexivity].
Defined.

(** C9: a message for conversation 999, which does not exist, gets no
    [error] envelope. *)
Lemma every_validation_failure_gets_error_counterexample :
  ¬ every_validation_failure_gets_error.
Proof.
  intros H. destruct (H conversion online 10%nat (send_message 999 "hi" None)) as [text Htext].
  - vm_compute. reflexivity.
  - right. split; [reflexivity|]. split; [reflexivity|].
    exists 999. split; [reflexivity|]. split; [lia|].
    apply (bool_decide_unpack _). vm_compute. reflexivity.
  - apply (f_equal snd) in Htext. vm_compute in Htext. discriminate Htext.
Qed.

Lemma detected_failure_rejected_witness :
  ∃ text, on_message online 10 (edit_message 999 "fixed")
          = (online, [(10%nat, error text)]).
Proof.
  apply (detected_failure_rejected online 10%nat (edit_message 999 "fixed")).
  apply (MessageNotFound _ _ 999); [listed|reflexivity|vm_compute; reflexivity].
Defined.

Lemma user_zero_locked_out_witness :
  let s1 := (on_message fresh 10 (authenticate (Js.ANumber 0))).1 in
  clients s1 !! 0 = Some 10%nat
  ∧ userIdOf s1 !! 10%nat = Some (Js.Num 0)
  ∧ ∃ text,
      on_message s1 10 (send_message 7 "hi" None) = (s1, [(10%nat, error text)])
      ∧ text ∈ ["Not authenticated"; "Invalid message edit format";
                "Invalid reaction format"; "Invalid reaction removal format"].
Proof.
  intros s1. destruct (user_zero_locked_out fresh 10%nat) as (Hc & _ & Hvar & Hall).
  split; [exact Hc|]. split; [exact Hvar|].
  apply Hall; [exact Hvar|listed].
Defined.

End OnScenario.

(** ** Client: draining the outbound queue *)

Section Drain.
Import Client.
Variable send_throws : list Effect → Outbound → bool.

Lemma drain_spec (k : nat) (l : list Effect) (queue : list QueuedMessage) :
  ∃ sent,
    queue = sent ++ (drain send_throws k l queue).2
    ∧ (drain send_throws k l queue).1 = l ++ ((λ m, Send k (queued m)) <$> sent)
    ∧ match (drain send_throws k l queue).2 with
      | [] => True
      | m :: _ => send_throws (drain send_throws k l queue).1 (queued m) = true
      end
    ∧ ((∀ l' m, send_throws l' m = false) → (drain send_throws k l queue).2 = []).
Proof.
  revert l. induction queue as [|m rest IH]; intros l; simpl.
  - exists []. simpl. by rewrite app_nil_r.
  - destruct (send_throws l (queued m)) eqn:Hthrow; simpl.
    + exists []. simpl. rewrite app_nil_r. repeat split; [done|].
      intros Hnever. by rewrite Hnever in Hthrow.
    + destruct (IH (l ++ [Send k (queued m)])) as (sent & Hq & Hl & Hhead & Hnever).
      exists (m :: sent). split; [by rewrite <- app_comm_cons, <- Hq|].
      split; [|done]. rewrite Hl, fmap_cons, <- app_assoc. done.
Qed.

(** C6. With an open socket [k], [processMessageQueue] hands a prefix
    of the queue to [socket.send], one item per call and in queue
    order, and leaves the remaining suffix as the new queue; the
    suffix is empty, or its head is the item whose send threw, back at
    the head of the queue. When no send throws the whole queue is sent
    in order. Nothing but the queue and the log changes. *)
Theorem processMessageQueue_fifo (s : State) (k : nat) :
  openSocket s = Some k →
  let s' := processMessageQueue send_throws s in
  ∃ sent,
    messageQueue s = sent ++ messageQueue s'
    ∧ log s' = log s ++ ((λ m, Send k (queued m)) <$> sent)
    ∧ match messageQueue s' with
      | [] => True
      | m :: _ => send_throws (log s') (queued m) = true
      end
    ∧ ((∀ l m, send_throws l m = false) →
       messageQueue s' = []
       ∧ log s' = log s ++ ((λ m, Send k (queued m)) <$> messageQueue s))
    ∧ s' = set_queue_log s (messageQueue s') (log s').
Proof.
  intros Hopen s'. unfold s', processMessageQueue. rewrite Hopen.
  destruct (drain_spec k (log s) (messageQueue s)) as (sent & Hq & Hl & Hhead & Hnever).
  destruct (drain send_throws k (log s) (messageQueue s)) as [l q] eqn:Hd.
  simpl in *. exists sent.
  split; [exact Hq|]. split; [exact Hl|]. split; [exact Hhead|]. split; [|done].
  intros Hnone. specialize (Hnever Hnone). subst q.
  rewrite app_nil_r in Hq. subst sent. by rewrite Hl.
Qed.

End Drain.

(** ** Client: reconnection *)

Section Reconnection.
Import Client.
Variable send_throws : list Effect → Outbound → bool.

Lemma scheduled_app (l1 l2 : list Effect) :
  scheduled (l1 ++ l2) = (scheduled l1 + scheduled l2)%nat.
Proof. unfold scheduled. by rewrite filter_app, length_app. Qed.

Lemma cleared_app (l1 l2 : list Effect) :
  cleared (l1 ++ l2) = (cleared l1 + cleared l2)%nat.
Proof. unfold cleared. by rewrite filter_app, length_app. Qed.

Lemma created_app (l1 l2 : list Effect) :
  created (l1 ++ l2) = (created l1 + created l2)%nat.
Proof. unfold created. by rewrite filter_app, length_app. Qed.

Lemma counts_sends (k : nat) (sent : list QueuedMessage) :
  scheduled ((λ m, Send k (queued m)) <$> sent) = 0%nat
  ∧ cleared ((λ m, Send k (queued m)) <$> sent) = 0%nat
  ∧ created ((λ m, Send k (queued m)) <$> sent) = 0%nat.
Proof. induction sent as [|m l IH]; [done|]. exact IH. Qed.

Lemma Quiet_refl (s : State) : Quiet s s.
Proof. by constructor. Qed.

Lemma Quiet_trans (s1 s2 s3 : State) : Quiet s1 s2 → Quiet s2 s3 → Quiet s1 s3.
Proof. intros [] []. constructor; congruence. Qed.

Lemma Quiet_set_queue_log (s : State) (q : list QueuedMessage) (extra : list Effect) :
  scheduled extra = 0%nat → cleared extra = 0%nat → created extra = 0%nat →
  Quiet s (set_queue_log s q (log s ++ extra)).
Proof.
  intros H1 H2 H3. constructor; simpl; try done.
  - rewrite scheduled_app. lia.
  - rewrite cleared_app. lia.
  - rewrite created_app. lia.
Qed.

Lemma Quiet_set_queue (s : State) (q : list QueuedMessage) :
  Quiet s (set_queue_log s q (log s)).
Proof. by constructor. Qed.

Lemma sendAuthMessage_quiet (s : State) (userId : Z) :
  Quiet s (sendAuthMessage send_throws s userId).1.
Proof.
  unfold sendAuthMessage. destruct (openSocket s); [|apply Quiet_refl].
  destruct (send_throws _ _); simpl; [apply Quiet_refl|].
  by apply Quiet_set_queue_log.
Qed.

Lemma processMessageQueue_quiet (s : State) :
  Quiet s (processMessageQueue send_throws s).
Proof.
  unfold processMessageQueue. destruct (openSocket s) as [k|]; [|apply Quiet_refl].
  destruct (drain_spec send_throws k (log s) (messageQueue s)) as (sent & _ & Hl & _).
  destruct (drain send_throws k (log s) (messageQueue s)) as [l q]. simpl in Hl.
  subst l. destruct (counts_sends k sent) as (? & ? & ?).
  by apply Quiet_set_queue_log.
Qed.

Lemma sendTypingNotification_quiet (s : State) (c : Z) :
  Quiet s (sendTypingNotification send_throws s c).
Proof.
  unfold sendTypingNotification. destruct (openSocket s); [|apply Quiet_refl].
  destruct (send_throws _ _); [apply Quiet_refl|].
  by apply Quiet_set_queue_log.
Qed.

Lemma Quiet_SameTimers (s s' : State) : Quiet s s' → SameTimers s s'.
Proof. intros []. by constructor. Qed.

Lemma SameTimers_refl (s : State) : SameTimers s s.
Proof. by constructor. Qed.

Lemma SameTimers_trans (s1 s2 s3 : State) :
  SameTimers s1 s2 → SameTimers s2 s3 → SameTimers s1 s3.
Proof. intros [] []. constructor; congruence. Qed.

Lemma SameTimers_balance (s s' : State) : SameTimers s s' → balance s' = balance s.
Proof.
  intros [E1 E2 E3 E4 E5]. unfold balance, budget. by rewrite E1, E3, E4, E5.
Qed.

(** The timer part of the invariant follows the timer view; the socket
    part is checked on the new state. *)
Lemma Inv_SameTimers (s s' : State) :
  Inv s → SameTimers s s' →
  (∀ k w, sockets s' !! k = Some w → socket s' ≠ Some k → closingOrClosed w) →
  Inv s'.
Proof.
  intros [Ht Ha Hb _] [E1 E2 E3 _ _] Hstale.
  constructor; rewrite ?E1, ?E2, ?E3; done.
Qed.

Lemma Inv_Quiet (s s' : State) : Inv s → Quiet s s' → Inv s'.
Proof.
  intros Hinv Hq. apply (Inv_SameTimers s); [done|by apply Quiet_SameTimers|].
  destruct Hq as [E1 E2 _ _ _ _ _ _]. rewrite E1, E2. by destruct Hinv.
Qed.

(** [reconnectSocket] does nothing, or schedules the one timer. *)
Lemma reconnectSocket_cases (s : State) :
  reconnectSocket s = s
  ∨ socketReconnectTimer s = None
    ∧ reconnectAttempts s < MAX_RECONNECT_ATTEMPTS
    ∧ reconnectSocket s
      = set_timer s (Some (nextTimer s))
          (pendingTimers s ++ [(nextTimer s, RECONNECT_DELAY_MS)])
          (S (nextTimer s)) (log s ++ [SetTimeout (nextTimer s) RECONNECT_DELAY_MS]).
Proof.
  unfold reconnectSocket.
  destruct (socketReconnectTimer s); [by left|].
  destruct (currentUserId s) as [user|]; [|by left].
  destruct (user =? 0); [by left|].
  destruct (reconnectAttempts s <? MAX_RECONNECT_ATTEMPTS) eqn:Hlt; [|by left].
  right. apply Z.ltb_lt in Hlt. done.
Qed.

Lemma reconnectSocket_spec (s : State) :
  Inv s →
  Inv (reconnectSocket s)
  ∧ balance (reconnectSocket s) = balance s
  ∧ cleared (log (reconnectSocket s)) = cleared (log s)
  ∧ socket (reconnectSocket s) = socket s
  ∧ sockets (reconnectSocket s) = sockets s.
Proof.
  intros Hinv. destruct (reconnectSocket_cases s) as [->|(Hnone & Hlt & ->)]; [done|].
  destruct Hinv as [Ht Ha Hb Hs]. rewrite Hnone in Hb.
  assert (Hp : pendingTimers s = []).
  { destruct Ht as [?|(t & Ht & _)]; [done|congruence]. }
  split.
  { constructor; simpl; rewrite ?Hp; try done.
    - right. by eexists.
    - unfold MAX_RECONNECT_ATTEMPTS in *. lia. }
  unfold balance, budget. simpl.
  rewrite Hnone, scheduled_app, cleared_app.
  change (scheduled [SetTimeout (nextTimer s) RECONNECT_DELAY_MS]) with 1%nat.
  change (cleared [SetTimeout (nextTimer s) RECONNECT_DELAY_MS]) with 0%nat.
  repeat split; lia.
Qed.

Lemma reconnectSocket_exhausted (s : State) :
  reconnectAttempts s = MAX_RECONNECT_ATTEMPTS → reconnectSocket s = s.
Proof.
  intros H. destruct (reconnectSocket_cases s) as [?|(_ & Hlt & _)]; [done|lia].
Qed.

Lemma clearReconnectTimer_spec (s : State) :
  Inv s →
  Inv (clearReconnectTimer s)
  ∧ balance (clearReconnectTimer s) = balance s
  ∧ scheduled (log (clearReconnectTimer s)) = scheduled (log s)
  ∧ created (log (clearReconnectTimer s)) = created (log s)
  ∧ socket (clearReconnectTimer s) = socket s
  ∧ sockets (clearReconnectTimer s) = sockets s.
Proof.
  intros Hinv. unfold clearReconnectTimer.
  destruct (socketReconnectTimer s) as [t|] eqn:Hvar; [|done].
  destruct Hinv as [Ht Ha Hb Hs]. rewrite Hvar in Hb.
  assert (Hp : filter (λ p, p.1 ≠ t) (pendingTimers s) = []).
  { destruct Ht as [->|(t' & Ht' & ->)]; [done|].
    assert (t' = t) as -> by congruence.
    rewrite filter_cons. simpl. by rewrite decide_False by (intros H; by apply H). }
  split.
  { constructor; simpl; rewrite ?Hp; try done; [by left|lia]. }
  unfold balance, budget. simpl.
  rewrite Hvar, scheduled_app, cleared_app, created_app.
  change (scheduled [ClearTimeout t]) with 0%nat.
  change (cleared [ClearTimeout t]) with 1%nat.
  change (created [ClearTimeout t]) with 0%nat.
  repeat split; lia.
Qed.

Lemma set_readyState_SameTimers (s : State) (k : nat) (r : ReadyState) :
  SameTimers s (set_readyState s k r).
Proof. by constructor. Qed.

Lemma set_readyState_lookup (s : State) (k : nat) (r : ReadyState) (j : nat) (w : WebSocket) :
  sockets (set_readyState s k r) !! j = Some w →
  (j = k ∧ readyState w = r) ∨ (j ≠ k ∧ sockets s !! j = Some w).
Proof.
  simpl. destruct (decide (j = k)) as [->|Hne].
  - rewrite list_lookup_alter_eq. intros Hj.
    apply fmap_Some in Hj as (w0 & _ & ->). by left.
  - rewrite list_lookup_alter_ne by done. by right.
Qed.

(** After [socket.close()] the socket is closing or closed; the other
    sockets are untouched. *)
Lemma closeCall_spec (s : State) (k : nat) :
  SameTimers s (closeCall s k)
  ∧ socket (closeCall s k) = socket s
  ∧ created (log (closeCall s k)) = created (log s)
  ∧ length (sockets (closeCall s k)) = length (sockets s)
  ∧ ∀ j w, sockets (closeCall s k) !! j = Some w →
           (j = k ∧ closingOrClosed w) ∨ (j ≠ k ∧ sockets s !! j = Some w).
Proof.
  unfold closeCall.
  set (s1 := match readyState <$> sockets s !! k with
             | Some CONNECTING | Some OPEN => set_readyState s k CLOSING
             | _ => s
             end).
  assert (H1 : SameTimers s s1 ∧ socket s1 = socket s ∧ log s1 = log s
               ∧ length (sockets s1) = length (sockets s)
               ∧ ∀ j w, sockets s1 !! j = Some w →
                        (j = k ∧ closingOrClosed w) ∨ (j ≠ k ∧ sockets s !! j = Some w)).
  { assert (Hset : SameTimers s (set_readyState s k CLOSING)
                   ∧ socket (set_readyState s k CLOSING) = socket s
                   ∧ log (set_readyState s k CLOSING) = log s
                   ∧ length (sockets (set_readyState s k CLOSING)) = length (sockets s)
                   ∧ ∀ j w, sockets (set_readyState s k CLOSING) !! j = Some w →
                            (j = k ∧ closingOrClosed w)
                            ∨ (j ≠ k ∧ sockets s !! j = Some w)).
    { split; [apply set_readyState_SameTimers|]. split; [done|]. split; [done|].
      split; [apply length_alter|]. intros j w Hj.
      destruct (set_readyState_lookup s k CLOSING j w Hj) as [[-> Hr]|[? ?]];
        [left; split; [done|by left]|by right]. }
    assert (Hsame : ∀ r, r = CLOSING ∨ r = CLOSED →
                         readyState <$> sockets s !! k = Some r →
                         ∀ j w, sockets s !! j = Some w →
                                (j = k ∧ closingOrClosed w)
                                ∨ (j ≠ k ∧ sockets s !! j = Some w)).
    { intros r Hr Hk j w Hj. destruct (decide (j = k)) as [->|Hne]; [|by right].
      left. split; [done|]. rewrite Hj in Hk. simpl in Hk. injection Hk as Hk.
      unfold closingOrClosed. rewrite Hk. exact Hr. }
    unfold s1. destruct (readyState <$> sockets s !! k) as [[]|] eqn:Hk;
      try exact Hset.
    - split; [apply SameTimers_refl|]. repeat split; try done.
      apply (Hsame CLOSING); [by left|done].
    - split; [apply SameTimers_refl|]. repeat split; try done.
      apply (Hsame CLOSED); [by right|done].
    - split; [apply SameTimers_refl|]. repeat split; try done.
      intros j w Hj. destruct (decide (j = k)) as [->|Hne]; [|by right].
      rewrite Hj in Hk. done. }
  destruct H1 as ([E1 E2 E3 E4 E5] & Hsock & Hlog & Hlen & Hlook). simpl.
  split.
  { constructor; simpl; rewrite ?Hlog; try done.
    - rewrite scheduled_app. change (scheduled [CloseSocket k]) with 0%nat. lia.
    - rewrite cleared_app. change (cleared [CloseSocket k]) with 0%nat. lia. }
  split; [done|]. split; [|done].
  rewrite Hlog, created_app. change (created [CloseSocket k]) with 0%nat. lia.
Qed.

Lemma connectSocket_spec (s : State) (userId : Z) :
  Inv s →
  Inv (connectSocket send_throws s userId).1
  ∧ SameTimers s (connectSocket send_throws s userId).1.
Proof.
  intros Hinv. unfold connectSocket.
  set (s0 := {| socket := socket s; sockets := sockets s;
                socketReconnectTimer := socketReconnectTimer s;
                pendingTimers := pendingTimers s; nextTimer := nextTimer s;
                currentUserId := Some userId;
                reconnectAttempts := reconnectAttempts s;
                messageQueue := messageQueue s; log := log s |}).
  assert (Hq0 : Quiet s s0) by by constructor.
  assert (Hinv0 : Inv s0) by by apply (Inv_Quiet s).
  destruct (openSocket s0) as [k|] eqn:Hopen.
  - pose proof (sendAuthMessage_quiet s0 userId) as Hq1.
    destruct (sendAuthMessage send_throws s0 userId) as [s1 threw]. simpl in Hq1.
    assert (Hq : Quiet s s1) by by apply (Quiet_trans s s0).
    destruct threw; simpl.
    + split; [by apply (Inv_Quiet s)|by apply Quiet_SameTimers].
    + pose proof (processMessageQueue_quiet s1) as Hq2.
      assert (Hq' : Quiet s (processMessageQueue send_throws s1))
        by by apply (Quiet_trans s s1).
      split; [by apply (Inv_Quiet s)|by apply Quiet_SameTimers].
  - set (s1 := match socket s0 with Some k => closeCall s0 k | None => s0 end).
    assert (H1 : SameTimers s0 s1
                 ∧ length (sockets s1) = length (sockets s0)
                 ∧ ∀ j w, sockets s1 !! j = Some w → closingOrClosed w).
    { unfold s1. destruct (socket s0) as [k|] eqn:Hcur.
      - destruct (closeCall_spec s0 k) as (Hst & _ & _ & Hlen & Hsock).
        split; [done|]. split; [done|]. intros j w Hj.
        destruct (Hsock j w Hj) as [[_ ?]|[Hne Hj0]]; [done|].
        destruct Hinv0 as [_ _ _ Hstale]. apply (Hstale j w Hj0).
        rewrite Hcur. congruence.
      - split; [apply SameTimers_refl|]. split; [done|]. intros j w Hj.
        destruct Hinv0 as [_ _ _ Hstale]. apply (Hstale j w Hj).
        by rewrite Hcur. }
    destruct H1 as ([E1 E2 E3 E4 E5] & Hlen & Hclosed). simpl.
    assert (Hst : SameTimers s
                    {| socket := Some (length (sockets s1));
                       sockets := sockets s1 ++
                         [{| readyState := CONNECTING; captured := userId |}];
                       socketReconnectTimer := socketReconnectTimer s1;
                       pendingTimers := pendingTimers s1;
                       nextTimer := nextTimer s1;
                       currentUserId := currentUserId s1;
                       reconnectAttempts := reconnectAttempts s1;
                       messageQueue := messageQueue s1;
                       log := log s1 ++ [NewWebSocket (length (sockets s1))] |}).
    { constructor; simpl; rewrite ?E1, ?E2, ?E3; try done.
      - rewrite scheduled_app, E4. change (scheduled [NewWebSocket _]) with 0%nat.
        simpl. lia.
      - rewrite cleared_app, E5. change (cleared [NewWebSocket _]) with 0%nat.
        simpl. lia. }
    split; [|exact Hst].
    apply (Inv_SameTimers s); [done|exact Hst|]. simpl.
    intros j w Hj Hne. apply lookup_app_Some in Hj as [Hj|[Hge Hj]].
    + by apply (Hclosed j).
    + exfalso. apply Hne. f_equal.
      apply lookup_lt_Some in Hj. simpl in Hj. lia.
Qed.

Lemma Keeps_SameTimers (s s' : State) :
  Inv s' → SameTimers s s' → Keeps s s'.
Proof.
  intros Hinv Hst. split; [done|]. split; [by apply SameTimers_balance|].
  by destruct Hst.
Qed.

Lemma Keeps_Quiet (s s' : State) : Inv s → Quiet s s' → Keeps s s'.
Proof.
  intros Hinv Hq. apply Keeps_SameTimers; [by apply (Inv_Quiet s)|].
  by apply Quiet_SameTimers.
Qed.

Lemma Keeps_reconnectSocket (s s' : State) : Keeps s s' → Keeps s (reconnectSocket s').
Proof.
  intros (Hinv & Hb & Hc).
  destruct (reconnectSocket_spec s' Hinv) as (Hinv' & Hb' & Hc' & _).
  split; [done|]. split; congruence.
Qed.

Lemma submit_Keeps (flag : bool) (s : State) (m : QueuedMessage) :
  Inv s → Keeps s (submit send_throws flag s m).
Proof.
  intros Hinv. unfold submit. destruct (openSocket s) as [k|].
  - destruct (send_throws (log s) (queued m)).
    + assert (Hk : Keeps s (set_queue_log s (messageQueue s ++ [m]) (log s))).
      { apply Keeps_Quiet; [done|apply Quiet_set_queue]. }
      destruct flag; destruct (bool_decide _); try done; by apply Keeps_reconnectSocket.
    + apply Keeps_Quiet; [done|]. by apply Quiet_set_queue_log.
  - assert (Hk : Keeps s (set_queue_log s (messageQueue s ++ [m]) (log s))).
    { apply Keeps_Quiet; [done|apply Quiet_set_queue]. }
    destruct (noSocketOrClosed _); [by apply Keeps_reconnectSocket|done].
Qed.

Lemma disconnectSocket_Inv (s : State) :
  Inv s →
  Inv (disconnectSocket s) ∧ balance (disconnectSocket s) = balance s.
Proof.
  intros Hinv. unfold disconnectSocket.
  destruct (socket s) as [k|] eqn:Hcur.
  - destruct (closeCall_spec s k) as (Hst & _ & _ & _ & Hsock).
    set (s1 := {| socket := None; sockets := sockets (closeCall s k);
                  socketReconnectTimer := socketReconnectTimer (closeCall s k);
                  pendingTimers := pendingTimers (closeCall s k);
                  nextTimer := nextTimer (closeCall s k);
                  currentUserId := currentUserId (closeCall s k);
                  reconnectAttempts := reconnectAttempts (closeCall s k);
                  messageQueue := messageQueue (closeCall s k);
                  log := log (closeCall s k) |}).
    assert (Hst1 : SameTimers s s1) by (destruct Hst; by constructor).
    assert (Hinv1 : Inv s1).
    { apply (Inv_SameTimers s); [done..|]. simpl. intros j w Hj _.
      destruct (Hsock j w Hj) as [[_ ?]|[Hne Hj0]]; [done|].
      destruct Hinv as [_ _ _ Hstale]. apply (Hstale j w Hj0).
      rewrite Hcur. congruence. }
    destruct (clearReconnectTimer_spec s1 Hinv1) as (? & Hb & _).
    split; [done|]. rewrite Hb. by apply SameTimers_balance.
  - destruct (clearReconnectTimer_spec s Hinv) as (? & Hb & _). done.
Qed.

Lemma set_readyState_Inv (s : State) (k : nat) (r : ReadyState) :
  Inv s →
  (socket s = Some k ∨ r = CLOSING ∨ r = CLOSED) →
  Inv (set_readyState s k r).
Proof.
  intros Hinv Hok. apply (Inv_SameTimers s); [done|apply set_readyState_SameTimers|].
  intros j w Hj Hne. destruct (set_readyState_lookup s k r j w Hj) as [[-> Hr]|[Hjk Hj0]].
  - destruct Hok as [Hcur|Hr']; [by simpl in Hne|].
    unfold closingOrClosed. rewrite Hr. exact Hr'.
  - destruct Hinv as [_ _ _ Hstale]. by apply (Hstale j).
Qed.

Lemma onopen_Inv (s : State) (k : nat) : Inv s → Inv (onopen send_throws s k).
Proof.
  intros Hinv. unfold onopen.
  assert (Hinv0 : Inv (set_attempts s 0)).
  { destruct Hinv as [Ht Ha Hb Hs]. constructor; simpl; try done.
    unfold MAX_RECONNECT_ATTEMPTS. destruct (socketReconnectTimer s); lia. }
  pose proof (sendAuthMessage_quiet (set_attempts s 0)
                (default 0 (captured <$> sockets (set_attempts s 0) !! k))) as Hq.
  destruct (sendAuthMessage send_throws (set_attempts s 0) _) as [s1 threw].
  simpl in Hq. pose proof (Inv_Quiet _ _ Hinv0 Hq) as Hinv1.
  destruct threw; [done|].
  pose proof (Inv_Quiet _ _ Hinv1 (processMessageQueue_quiet s1)) as Hinv2.
  by destruct (clearReconnectTimer_spec _ Hinv2).
Qed.

Lemma fire_Keeps (s : State) (t : nat) :
  Inv s → t ∈ (pendingTimers s).*1 →
  Keeps s (reconnectCallback send_throws
             (set_timer s (socketReconnectTimer s)
                (filter (λ p, p.1 ≠ t) (pendingTimers s)) (nextTimer s) (log s))).
Proof.
  intros Hinv Hin.
  assert (Hvar : socketReconnectTimer s = Some t
                 ∧ pendingTimers s = [(t, RECONNECT_DELAY_MS)]).
  { destruct Hinv as [[Hp|(t' & Hv & Hp)] _ _ _]; rewrite Hp in Hin.
    - by apply elem_of_nil in Hin.
    - simpl in Hin. apply list_elem_of_singleton in Hin. by subst. }
  destruct Hvar as [Hvar Hp]. rewrite Hp, filter_cons. simpl.
  rewrite decide_False by (intros H; by apply H). rewrite filter_nil.
  set (s0 := set_timer s (socketReconnectTimer s) [] (nextTimer s) (log s)).
  assert (Hinv0 : Inv s0).
  { destruct Hinv as [Ht Ha Hb Hs]. constructor; simpl; try done. by left. }
  assert (Hb0 : balance s0 = balance s) by done.
  unfold reconnectCallback.
  destruct (connectSocket_spec s0 (default 0 (currentUserId s0)) Hinv0) as [Hinv1 Hst1].
  destruct (connectSocket send_throws s0 (default 0 (currentUserId s0))) as [s1 threw].
  simpl in Hinv1, Hst1. destruct threw.
  - split; [done|]. split; [by rewrite (SameTimers_balance s0 s1)|by destruct Hst1].
  - destruct Hst1 as [E1 E2 E3 E4 E5]. simpl in E1, E2, E3, E4, E5.
    destruct Hinv1 as [Ht1 Ha1 Hb1 Hs1]. rewrite E1, E3, Hvar in Hb1.
    split; [|split].
    + constructor; simpl; try done; rewrite ?E2, ?E3; try lia. by left.
    + unfold balance, budget. simpl. rewrite E3, E4, E5, Hvar. lia.
    + simpl. by rewrite E5.
Qed.

(** Every event keeps the invariant; every event but [open] keeps the
    balance; every event but [open] and [disconnectSocket] keeps the
    number of cleared timers. *)
Lemma step_Inv (s s' : State) (ev : Event) :
  Inv s → step send_throws s ev = Some s' →
  Inv s'
  ∧ (isOpenEvent ev = false → balance s' = balance s)
  ∧ (isOpenEvent ev = false → isDisconnect ev = false →
     cleared (log s') = cleared (log s)).
Proof.
  intros Hinv Hstep. destruct ev; simpl in Hstep.
  - injection Hstep as <-. destruct (connectSocket_spec s userId Hinv) as [? Hst].
    split; [done|]. split; [intros _; by apply SameTimers_balance|by destruct Hst].
  - injection Hstep as <-. destruct (disconnectSocket_Inv s Hinv) as [? ?]. done.
  - injection Hstep as <-. destruct (submit_Keeps false s (message conversationId text attachments) Hinv)
      as (? & ? & ?). done.
  - injection Hstep as <-. destruct (submit_Keeps false s (edit_message messageId content) Hinv)
      as (? & ? & ?). done.
  - injection Hstep as <-. destruct (submit_Keeps true s (add_reaction messageId emoji) Hinv)
      as (? & ? & ?). done.
  - injection Hstep as <-. destruct (submit_Keeps true s (remove_reaction messageId emoji) Hinv)
      as (? & ? & ?). done.
  - injection Hstep as <-.
    destruct (Keeps_Quiet s _ Hinv (sendTypingNotification_quiet s conversationId))
      as (? & ? & ?). done.
  - destruct (sockets s !! sock) as [w|] eqn:Hw; [|done]. simpl in Hstep.
    destruct (readyState w) eqn:Hr; try done. injection Hstep as <-.
    split; [|done]. apply onopen_Inv, set_readyState_Inv; [done|]. left.
    destruct (decide (socket s = Some sock)) as [?|Hne]; [done|].
    destruct Hinv as [_ _ _ Hstale].
    destruct (Hstale sock w Hw Hne) as [?|?]; congruence.
  - destruct (sockets s !! sock) as [w|] eqn:Hw; [|done]. simpl in Hstep.
    assert (Hk : Keeps s (onclose (set_readyState s sock CLOSED))).
    { apply Keeps_reconnectSocket, Keeps_SameTimers;
        [|apply set_readyState_SameTimers].
      apply set_readyState_Inv; [done|]. by right; right. }
    destruct Hk as (? & ? & ?).
    destruct (readyState w); try done; injection Hstep as <-; done.
  - destruct (sockets s !! sock); [|done]. injection Hstep as <-. done.
  - destruct (decide (timer ∈ (pendingTimers s).*1)) as [Hin|]; [|done].
    injection Hstep as <-. destruct (fire_Keeps s timer Hinv Hin) as (? & ? & ?). done.
Qed.

Lemma Inv_initial : Inv initial.
Proof. constructor; simpl; try done. by left. Qed.

Lemma run_Inv (evs : list Event) (s s' : State) :
  Inv s → run send_throws s evs = Some s' → Inv s'.
Proof.
  revert s. induction evs as [|ev evs IH]; intros s Hinv; simpl.
  - by intros [= <-].
  - destruct (step send_throws s ev) as [s1|] eqn:Hstep; [|done].
    intros Hrun. apply (IH s1); [|done]. by apply (step_Inv s s1 ev).
Qed.

Lemma run_balance (evs : list Event) (s s' : State) :
  Inv s →
  Forall (λ ev, isOpenEvent ev = false) evs →
  run send_throws s evs = Some s' →
  balance s' = balance s
  ∧ (Forall (λ ev, isDisconnect ev = false) evs →
     cleared (log s') = cleared (log s)).
Proof.
  revert s. induction evs as [|ev evs IH]; intros s Hinv Hevs; simpl.
  - by intros [= <-].
  - destruct (step send_throws s ev) as [s1|] eqn:Hstep; [|done].
    apply Forall_cons in Hevs as [Hopen Hevs].
    destruct (step_Inv s s1 ev Hinv Hstep) as (Hinv1 & Hb & Hc).
    intros Hrun. destruct (IH s1 Hinv1 Hevs Hrun) as [Hb' Hc'].
    split; [by rewrite Hb', Hb|]. intros Hdis.
    apply Forall_cons in Hdis as [Hdis Hdis']. by rewrite Hc', Hc.
Qed.

Lemma onopen_attempts (s : State) (k : nat) :
  reconnectAttempts (onopen send_throws s k) = 0.
Proof.
  unfold onopen.
  pose proof (sendAuthMessage_quiet (set_attempts s 0)
                (default 0 (captured <$> sockets (set_attempts s 0) !! k))) as Hq.
  destruct (sendAuthMessage send_throws (set_attempts s 0) _) as [s1 threw].
  simpl in Hq. destruct Hq as [_ _ _ _ Ha _ _ _]. simpl in Ha.
  destruct threw; [done|].
  destruct (processMessageQueue_quiet s1) as [_ _ _ _ Ha' _ _ _].
  unfold clearReconnectTimer.
  destruct (socketReconnectTimer _); simpl; congruence.
Qed.

Lemma Exhausted_openSocket (s : State) : Exhausted s → openSocket s = None.
Proof.
  intros (_ & _ & Hall). unfold openSocket.
  destruct (socket s) as [k|]; [|done].
  destruct (sockets s !! k) as [w|] eqn:Hw; [|done].
  destruct (decide (readyState w = OPEN)) as [Ho|]; [|done].
  apply (proj1 (Forall_lookup _ _) Hall) in Hw as [?|?]; congruence.
Qed.

Lemma step_Exhausted (s s' : State) (ev : Event) :
  Exhausted s → manual ev = false → step send_throws s ev = Some s' →
  Exhausted s'
  ∧ scheduled (log s') = scheduled (log s)
  ∧ created (log s') = created (log s).
Proof.
  intros Hex Hman Hstep. pose proof (Exhausted_openSocket s Hex) as Hopen.
  pose proof Hex as (Ha & Hp & Hall).
  assert (Hsubmit : ∀ flag m,
             Exhausted (submit send_throws flag s m)
             ∧ scheduled (log (submit send_throws flag s m)) = scheduled (log s)
             ∧ created (log (submit send_throws flag s m)) = created (log s)).
  { intros flag m. unfold submit. rewrite Hopen.
    rewrite (reconnectSocket_exhausted
               (set_queue_log s (messageQueue s ++ [m]) (log s))) by done.
    by destruct (noSocketOrClosed _). }
  destruct ev; simpl in Hstep, Hman; try done; try (injection Hstep as <-; by apply Hsubmit).
  - injection Hstep as <-. unfold sendTypingNotification. by rewrite Hopen.
  - destruct (sockets s !! sock) as [w|] eqn:Hw; [|done]. simpl in Hstep.
    apply (proj1 (Forall_lookup _ _) Hall) in Hw as [Hw|Hw]; rewrite Hw in Hstep; done.
  - assert (Hgoal : Exhausted (onclose (set_readyState s sock CLOSED))
                    ∧ scheduled (log (onclose (set_readyState s sock CLOSED)))
                      = scheduled (log s)
                    ∧ created (log (onclose (set_readyState s sock CLOSED)))
                      = created (log s)).
    { unfold onclose. rewrite reconnectSocket_exhausted by done.
      split; [|done]. split; [done|]. split; [done|]. simpl.
      apply Forall_alter; [done|]. intros w _ _. by right. }
    destruct (sockets s !! sock) as [w|]; [|done]. simpl in Hstep.
    destruct (readyState w); try done; by injection Hstep as <-.
  - destruct (sockets s !! sock); [|done]. by injection Hstep as <-.
  - rewrite Hp in Hstep. simpl in Hstep.
    destruct (decide (timer ∈ [])) as [Hin|]; [|done]. by apply elem_of_nil in Hin.
Qed.

Lemma run_Exhausted (evs : list Event) (s s' : State) :
  Exhausted s → Forall (λ ev, manual ev = false) evs →
  run send_throws s evs = Some s' →
  Exhausted s'
  ∧ scheduled (log s') = scheduled (log s)
  ∧ created (log s') = created (log s).
Proof.
  revert s. induction evs as [|ev evs IH]; intros s Hex Hevs; simpl.
  - by intros [= <-].
  - destruct (step send_throws s ev) as [s1|] eqn:Hstep; [|done].
    apply Forall_cons in Hevs as [Hman Hevs].
    destruct (step_Exhausted s s1 ev Hex Hman Hstep) as (Hex1 & Hs1 & Hc1).
    intros Hrun. destruct (IH s1 Hex1 Hevs Hrun) as (? & Hs' & Hc').
    rewrite Hs', Hc', Hs1, Hc1. done.
Qed.

End Reconnection.

Section ReconnectionTheorem.
Import Client.
Variable send_throws : list Effect → Outbound → bool.

(** C7, as amended. In every state the client reaches from its initial state:
    at most one reconnection timer is pending, it is the one held in
    [socketReconnectTimer] and its delay is [RECONNECT_DELAY_MS] (3000);
    the attempt counter stays between 0 and [MAX_RECONNECT_ATTEMPTS] (5)
    and an [open] event resets it to 0; over any further events without
    an [open] the timers scheduled exceed the timers cancelled by at
    most five, and no timer is cancelled, so at most five are
    scheduled, when [disconnectSocket] is not called either; when the
    counter stands at five and the current socket is closing or closed the
    client is [Exhausted]; and an exhausted client stays exhausted,
    schedules no timer and creates no socket, under every event other
    than a call of [connectSocket] or [disconnectSocket]. *)
Theorem reconnection_bounded (evs : list Event) (s : State) :
  run send_throws initial evs = Some s →
  (length (pendingTimers s) ≤ 1)%nat
  ∧ (∀ t delay, (t, delay) ∈ pendingTimers s →
                delay = 3000 ∧ socketReconnectTimer s = Some t)
  ∧ 0 ≤ reconnectAttempts s ≤ 5
  ∧ (∀ k s', step send_throws s (SocketOpen k) = Some s' → reconnectAttempts s' = 0)
  ∧ (∀ evs' s',
       Forall (λ ev, isOpenEvent ev = false) evs' →
       run send_throws s evs' = Some s' →
       (scheduled (log s') + cleared (log s)
        ≤ scheduled (log s) + cleared (log s') + 5)%nat
       ∧ (Forall (λ ev, isDisconnect ev = false) evs' →
          (scheduled (log s') ≤ scheduled (log s) + 5)%nat))
  ∧ (reconnectAttempts s = 5 →
     (∀ k w, socket s = Some k → sockets s !! k = Some w → closingOrClosed w) →
     Exhausted s)
  ∧ (Exhausted s →
     ∀ evs' s',
       Forall (λ ev, manual ev = false) evs' →
       run send_throws s evs' = Some s' →
       Exhausted s'
       ∧ scheduled (log s') = scheduled (log s)
       ∧ created (log s') = created (log s)).
Proof.
  intros Hrun.
  pose proof (run_Inv send_throws evs initial s Inv_initial Hrun) as Hinv.
  pose proof Hinv as [Ht Ha Hb Hstale].
  unfold MAX_RECONNECT_ATTEMPTS, RECONNECT_DELAY_MS in *.
  split; [|split; [|split; [|split; [|split; [|split]]]]].
  - destruct Ht as [->|(t & _ & ->)]; simpl; lia.
  - intros t delay Hin. destruct Ht as [Hp|(t' & Hv & Hp)]; rewrite Hp in Hin.
    + by apply elem_of_nil in Hin.
    + apply list_elem_of_singleton in Hin. injection Hin as -> ->. done.
  - destruct (socketReconnectTimer s); lia.
  - intros k s' Hstep. simpl in Hstep.
    destruct (readyState <$> sockets s !! k) as [[]|]; try done.
    injection Hstep as <-. apply onopen_attempts.
  - intros evs' s' Hevs Hrun'.
    destruct (run_balance send_throws evs' s s' Hinv Hevs Hrun') as [Hbal Hcl].
    pose proof (run_Inv send_throws evs' s s' Hinv Hrun') as [_ Ha' Hb' _].
    unfold balance, budget, MAX_RECONNECT_ATTEMPTS in *.
    split.
    + destruct (socketReconnectTimer s), (socketReconnectTimer s'); lia.
    + intros Hdis. specialize (Hcl Hdis).
      destruct (socketReconnectTimer s), (socketReconnectTimer s'); lia.
  - intros Hfive Hcur. split; [done|]. split.
    + destruct Ht as [?|(t & Hv & _)]; [done|]. rewrite Hv in Hb. lia.
    + apply Forall_lookup. intros k w Hw.
      destruct (decide (socket s = Some k)) as [Hk|Hk]; [by apply (Hcur k)|].
      by apply (Hstale k).
  - intros Hex evs' s' Hevs Hrun'.
    by apply (run_Exhausted send_throws evs' s s').
Qed.

End ReconnectionTheorem.

(** ** The client statements on concrete runs *)

Section OnClientScenario.
Import Client ClientScenario.

Lemma processMessageQueue_fifo_witness :
  let s' := processMessageQueue flaky backlog in
  ∃ sent,
    messageQueue backlog = sent ++ messageQueue s'
    ∧ log s' = log backlog ++ ((λ m, Send 0 (queued m)) <$> sent)
    ∧ match messageQueue s' with
      | [] => True
      | m :: _ => flaky (log s') (queued m) = true
      end
    ∧ ((∀ l m, flaky l m = false) →
       messageQueue s' = []
       ∧ log s' = log backlog ++ ((λ m, Send 0 (queued m)) <$> messageQueue backlog))
    ∧ s' = set_queue_log backlog (messageQueue s') (log s').
Proof.
  apply (processMessageQueue_fifo flaky backlog 0%nat). vm_compute. reflexivity.
Defined.

(** C7: seven timers are scheduled with no open in between, six of
    them cancelled by [disconnectSocket] before they fire. *)
Lemma at_most_five_timers_without_open_counterexample :
  ¬ Claims.at_most_five_timers_without_open.
Proof.
  intros Hbound.
  assert (Hrun : run never initial restless = Some worn) by (vm_compute; reflexivity).
  assert (Hevs : Forall (λ ev, isOpenEvent ev = false) restless)
    by (repeat constructor).
  pose proof (Hbound never [] restless initial worn eq_refl Hevs Hrun) as Hle.
  assert (Hseven : scheduled (log worn) = 7%nat) by (vm_compute; reflexivity).
  rewrite Hseven in Hle. simpl in Hle. lia.
Qed.

Lemma reconnection_bounded_witness :
  (length (pendingTimers gaveUp) ≤ 1)%nat
  ∧ 0 ≤ reconnectAttempts gaveUp ≤ 5
  ∧ Exhausted gaveUp
  ∧ ∀ evs' s',
      Forall (λ ev, manual ev = false) evs' →
      run never gaveUp evs' = Some s' →
      Exhausted s'
      ∧ scheduled (log s') = scheduled (log gaveUp)
      ∧ created (log s') = created (log gaveUp).
Proof.
  destruct (reconnection_bounded never retries gaveUp)
    as (Hone & _ & Hrange & _ & _ & Hlink & Hstay).
  { vm_compute. reflexivity. }
  assert (Hex : Exhausted gaveUp).
  { apply Hlink; [vm_compute; reflexivity|].
    intros k w Hk Hw. vm_compute in Hk. injection Hk as <-.
    vm_compute in Hw. injection Hw as <-. by right. }
  split; [exact Hone|]. split; [exact Hrange|]. split; [exact Hex|].
  exact (Hstay Hex).
Defined.

End OnClientScenario.


(** ** Storage: removing reactions, editing, presence flag *)

Section StorageExtras.
Import Schema Storage StorageMore.

Lemma removeReaction_first (d : Db) (messageId userId : Z) (emoji : string)
  (m : Message) (sender : UserPublic) :
  selectMessage d messageId = Ok (Some m) →
  selectPublic d (m_senderId m) = Some sender →
  removeReactionFromMessage d messageId userId emoji
  = (with_messages d
       ((λ x, if decide (m_id x = messageId)
              then set_reactions x
                     (filter (λ r, ¬ sameReaction userId emoji r)
                        (default [] (m_reactions m)))
              else x) <$> messages d) (next_message_id d),
     Ok (Some {| ms_message :=
                   set_reactions m
                     (filter (λ r, ¬ sameReaction userId emoji r)
                        (default [] (m_reactions m)));
                 ms_sender := sender |})).
Proof.
  intros Hm Hs. unfold removeReactionFromMessage. rewrite Hm.
  rewrite messageRow_updated by done. rewrite (selectMessage_row _ _ _ Hm). simpl.
  unfold selectPublic in *. simpl. by rewrite Hs.
Qed.

Lemma filter_all {A} (P : A → Prop) `{∀ x, Decision (P x)} (l : list A) :
  (∀ x, x ∈ l → P x) → filter P l = l.
Proof.
  induction l as [|x l IH]; intros Hall; [done|].
  rewrite filter_cons, decide_True by (apply Hall; by left).
  f_equal. apply IH. intros y Hy. apply Hall. by right.
Qed.

Lemma filter_other_reactions (userId : Z) (emoji : string) (rs : list Reaction) :
  filter (λ r, ¬ sameReaction userId emoji r) rs
  = filter (λ r, r ≠ {| r_emoji := emoji; r_userId := userId |}) rs.
Proof.
  apply list_filter_iff. intros r. by rewrite sameReaction_eq.
Qed.

(** X1. Removing a reaction from an existing message writes to the
    store, and returns, the message without any occurrence of that
    user's emoji and with the other reactions in their order; rows with
    another id are left as they were. When the reaction is not there the
    reaction list is what it was (an absent list is written as the
    empty list), and removing the same reaction again changes nothing. *)
Theorem removeReactionFromMessage_removes (d : Db) (messageId userId : Z)
  (emoji : string) (m : Message) (sender : UserPublic) :
  selectMessage d messageId = Ok (Some m) →
  selectPublic d (m_senderId m) = Some sender →
  let r := {| r_emoji := emoji; r_userId := userId |} in
  let old := default [] (m_reactions m) in
  let rest := filter (λ x, x ≠ r) old in
  ∃ d1 m1,
    removeReactionFromMessage d messageId userId emoji = (d1, Ok (Some m1))
    ∧ ms_message m1 = set_reactions m rest
    ∧ ms_sender m1 = sender
    ∧ selectMessage d1 messageId = Ok (Some (ms_message m1))
    ∧ length (messages d1) = length (messages d)
    ∧ (∀ i row, m_id row ≠ messageId →
                messages d !! i = Some row ↔ messages d1 !! i = Some row)
    ∧ (r ∉ rest)
    ∧ (r ∉ old → rest = old)
    ∧ removeReactionFromMessage d1 messageId userId emoji = (d1, Ok (Some m1)).
Proof.
  intros Hm Hs r old rest. unfold rest.
  pose proof (removeReaction_first d messageId userId emoji m sender Hm Hs) as Hfirst.
  rewrite filter_other_reactions in Hfirst. fold r old in Hfirst.
  set (rs := filter (λ x, x ≠ r) old) in *.
  set (d1 := with_messages d
               ((λ x, if decide (m_id x = messageId) then set_reactions x rs else x)
                  <$> messages d) (next_message_id d)) in *.
  assert (Hm1 : selectMessage d1 messageId = Ok (Some (set_reactions m rs))).
  { unfold d1. rewrite selectMessage_updated by done. by rewrite Hm. }
  exists d1, {| ms_message := set_reactions m rs; ms_sender := sender |}.
  split; [exact Hfirst|]. split; [done|]. split; [done|]. split; [exact Hm1|].
  split; [unfold d1; simpl; apply length_fmap|].
  split; [intros i row Hne; unfold d1; simpl; by apply lookup_update_other|].
  split.
  { unfold rs. intros Hin. apply list_elem_of_filter in Hin as [Hne _]. done. }
  split.
  { intros Hnot. unfold rs.
    apply filter_all. intros x Hx ->. done. }
  rewrite (removeReaction_first d1 messageId userId emoji _ sender Hm1 Hs).
  rewrite filter_other_reactions. simpl. fold r.
  assert (Hrs : filter (λ x, x ≠ r) rs = rs).
  { unfold rs. rewrite list_filter_filter. apply list_filter_iff. intros x. tauto. }
  rewrite Hrs. f_equal.
  unfold d1, with_messages. simpl. f_equal.
  apply (fmap_update_twice m_id (λ x, set_reactions x rs) (λ x, set_reactions x rs)); done.
Qed.

(** X2. Adding a reaction that the message does not have and then
    removing it gives back the reaction list the message had. *)
Theorem add_then_remove_reaction (d : Db) (messageId : Z)
  (reaction : MessageReaction) (m : Message) (sender : UserPublic) :
  selectMessage d messageId = Ok (Some m) →
  selectPublic d (m_senderId m) = Some sender →
  {| r_emoji := mr_emoji reaction; r_userId := mr_userId reaction |}
    ∉ default [] (m_reactions m) →
  ∃ m2,
    (removeReactionFromMessage (addReactionToMessage d messageId reaction).1
       messageId (mr_userId reaction) (mr_emoji reaction)).2 = Ok (Some m2)
    ∧ m_reactions (ms_message m2) = Some (default [] (m_reactions m))
    ∧ m_id (ms_message m2) = m_id m
    ∧ m_content (ms_message m2) = m_content m.
Proof.
  intros Hm Hs Hnot.
  destruct (addReaction_first d messageId reaction m sender Hm Hs) as (rs & Hadd & _ & Hrs).
  apply find_reaction_None in Hnot as Hfind. rewrite Hfind in Hrs.
  rewrite Hadd. simpl.
  set (d1 := with_messages d _ _).
  assert (Hm1 : selectMessage d1 messageId = Ok (Some (set_reactions m rs))).
  { unfold d1. rewrite selectMessage_updated by done. by rewrite Hm. }
  rewrite (removeReaction_first d1 messageId _ _ _ sender Hm1 Hs). simpl.
  eexists. split; [reflexivity|]. simpl. split; [|done].
  f_equal. rewrite filter_other_reactions, Hrs, filter_app.
  rewrite filter_all by (intros x Hx ->; done).
  rewrite filter_cons, decide_False by (intros H; by apply H).
  by rewrite filter_nil, app_nil_r.
Qed.

End StorageExtras.


Section StorageEdits.
Import Schema Storage StorageMore.

(** X3. [updateMessage] on an existing message whose sender exists
    returns the message with the new content, the edited flag set and
    the clock as update time, and with its id, conversation, sender,
    creation time, attachments and reactions as they were; every row
    with another id is left as it was. *)
Theorem updateMessage_edits_one (d : Db) (messageId : Z) (text : string)
  (m : Message) (sender : UserPublic) :
  selectMessage d messageId = Ok (Some m) →
  selectPublic d (m_senderId m) = Some sender →
  ∃ d1 m1,
    updateMessage d messageId text = (d1, Ok (Some m1))
    ∧ ms_sender m1 = sender
    ∧ m_content (ms_message m1) = text
    ∧ m_isEdited (ms_message m1) = true
    ∧ m_updatedAt (ms_message m1) = Some (now d)
    ∧ (m_id (ms_message m1), m_conversationId (ms_message m1),
       m_senderId (ms_message m1), m_createdAt (ms_message m1),
       m_attachments (ms_message m1), m_reactions (ms_message m1))
      = (m_id m, m_conversationId m, m_senderId m, m_createdAt m,
         m_attachments m, m_reactions m)
    ∧ selectMessage d1 messageId = Ok (Some (ms_message m1))
    ∧ length (messages d1) = length (messages d)
    ∧ ∀ i row, m_id row ≠ messageId →
               messages d !! i = Some row ↔ messages d1 !! i = Some row.
Proof.
  intros Hm Hs. unfold updateMessage. rewrite Hm.
  rewrite messageRow_updated by done. rewrite (selectMessage_row _ _ _ Hm). simpl.
  unfold selectPublic in *. simpl. rewrite Hs.
  eexists _, _. split; [reflexivity|]. simpl.
  do 5 (split; [done|]).
  split; [rewrite selectMessage_updated by done; by rewrite Hm|].
  split; [apply length_fmap|].
  intros i row Hne. rewrite list_lookup_fmap. split.
  - intros Hi. rewrite Hi. simpl. by rewrite decide_False.
  - intros Hi.
    destruct (messages d !! i) as [row'|] eqn:Hrow; [|done]. simpl in Hi.
    destruct (decide (m_id row' = messageId)) as [Heq|Hne']; [|congruence].
    injection Hi as <-. simpl in Hne. done.
Qed.

(** X4. [updateUserOnlineStatus] sets the flag of the rows with the
    given id and of no other row; it returns the updated row, or nothing
    when no row has the id, in which case the table is unchanged; doing
    it twice is the same as doing it once. *)
Theorem updateUserOnlineStatus_spec (d : Db) (id : Z) (isOnline : bool) :
  let d1 := (updateUserOnlineStatus d id isOnline).1 in
  (∀ i row, users d !! i = Some row →
            users d1 !! i
            = Some (if decide (u_id row = id) then set_isOnline row isOnline else row))
  ∧ (updateUserOnlineStatus d id isOnline).2
    = (λ row, set_isOnline row isOnline) <$> getUser d id
  ∧ (getUser d id = None → d1 = d)
  ∧ updateUserOnlineStatus d1 id isOnline
    = (d1, (updateUserOnlineStatus d id isOnline).2)
  ∧ (conversations d1, conversationMembers d1, messages d1)
    = (conversations d, conversationMembers d, messages d).
Proof.
  intros d1. unfold d1, updateUserOnlineStatus. simpl.
  assert (Hhead : head (filter (λ u, u_id u = id)
                          ((λ u, if decide (u_id u = id)
                                 then set_isOnline u isOnline else u) <$> users d))
                  = (λ row, set_isOnline row isOnline) <$> getUser d id).
  { unfold getUser. rewrite (head_filter_fmap u_id);
      [|intros x; by destruct (decide _)].
    destruct (head (filter (λ u, u_id u = id) (users d))) as [u|] eqn:Hu; [|done].
    simpl. apply head_Some_elem_of, list_elem_of_filter in Hu as [Hu _].
    by rewrite decide_True. }
  split; [|split; [exact Hhead|split; [|split; [|done]]]].
  - intros i row Hi. by rewrite list_lookup_fmap, Hi.
  - intros Hnone. destruct d as [us cs cms ms nx nw]. unfold with_users. simpl in *.
    f_equal. rewrite <- (list_fmap_id us) at 2. apply list_fmap_ext.
    intros i u Hu. simpl. destruct (decide (u_id u = id)) as [Heq|]; [|done].
    exfalso. unfold getUser in Hnone. simpl in Hnone.
    assert (is_Some (head (filter (λ u, u_id u = id) us))) as [? ?].
    { apply head_filter_is_Some. exists u. split; [|done].
      by apply list_elem_of_lookup_2 in Hu. }
    congruence.
  - f_equal.
    + unfold with_users. simpl. f_equal.
      apply (fmap_update_twice u_id (λ u, set_isOnline u isOnline)
               (λ u, set_isOnline u isOnline)); done.
    + rewrite (fmap_update_twice u_id (λ u, set_isOnline u isOnline)
                 (λ u, set_isOnline u isOnline)) by done.
      done.
Qed.

End StorageEdits.


(** ** Storage: message ids, and what the operations leave alone *)

Section StorageInvariants.
Import Schema Storage StorageMore.

Lemma filter_none {A} (P : A → Prop) `{∀ x, Decision (P x)} (l : list A) :
  (∀ x, x ∈ l → ¬ P x) → filter P l = [].
Proof.
  induction l as [|x l IH]; intros Hall; [done|].
  rewrite filter_cons, decide_False by (apply Hall; by left).
  apply IH. intros y Hy. apply Hall. by right.
Qed.

Lemma Extends_refl (d : Db) : Extends d d.
Proof. by repeat split. Qed.

Lemma Extends_trans (d1 d2 d3 : Db) : Extends d1 d2 → Extends d2 d3 → Extends d1 d3.
Proof.
  intros (E1 & E2 & E3 & E4) (F1 & F2 & F3 & F4).
  repeat split; try congruence. by etrans.
Qed.

Lemma update_rows_ids (f : Message → Message) (k : Z) (l : list Message) :
  (∀ x, m_id (f x) = m_id x) →
  m_id <$> ((λ m, if decide (m_id m = k) then f m else m) <$> l) = m_id <$> l.
Proof.
  intros Hid. rewrite <- list_fmap_compose. apply list_fmap_ext.
  intros i x _. simpl. by destruct (decide _).
Qed.

Lemma update_rows_Extends_Wf (d : Db) (f : Message → Message) (k : Z) :
  (∀ x, m_id (f x) = m_id x) →
  let d' := with_messages d
              ((λ m, if decide (m_id m = k) then f m else m) <$> messages d)
              (next_message_id d) in
  Extends d d' ∧ (MessagesWf d → MessagesWf d').
Proof.
  intros Hid d'. split.
  - repeat split; try done. unfold d'. simpl. by rewrite update_rows_ids.
  - intros [Hnd Hlt]. split.
    + unfold d'. simpl. by rewrite update_rows_ids.
    + unfold d'. simpl. intros m Hm.
      apply list_elem_of_fmap in Hm as (m0 & -> & Hm0).
      destruct (decide _); rewrite ?Hid; by apply Hlt.
Qed.

Lemma updateMessage_keeps (d : Db) (messageId : Z) (text : string) :
  Extends d (updateMessage d messageId text).1
  ∧ (MessagesWf d → MessagesWf (updateMessage d messageId text).1).
Proof.
  unfold updateMessage.
  destruct (selectMessage d messageId) as [[m|]|e];
    [|split; [apply Extends_refl|done]..].
  pose proof (update_rows_Extends_Wf d (λ m, set_edited m text (now d)) messageId
                (λ _, eq_refl)) as H. simpl in H.
  repeat case_match; exact H.
Qed.

Lemma addReactionToMessage_keeps (d : Db) (messageId : Z) (reaction : MessageReaction) :
  Extends d (addReactionToMessage d messageId reaction).1
  ∧ (MessagesWf d → MessagesWf (addReactionToMessage d messageId reaction).1).
Proof.
  unfold addReactionToMessage.
  destruct (selectMessage d messageId) as [[m|]|e];
    [|split; [apply Extends_refl|done]..].
  cbv zeta.
  match goal with
  | |- context [set_reactions _ ?rs] =>
      pose proof (update_rows_Extends_Wf d (λ m, set_reactions m rs) messageId
                    (λ _, eq_refl)) as H
  end.
  simpl in H. repeat case_match; exact H.
Qed.

Lemma removeReactionFromMessage_keeps (d : Db) (messageId userId : Z) (emoji : string) :
  Extends d (removeReactionFromMessage d messageId userId emoji).1
  ∧ (MessagesWf d → MessagesWf (removeReactionFromMessage d messageId userId emoji).1).
Proof.
  unfold removeReactionFromMessage.
  destruct (selectMessage d messageId) as [[m|]|e];
    [|split; [apply Extends_refl|done]..].
  cbv zeta.
  match goal with
  | |- context [set_reactions _ ?rs] =>
      pose proof (update_rows_Extends_Wf d (λ m, set_reactions m rs) messageId
                    (λ _, eq_refl)) as H
  end.
  simpl in H. repeat case_match; exact H.
Qed.

Lemma updateUserOnlineStatus_keeps (d : Db) (id : Z) (b : bool) :
  Extends d (updateUserOnlineStatus d id b).1
  ∧ (MessagesWf d → MessagesWf (updateUserOnlineStatus d id b).1).
Proof.
  split; [|done]. repeat split; try done.
  apply updateUserOnlineStatus_ids.
Qed.

Lemma createMessage_keeps (d : Db) (data : InsertMessage) :
  Extends d (createMessage d data).1
  ∧ (MessagesWf d → MessagesWf (createMessage d data).1).
Proof.
  unfold createMessage. destruct (bool_decide _); [|split; [apply Extends_refl|done]].
  assert (H : let d' := with_messages d
                          (messages d ++
                             [{| m_id := next_message_id d;
                                 m_conversationId := im_conversationId data;
                                 m_senderId := im_senderId data;
                                 m_content := im_content data;
                                 m_createdAt := now d; m_updatedAt := None;
                                 m_isEdited := false;
                                 m_attachments := im_attachments data;
                                 m_reactions := None |}])
                          (next_message_id d + 1) in
              Extends d d' ∧ (MessagesWf d → MessagesWf d')).
  { intros d'. split.
    - repeat split; try done. unfold d'. simpl. rewrite fmap_app.
      by apply prefix_app_r.
    - intros [Hnd Hlt]. split.
      + unfold d'. simpl. rewrite fmap_app. apply NoDup_app.
        split; [done|]. split; [|apply NoDup_singleton].
        intros x Hx Hx'. simpl in Hx'. apply list_elem_of_singleton in Hx'. subst x.
        apply list_elem_of_fmap in Hx as (m & Hid & Hm).
        specialize (Hlt m Hm). lia.
      + unfold d'. simpl. intros m Hm. apply elem_of_app in Hm as [Hm|Hm].
        * specialize (Hlt m Hm). lia.
        * apply list_elem_of_singleton in Hm. subst m. simpl. lia. }
  simpl in H. simpl. by destruct (selectPublic _ _).
Qed.

(** X5. [createMessage] on a store whose message ids are pairwise
    different and below the sequence: the new message gets an id that no
    message had, is appended after the existing messages, is the row
    the table holds under that id, comes back with the public profile of
    its sender, and the ids stay pairwise different and below the
    sequence. *)
Theorem createMessage_fresh_id (d d' : Db) (data : InsertMessage)
  (saved : MessageWithSender) :
  MessagesWf d →
  createMessage d data = (d', Ok saved) →
  (m_id (ms_message saved) ∉ (m_id <$> messages d))
  ∧ messages d' = messages d ++ [ms_message saved]
  ∧ messageRow d' (m_id (ms_message saved)) = Some (ms_message saved)
  ∧ (int4 (m_id (ms_message saved)) →
     selectMessage d' (m_id (ms_message saved)) = Ok (Some (ms_message saved)))
  ∧ selectPublic d (m_senderId (ms_message saved)) = Some (ms_sender saved)
  ∧ MessagesWf d'.
Proof.
  intros Hwf Hcreate.
  pose proof (createMessage_keeps d data) as [_ Hwf']. rewrite Hcreate in Hwf'.
  specialize (Hwf' Hwf). simpl in Hwf'.
  unfold createMessage in Hcreate. destruct (bool_decide _); [|done].
  unfold selectPublic in Hcreate. simpl in Hcreate.
  destruct (head (filter _ (users d))) as [u|] eqn:Hu; [|done].
  simpl in Hcreate. injection Hcreate as <- <-. simpl.
  destruct Hwf as [Hnd Hlt].
  assert (Hfresh : next_message_id d ∉ (m_id <$> messages d)).
  { intros Hin. apply list_elem_of_fmap in Hin as (m & Hid & Hm).
    specialize (Hlt m Hm). lia. }
  assert (Hrow : messageRow
                   (with_messages d
                      (messages d ++
                         [{| m_id := next_message_id d;
                             m_conversationId := im_conversationId data;
                             m_senderId := im_senderId data;
                             m_content := im_content data;
                             m_createdAt := now d; m_updatedAt := None;
                             m_isEdited := false;
                             m_attachments := im_attachments data;
                             m_reactions := None |}])
                      (next_message_id d + 1))
                   (next_message_id d)
                 = Some {| m_id := next_message_id d;
                           m_conversationId := im_conversationId data;
                           m_senderId := im_senderId data;
                           m_content := im_content data;
                           m_createdAt := now d; m_updatedAt := None;
                           m_isEdited := false;
                           m_attachments := im_attachments data;
                           m_reactions := None |}).
  { unfold messageRow. simpl. rewrite filter_app.
    assert (Hnone : filter (λ m, m_id m = next_message_id d) (messages d) = []).
    { apply filter_none. intros m Hm Hid. apply Hfresh.
      apply list_elem_of_fmap. by exists m. }
    rewrite Hnone. simpl. rewrite filter_cons. simpl. by rewrite decide_True. }
  split; [exact Hfresh|]. split; [done|]. split; [exact Hrow|].
  split; [|split; [|exact Hwf']].
  - intros Hk. apply selectMessage_Some. by split.
  - unfold selectPublic. simpl. by rewrite Hu.
Qed.

End StorageInvariants.


(** ** Storage: listings *)

Section StorageListings.
Import Schema Storage StorageMore.

Lemma insertByDate_sorted (d : Db) (a : ConversationWithMembers)
  (l : list ConversationWithMembers) :
  StronglySorted (λ x y, sortDate d y ≤ sortDate d x) l →
  StronglySorted (λ x y, sortDate d y ≤ sortDate d x) (insertByDate d a l).
Proof.
  induction l as [|b l IH]; intros Hs; simpl.
  - constructor; [constructor|constructor].
  - apply StronglySorted_inv in Hs as [Hs Hall].
    destruct (sortDate d b <=? sortDate d a) eqn:Hle.
    + apply Z.leb_le in Hle. constructor; [by constructor|].
      constructor; [done|]. eapply Forall_impl; [exact Hall|].
      intros y Hy. simpl in Hy. lia.
    + apply Z.leb_gt in Hle. constructor; [by apply IH|].
      apply Forall_forall. intros y Hy. apply insertByDate_elem in Hy as [->|Hy].
      * lia.
      * by apply (proj1 (Forall_forall _ _) Hall).
Qed.

Lemma insertByDate_Permutation (d : Db) (a : ConversationWithMembers)
  (l : list ConversationWithMembers) :
  insertByDate d a l ≡ₚ a :: l.
Proof.
  induction l as [|b l IH]; simpl; [done|].
  destruct (_ <=? _); [done|]. rewrite IH. apply perm_swap.
Qed.

Lemma sortByDate_Permutation (d : Db) (l : list ConversationWithMembers) :
  sortByDate d l ≡ₚ l.
Proof.
  unfold sortByDate. induction l as [|a l IH]; simpl; [done|].
  by rewrite insertByDate_Permutation, IH.
Qed.

(** X6. [getConversationsForUser] returns the conversations named by
    the user's membership rows that exist, once per row, ordered from the
    most recent sort date (last message, else creation, else now) to the
    oldest. *)
Theorem getConversationsForUser_sorted (d : Db) (userId : Z) :
  StronglySorted (λ x y, sortDate d y ≤ sortDate d x) (getConversationsForUser d userId)
  ∧ getConversationsForUser d userId
    ≡ₚ omap (getConversationById d)
         (cm_conversationId <$>
            filter (λ m, cm_userId m = userId) (conversationMembers d))
  ∧ ∀ conv, conv ∈ getConversationsForUser d userId ↔
      ∃ id, {| cm_conversationId := id; cm_userId := userId |} ∈ conversationMembers d
            ∧ getConversationById d id = Some conv.
Proof.
  split; [|split].
  - unfold getConversationsForUser, sortByDate.
    induction (omap _ _) as [|a l IH]; simpl; [constructor|].
    by apply insertByDate_sorted.
  - apply sortByDate_Permutation.
  - intros conv. apply getConversationsForUser_elem.
Qed.

Lemma latest_spec (l : list Message) :
  match latest l with
  | None => l = []
  | Some m => m ∈ l ∧ ∀ m', m' ∈ l → m_createdAt m' ≤ m_createdAt m
  end.
Proof.
  induction l as [|m l IH]; simpl; [done|].
  destruct (latest l) as [m0|].
  - destruct IH as [Hin Hmax].
    destruct (m_createdAt m <? m_createdAt m0) eqn:Hlt.
    + apply Z.ltb_lt in Hlt. split; [by right|].
      intros m' Hm'. apply elem_of_cons in Hm' as [->|Hm']; [lia|by apply Hmax].
    + apply Z.ltb_ge in Hlt. split; [by left|].
      intros m' Hm'. apply elem_of_cons in Hm' as [->|Hm']; [lia|].
      specialize (Hmax m' Hm'). lia.
  - subst l. split; [by left|]. intros m' Hm'.
    apply list_elem_of_singleton in Hm'. subst. lia.
Qed.

(** X7. The [lastMessage] of a conversation returned by
    [getConversationById] is a message of that conversation that no
    message of the conversation is newer than, with the public profile
    of its sender; a conversation that has messages whose senders all
    exist has a [lastMessage]. *)
Theorem getConversationById_lastMessage (d : Db) (id : Z)
  (conv : ConversationWithMembers) :
  getConversationById d id = Some conv →
  (∀ lm, cw_lastMessage conv = Some lm →
         ms_message lm ∈ messages d
         ∧ m_conversationId (ms_message lm) = id
         ∧ selectPublic d (m_senderId (ms_message lm)) = Some (ms_sender lm)
         ∧ ∀ m, m ∈ messages d → m_conversationId m = id →
                m_createdAt m ≤ m_createdAt (ms_message lm))
  ∧ (cw_lastMessage conv = None →
     (∀ m, m ∈ messages d → m_senderId m ∈ u_id <$> users d) →
     ∀ m, m ∈ messages d → m_conversationId m ≠ id).
Proof.
  unfold getConversationById.
  destruct (head (filter (λ c, c_id c = id) (conversations d))); [|done].
  intros [= <-]. simpl.
  pose proof (latest_spec (filter (λ m, m_conversationId m = id) (messages d))) as Hl.
  destruct (latest _) as [m0|].
  - destruct Hl as [Hin Hmax]. apply list_elem_of_filter in Hin as [Hid Hin].
    split.
    + intros lm Hlm. destruct (selectPublic d (m_senderId m0)) as [sender|] eqn:Hs; [|done].
      injection Hlm as <-. simpl. repeat split; try done.
      intros m Hm Hc. apply Hmax. by apply list_elem_of_filter.
    + intros Hnone Hfk. exfalso.
      destruct (proj2 (selectPublic_is_Some d (m_senderId m0)) (Hfk m0 Hin)) as [x Hx].
      by rewrite Hx in Hnone.
  - split; [done|]. intros _ _ m Hm Hc.
    assert (m ∈ filter (λ m, m_conversationId m = id) (messages d)) as Hf
      by by apply list_elem_of_filter.
    rewrite Hl in Hf. by apply elem_of_nil in Hf.
Qed.

End StorageListings.


Section StorageHistory.
Import Schema Storage StorageMore.






Lemma filter_fmap_comm {A B} (f : A → B) (P : B → Prop) `{∀ y, Decision (P y)}
  (l : list A) :
  filter P (f <$> l) = f <$> filter (λ x, P (f x)) l.
Proof.
  induction l as [|x l IH]; [done|].
  rewrite fmap_cons, !filter_cons, IH. by destruct (decide (P (f x))).
Qed.



(** X9. [clearMessagesInConversation] answers [true] exactly when the
    conversation id fits the column [conversation_id]. Then it deletes
    the messages of the conversation and no other message: the history
    of the conversation becomes empty and its last message absent.
    Otherwise the [delete] raises, the answer is [false] and the store
    is as it was. In both cases the history of every other conversation
    is what it was, and users, conversations and membership rows are
    untouched. *)
Theorem clearMessagesInConversation_clears (d : Db) (conversationId : Z) :
  let d' := (clearMessagesInConversation d conversationId).1 in
  ((clearMessagesInConversation d conversationId).2 = true ↔ int4 conversationId)
  ∧ (¬ int4 conversationId → d' = d)
  ∧ (int4 conversationId →
       getMessagesForConversation d' conversationId = []
       ∧ ∀ conv, getConversationById d' conversationId = Some conv →
                 cw_lastMessage conv = None)
  ∧ (∀ other, other ≠ conversationId →
       getMessagesForConversation d' other = getMessagesForConversation d other)
  ∧ (users d', conversations d', conversationMembers d')
    = (users d, conversations d, conversationMembers d).
Proof.
  intros d'. unfold d', clearMessagesInConversation.
  destruct (bool_decide (int4 conversationId)) eqn:Hk.
  - apply bool_decide_eq_true in Hk. simpl.
    split; [done|]. split; [done|]. split; [|split; [|done]].
    + intros _. split.
      * unfold getMessagesForConversation. simpl.
        rewrite list_filter_filter.
        rewrite (filter_none (λ a, m_conversationId a = conversationId
                                   ∧ m_conversationId a ≠ conversationId));
          [reflexivity|]. intros m _ [? ?]. done.
      * intros conv. unfold getConversationById. simpl.
        destruct (head (filter (λ c, c_id c = conversationId) (conversations d)));
          [|done].
        intros [= <-]. simpl.
        rewrite list_filter_filter.
        rewrite (filter_none (λ a, m_conversationId a = conversationId
                                   ∧ m_conversationId a ≠ conversationId));
          [reflexivity|]. intros m _ [? ?]. done.
    + intros other Hne. unfold getMessagesForConversation. simpl.
      rewrite list_filter_filter. f_equal. f_equal.
      apply list_filter_iff. intros m. split; [by intros [? _]|].
      intros Hm. split; [done|congruence].
  - apply bool_decide_eq_false in Hk. simpl.
    split; [split; [done|by intros ?]|]. split; [done|]. split; [done|]. done.
Qed.

(** X10. [removeUserFromConversation] answers [false] and changes
    nothing when the conversation does not exist, and when the
    conversation id or the user id does not fit its column, where a
    query raises; otherwise it answers [true], the user is no longer
    among the members that [getConversationById] returns, and every
    other member stays in place. In every case the members of every
    other conversation are what they were. *)
Theorem removeUserFromConversation_removes (d : Db) (conversationId userId : Z) :
  let d' := (removeUserFromConversation d conversationId userId).1 in
  (getConversationById d conversationId = None ∨ ¬ int4 conversationId ∨ ¬ int4 userId →
   removeUserFromConversation d conversationId userId = (d, false))
  ∧ (∀ conv, getConversationById d conversationId = Some conv →
       int4 conversationId → int4 userId →
       (removeUserFromConversation d conversationId userId).2 = true
       ∧ ∃ conv', getConversationById d' conversationId = Some conv'
                  ∧ cw_members conv'
                    = filter (λ member, up_id member ≠ userId) (cw_members conv))
  ∧ ∀ other, other ≠ conversationId →
      cw_members <$> getConversationById d' other
      = cw_members <$> getConversationById d other.
Proof.
  intros d'. split; [|split].
  - unfold removeUserFromConversation.
    destruct (bool_decide (int4 conversationId)) eqn:Hc; [|done].
    destruct (getConversationById d conversationId); [|done].
    destruct (bool_decide (int4 userId)) eqn:Hu; [|done].
    apply bool_decide_eq_true in Hc, Hu. intros [?|[?|?]]; done.
  - intros conv Hconv Hc Hk. unfold d', removeUserFromConversation.
    rewrite bool_decide_eq_true_2 by done. rewrite Hconv.
    rewrite bool_decide_eq_true_2 by done. simpl.
    split; [done|]. revert Hconv. unfold getConversationById. simpl.
    destruct (head (filter (λ c, c_id c = conversationId) (conversations d))); [|done].
    intros [= <-]. eexists. split; [reflexivity|]. simpl.
    rewrite filter_fmap_comm, (list_filter_filter _ _ (users d)).
    apply (f_equal (fmap publicOf)).
    apply list_filter_iff. intros u. simpl.
    rewrite !list_elem_of_fmap. split.
    + intros ([k q] & Hq & Hrow). simpl in Hq. subst q.
      apply list_elem_of_filter in Hrow as [Hk' Hrow].
      apply list_elem_of_filter in Hrow as [Hnot Hrow]. simpl in *.
      split; [intros Hu; apply Hnot; by split|].
      exists {| cm_conversationId := k; cm_userId := u_id u |}. split; [done|].
      by apply list_elem_of_filter.
    + intros [Hu ([k q] & Hq & Hrow)]. simpl in Hq. subst q.
      apply list_elem_of_filter in Hrow as [Hk' Hrow]. simpl in *.
      exists {| cm_conversationId := k; cm_userId := u_id u |}. split; [done|].
      apply list_elem_of_filter. split; [done|].
      apply list_elem_of_filter. split; [|done]. simpl. intros [_ ?]. done.
  - intros other Hne. unfold d', removeUserFromConversation.
    destruct (bool_decide (int4 conversationId)); [|done].
    destruct (getConversationById d conversationId); [|done].
    destruct (bool_decide (int4 userId)); [|done]. simpl.
    unfold getConversationById. simpl.
    destruct (head (filter (λ c, c_id c = other) (conversations d))); [|done].
    simpl. do 3 f_equal. apply list_filter_iff. intros u.
    rewrite list_filter_filter.
    assert (Hrows : filter (λ a, cm_conversationId a = other
                                 ∧ ¬ (cm_conversationId a = conversationId
                                      ∧ cm_userId a = userId))
                      (conversationMembers d)
                    = filter (λ m, cm_conversationId m = other) (conversationMembers d)).
    { apply list_filter_iff. intros row. split; [by intros [? _]|].
      intros Hrow. split; [done|]. intros [? _]. congruence. }
    by rewrite Hrows.
Qed.

End StorageHistory.

(** ** Gateway: fan-out to any member of a conversation *)

Section GatewayFanout.
Import Schema Storage StorageMore Gateway GatewayMore.

Lemma updateMessage_first (d : Db) (messageId : Z) (text : string)
  (m : Message) (sender : UserPublic) :
  selectMessage d messageId = Ok (Some m) →
  selectPublic d (m_senderId m) = Some sender →
  updateMessage d messageId text
  = (with_messages d
       ((λ x, if decide (m_id x = messageId)
              then set_edited x text (now d) else x) <$> messages d)
       (next_message_id d),
     Ok (Some {| ms_message := set_edited m text (now d); ms_sender := sender |})).
Proof.
  intros Hm Hs. unfold updateMessage. rewrite Hm.
  rewrite messageRow_updated by done. rewrite (selectMessage_row _ _ _ Hm). simpl.
  unfold selectPublic in *. simpl. by rewrite Hs.
Qed.

Lemma members_NoDup (d : Db) (id : Z) (conv : ConversationWithMembers) :
  NoDup (u_id <$> users d) →
  getConversationById d id = Some conv →
  NoDup (up_id <$> cw_members conv).
Proof.
  intros Hnd. unfold getConversationById.
  destruct (head (filter (λ c, c_id c = id) (conversations d))); [|done].
  intros [= <-]. simpl. rewrite <- list_fmap_compose.
  eapply sublist_NoDup; [exact Hnd|].
  apply (fmap_sublist u_id), sublist_filter.
Qed.

(** The connection of a recipient receives exactly one copy of an
    envelope fanned out to the members of the recipient's conversation,
    whatever happened to the messages or to the presence flags in
    between. *)
Lemma recipient_receives (s : State) (d' : Db) (cid p : Z) (cp : Conn)
  (e : Envelope) (skip : Z → bool) :
  Recipient s cid p cp → Extends (storage s) d' → skip p = false →
  ∃ conv,
    getConversationById d' cid = Some conv
    ∧ received cp ((up_id <$> cw_members conv) ≫=
                     (λ id, if skip id then [] else sendIfOpen (with_storage s d') id e))
      = [e].
Proof.
  intros [Hnd Hc Hrow Hu Hreg Hopen Halone] (Hcs & Hcms & Hus & _) Hskip.
  destruct (proj2 (getConversationById_is_Some d' cid)) as [conv Hconv].
  { by rewrite Hcs. }
  exists conv. split; [done|].
  apply (received_fanout_one (with_storage s d') _ _ skip p); try done.
  - eapply members_NoDup; [|exact Hconv]. by rewrite Hus.
  - apply (getConversationById_member d' cid conv p Hconv). by rewrite Hus, Hcms.
  - intros q Hq _ Hqc. simpl in Hqc.
    destruct (decide (q = p)) as [|Hne]; [done|]. exfalso.
    apply (Halone q Hne); [|done].
    apply (getConversationById_member d' cid conv q Hconv) in Hq as [_ Hq].
    by rewrite Hcms in Hq.
Qed.

End GatewayFanout.

Section GatewayFanoutTheorems.
Import Schema Storage StorageMore Gateway GatewayMore.
Context {toNumber : Js.StringToNumber}.

Lemma guard3_pass (s : State) (ws : Conn) (user id : Z) (text : string) :
  authenticatedAs s ws user → id ≠ 0 → Js.truthy_string text = true →
  guard3 s ws (Some id) (Some text) = Some (user, id, text).
Proof.
  intros [Hws Hu] Hid Ht. unfold guard3.
  by rewrite Hws, (nonzero_eqb user Hu), (nonzero_eqb id Hid), Ht.
Qed.

(** After an update of the row of one message, the recipients of its
    conversation get the envelope. *)
Lemma updated_reaches_member (s : State) (d : Db) (cid p : Z) (cp : Conn)
  (e : Envelope) :
  Recipient s cid p cp → Extends (storage s) d →
  ∃ conv,
    getConversationById d cid = Some conv
    ∧ received cp (toMembers (with_storage s d) (cw_members conv) e) = [e].
Proof.
  intros Hrec Hext.
  destruct (recipient_receives s d cid p cp e (λ _, false) Hrec Hext eq_refl)
    as (conv & Hconv & Hrecv).
  exists conv. split; [done|]. by rewrite toMembers_ids.
Qed.


Lemma typing_fanout_ids (s : State) (members : list UserPublic) (user : Z)
  (e : Envelope) :
  members ≫= (λ member, if decide (up_id member ≠ user)
                        then sendIfOpen s (up_id member) e else [])
  = (up_id <$> members) ≫=
      (λ id, if bool_decide (id = user) then [] else sendIfOpen s id e).
Proof.
  rewrite list_fmap_bind. induction members as [|m l IH]; [done|].
  rewrite !bind_cons, IH. f_equal. simpl.
  destruct (decide (up_id m ≠ user)) as [Hne|Heq].
  - by rewrite bool_decide_eq_false_2.
  - rewrite bool_decide_eq_true_2; [done|]. by destruct (decide (up_id m = user)).
Qed.

Lemma sendIfOpen_elem (s : State) (id : Z) (e : Envelope) (c : Conn) (e' : Envelope) :
  (c, e') ∈ sendIfOpen s id e →
  e' = e ∧ clients s !! id = Some c ∧ readyStateOf s !! c = Some OPEN.
Proof.
  unfold sendIfOpen. destruct (clients s !! id) as [client|]; [|by intros ?%elem_of_nil].
  destruct (decide _) as [Ho|]; [|by intros ?%elem_of_nil].
  intros [= -> ->]%list_elem_of_singleton. done.
Qed.

(** X12. A [typing] envelope from an authenticated connection changes
    nothing in the server; every other member of the conversation who is
    registered on an open connection of their own receives one [typing]
    notice that names the typer, and no notice is addressed to the typer
    or to a user who is not a member. *)
Theorem typing_reaches_other_members (s : State) (ws : Conn)
  (payload : MessagePayload) (user cid : Z) :
  type payload = "typing" →
  conversationId payload = Some cid → cid ≠ 0 →
  authenticatedAs s ws user →
  (on_message s ws payload).1 = s
  ∧ (∀ p cp, Recipient s cid p cp → p ≠ user →
             received cp (on_message s ws payload).2 = [typing cid user])
  ∧ ∀ c e, (c, e) ∈ (on_message s ws payload).2 →
      e = typing cid user
      ∧ ∃ q, q ≠ user
             ∧ clients s !! q = Some c
             ∧ readyStateOf s !! c = Some OPEN
             ∧ {| cm_conversationId := cid; cm_userId := q |}
                 ∈ conversationMembers (storage s).
Proof.
  intros Ht Hcid Hnz [Hws Hu].
  rewrite on_message_typing by done. unfold case_typing.
  rewrite Hws, Hcid, (nonzero_eqb user Hu), (nonzero_eqb cid Hnz). simpl.
  destruct (getConversationById (storage s) cid) as [conv|] eqn:Hconv; simpl.
  - split; [done|]. split.
    + intros p cp Hrec Hne.
      destruct (recipient_receives s (storage s) cid p cp (typing cid user)
                  (λ id, bool_decide (id = user)) Hrec (Extends_refl _))
        as (conv' & Hconv' & Hrecv); [by apply bool_decide_eq_false_2|].
      rewrite with_storage_same in Hrecv.
      rewrite typing_fanout_ids. congruence.
    + intros c e Hin. apply list_elem_of_bind in Hin as (member & Hin & Hmember).
      destruct (decide (up_id member ≠ user)) as [Hne|]; [|by apply elem_of_nil in Hin].
      apply sendIfOpen_elem in Hin as (-> & Hc & Ho). split; [done|].
      exists (up_id member). repeat split; try done.
      eapply (getConversationById_member _ _ _ (up_id member) Hconv).
      apply list_elem_of_fmap. by exists member.
  - split; [done|]. split.
    + intros p cp Hrec _. exfalso.
      assert (is_Some (getConversationById (storage s) cid)) as [? ?]; [|congruence].
      apply getConversationById_is_Some, Hrec.
    + intros c e Hin. by apply elem_of_nil in Hin.
Qed.

(** X13. An [edit_message] envelope from any authenticated connection
    for an existing message replaces the stored content, and every
    member of the message's conversation who is registered on an open
    connection of their own receives the edited message exactly once.
    The editor does not have to be the author of the message. *)
Theorem edit_reaches_member (s : State) (ws : Conn) (payload : MessagePayload)
  (user mid : Z) (text : string) (m : Message) (sender : UserPublic)
  (p : Z) (cp : Conn) :
  type payload = "edit_message" →
  messageId payload = Some mid → mid ≠ 0 →
  content payload = Some text → Js.truthy_string text = true →
  authenticatedAs s ws user →
  selectMessage (storage s) mid = Ok (Some m) →
  selectPublic (storage s) (m_senderId m) = Some sender →
  Recipient s (m_conversationId m) p cp →
  let edited := {| ms_message := set_edited m text (now (storage s));
                   ms_sender := sender |} in
  selectMessage (storage (on_message s ws payload).1) mid = Ok (Some (ms_message edited))
  ∧ received cp (on_message s ws payload).2
    = [message_updated (m_conversationId m) edited].
Proof.
  intros Ht Hmid Hnz Hcontent Htruthy Hauth Hm Hs Hrec edited.
  pose proof (updateMessage_keeps (storage s) mid text) as [Hext _].
  rewrite (updateMessage_first _ _ _ _ _ Hm Hs) in Hext. simpl in Hext.
  set (d := with_messages _ _ _) in *.
  destruct (updated_reaches_member s d _ p cp
              (message_updated (m_conversationId m) edited) Hrec Hext)
    as (conv & Hconv & Hrecv).
  rewrite on_message_edit_message by done. unfold case_edit_message.
  rewrite Hmid, Hcontent, (guard3_pass s ws user mid text) by done.
  rewrite (updateMessage_first _ _ _ _ _ Hm Hs). fold d. simpl.
  rewrite Hconv. simpl. split; [|done].
  unfold d. rewrite selectMessage_updated by done. by rewrite Hm.
Qed.

(** X14. An [add_reaction] envelope from an authenticated connection
    for an existing message records the emoji under the user of the
    connection, whatever user id the payload carries, keeps the
    reactions the message had, and every member of the message's
    conversation who is registered on an open connection of their own
    receives the message with its reactions exactly once. *)
Theorem add_reaction_reaches_member (s : State) (ws : Conn)
  (payload : MessagePayload) (user mid : Z) (e : string) (m : Message)
  (sender : UserPublic) (p : Z) (cp : Conn) :
  type payload = "add_reaction" →
  messageId payload = Some mid → mid ≠ 0 →
  emoji payload = Some e → Js.truthy_string e = true →
  authenticatedAs s ws user →
  selectMessage (storage s) mid = Ok (Some m) →
  selectPublic (storage s) (m_senderId m) = Some sender →
  Recipient s (m_conversationId m) p cp →
  let r := {| r_emoji := e; r_userId := user |} in
  let old := default [] (m_reactions m) in
  let rs := if decide (r ∈ old) then old else old ++ [r] in
  let reacted := {| ms_message := set_reactions m rs; ms_sender := sender |} in
  selectMessage (storage (on_message s ws payload).1) mid = Ok (Some (ms_message reacted))
  ∧ received cp (on_message s ws payload).2
    = [message_reacted (m_conversationId m) reacted].
Proof.
  intros Ht Hmid Hnz Hemoji Htruthy Hauth Hm Hs Hrec r old rs reacted.
  set (reaction := {| mr_messageId := mid; mr_userId := user; mr_emoji := e |}).
  destruct (addReaction_first (storage s) mid reaction m sender Hm Hs)
    as (rs' & Hadd & _ & Hrs).
  assert (rs' = rs) as ->.
  { rewrite Hrs. unfold rs. simpl. fold old.
    destruct (decide (r ∈ old)) as [Hin|Hnot].
    - destruct (list_find (sameReaction user e) old) eqn:Hfind; [done|].
      apply find_reaction_None in Hfind. done.
    - apply find_reaction_None in Hnot. by rewrite Hnot. }
  pose proof (addReactionToMessage_keeps (storage s) mid reaction) as [Hext _].
  rewrite Hadd in Hext. simpl in Hext.
  set (d := with_messages _ _ _) in *.
  destruct (updated_reaches_member s d _ p cp
              (message_reacted (m_conversationId m) reacted) Hrec Hext)
    as (conv & Hconv & Hrecv).
  rewrite on_message_add_reaction by done. unfold case_add_reaction.
  rewrite Hmid, Hemoji, (guard3_pass s ws user mid e) by done.
  fold reaction. rewrite Hadd. simpl.
  rewrite Hconv. simpl. split; [|done].
  unfold d. rewrite selectMessage_updated by done. by rewrite Hm.
Qed.

(** X15. A [remove_reaction] envelope from an authenticated connection
    for an existing message removes the emoji of the user of the
    connection and of nobody else, and every member of the message's
    conversation who is registered on an open connection of their own
    receives the message with the remaining reactions exactly once. *)
Theorem remove_reaction_reaches_member (s : State) (ws : Conn)
  (payload : MessagePayload) (user mid : Z) (e : string) (m : Message)
  (sender : UserPublic) (p : Z) (cp : Conn) :
  type payload = "remove_reaction" →
  messageId payload = Some mid → mid ≠ 0 →
  emoji payload = Some e → Js.truthy_string e = true →
  authenticatedAs s ws user →
  selectMessage (storage s) mid = Ok (Some m) →
  selectPublic (storage s) (m_senderId m) = Some sender →
  Recipient s (m_conversationId m) p cp →
  let rest := filter (λ x, x ≠ {| r_emoji := e; r_userId := user |})
                (default [] (m_reactions m)) in
  let after := {| ms_message := set_reactions m rest; ms_sender := sender |} in
  selectMessage (storage (on_message s ws payload).1) mid = Ok (Some (ms_message after))
  ∧ received cp (on_message s ws payload).2
    = [message_reaction_removed (m_conversationId m) after].
Proof.
  intros Ht Hmid Hnz Hemoji Htruthy Hauth Hm Hs Hrec rest after.
  pose proof (removeReaction_first (storage s) mid user e m sender Hm Hs) as Hrem.
  rewrite filter_other_reactions in Hrem. fold rest in Hrem.
  pose proof (removeReactionFromMessage_keeps (storage s) mid user e) as [Hext _].
  rewrite Hrem in Hext. simpl in Hext.
  set (d := with_messages _ _ _) in *.
  destruct (updated_reaches_member s d _ p cp
              (message_reaction_removed (m_conversationId m) after) Hrec Hext)
    as (conv & Hconv & Hrecv).
  rewrite on_message_remove_reaction by done. unfold case_remove_reaction.
  rewrite Hmid, Hemoji, (guard3_pass s ws user mid e) by done.
  rewrite Hrem. simpl.
  rewrite Hconv. simpl. split; [|done].
  unfold d. rewrite selectMessage_updated by done. by rewrite Hm.
Qed.

End GatewayFanoutTheorems.

(** ** Gateway: what it never does *)

Section GatewayNever.
Import Schema Storage StorageMore Gateway GatewayMore.
Context {toNumber : Js.StringToNumber}.

Lemma WellAddressed_nil (s : State) (ws : Conn) : WellAddressed s ws [].
Proof. intros c e Hin. by apply elem_of_nil in Hin. Qed.

Lemma WellAddressed_error (s : State) (ws : Conn) (text : string) :
  WellAddressed s ws [(ws, error text)].
Proof. intros c e [= -> ->]%list_elem_of_singleton. by left. Qed.

Lemma WellAddressed_toMembers (s : State) (ws : Conn) (members : list UserPublic)
  (e : Envelope) :
  isError e = false → WellAddressed s ws (toMembers s members e).
Proof.
  intros He c e' Hin. unfold toMembers in Hin.
  apply list_elem_of_bind in Hin as (member & Hin & _).
  apply sendIfOpen_elem in Hin as (-> & Hc & Ho). right. eauto.
Qed.

Lemma WellAddressed_broadcast (s : State) (ws : Conn) (user : Z) (b : bool) :
  WellAddressed s ws (broadcastUserStatus s user b).
Proof.
  intros c e Hin. unfold broadcastUserStatus in Hin.
  destruct (getUser (storage s) user); [|by apply elem_of_nil in Hin].
  apply list_elem_of_bind in Hin as (q & Hin & _).
  destruct (decide (q ≠ user)); [|by apply elem_of_nil in Hin].
  apply sendIfOpen_elem in Hin as (-> & Hc & Ho). right. eauto.
Qed.

Lemma WellAddressed_fanout (s : State) (ws : Conn) (d : Db) (cid : Z) (e : Envelope) :
  isError e = false →
  WellAddressed
    (match getConversationById d cid with
     | Some conv => (with_storage s d, toMembers (with_storage s d) (cw_members conv) e)
     | None => (with_storage s d, [])
     end).1 ws
    (match getConversationById d cid with
     | Some conv => (with_storage s d, toMembers (with_storage s d) (cw_members conv) e)
     | None => (with_storage s d, [])
     end).2.
Proof.
  intros He. destruct (getConversationById d cid); simpl.
  - by apply WellAddressed_toMembers.
  - apply WellAddressed_nil.
Qed.

(** X16. Whatever envelope arrives and whatever the state, the gateway
    sends an [error] envelope only to the connection the envelope came
    from, and every other envelope only to a connection that is open and
    stands in the registry; a close event sends nothing to the closing
    connection. *)
Theorem deliveries_well_addressed (s : State) (ws : Conn) (payload : MessagePayload) :
  WellAddressed (on_message s ws payload).1 ws (on_message s ws payload).2
  ∧ WellAddressed (on_close s ws).1 ws (on_close s ws).2
  ∧ received ws (on_close s ws).2 = [].
Proof.
  split; [|split].
  - unfold on_message. repeat case_decide; [..|apply WellAddressed_nil].
    + unfold case_authenticate. destruct (Js.Number (message payload)); simpl;
        [apply WellAddressed_nil|apply WellAddressed_broadcast].
    + unfold case_message.
      destruct (userIdOf s !! ws) as [[|user]|]; try apply WellAddressed_error.
      destruct (negb (user =? 0)); [|apply WellAddressed_error].
      destruct (conversationId payload) as [cid|]; [|apply WellAddressed_error].
      destruct (_ && _); [|apply WellAddressed_error].
      destruct (createMessage _ _) as [d [saved|?]]; [|apply WellAddressed_nil].
      simpl. by apply (WellAddressed_fanout s ws d cid).
    + unfold case_typing.
      destruct (userIdOf s !! ws) as [[|user]|]; try apply WellAddressed_nil.
      destruct (conversationId payload) as [cid|]; [|apply WellAddressed_nil].
      destruct (_ && _); [|apply WellAddressed_nil].
      destruct (getConversationById _ _) as [conv|]; [|apply WellAddressed_nil].
      simpl. intros c e Hin.
      apply list_elem_of_bind in Hin as (member & Hin & _).
      destruct (decide _); [|by apply elem_of_nil in Hin].
      apply sendIfOpen_elem in Hin as (-> & Hc & Ho). right. eauto.
    + unfold case_edit_message.
      destruct (guard3 _ _ _ _) as [[[user mid] text]|]; [|apply WellAddressed_error].
      destruct (updateMessage _ _ _) as [d [[upd|]|e]];
        [|apply WellAddressed_error|apply WellAddressed_nil].
      simpl. by apply (WellAddressed_fanout s ws d).
    + unfold case_add_reaction.
      destruct (guard3 _ _ _ _) as [[[user mid] text]|]; [|apply WellAddressed_error].
      destruct (addReactionToMessage _ _ _) as [d [[upd|]|e]];
        [|apply WellAddressed_error|apply WellAddressed_nil].
      simpl. by apply (WellAddressed_fanout s ws d).
    + unfold case_remove_reaction.
      destruct (guard3 _ _ _ _) as [[[user mid] text]|]; [|apply WellAddressed_error].
      destruct (removeReactionFromMessage _ _ _ _) as [d [[upd|]|e]];
        [|apply WellAddressed_error|apply WellAddressed_nil].
      simpl. by apply (WellAddressed_fanout s ws d).
  - unfold on_close. simpl.
    destruct (userIdOf s !! ws) as [[|user]|]; try apply WellAddressed_nil.
    destruct (negb (user =? 0)); [|apply WellAddressed_nil].
    apply WellAddressed_broadcast.
  - assert (Hwa : ∀ out, WellAddressed (on_close s ws).1 ws out →
                         (∀ c e, (c, e) ∈ out → isError e = false) →
                         readyStateOf (on_close s ws).1 !! ws = Some CLOSED →
                         received ws out = []).
    { intros out Hout Hne Hclosed. unfold received.
      rewrite (filter_none (λ d : nat * Envelope, d.1 = ws)); [done|].
      intros [c e] Hin Hc. simpl in Hc. subst c.
      destruct (Hout ws e Hin) as [[_ He]|(_ & Ho & _)].
      - specialize (Hne ws e Hin). congruence.
      - congruence. }
    apply Hwa.
    + unfold on_close. simpl.
      destruct (userIdOf s !! ws) as [[|user]|]; try apply WellAddressed_nil.
      destruct (negb (user =? 0)); [|apply WellAddressed_nil].
      apply WellAddressed_broadcast.
    + unfold on_close. simpl. intros c e.
      destruct (userIdOf s !! ws) as [[|user]|]; try by intros ?%elem_of_nil.
      destruct (negb (user =? 0)); [|by intros ?%elem_of_nil].
      unfold broadcastUserStatus.
      destruct (getUser _ _); [|by intros ?%elem_of_nil].
      intros (q & Hin & _)%list_elem_of_bind.
      destruct (decide _); [|by apply elem_of_nil in Hin].
      by apply sendIfOpen_elem in Hin as (-> & _).
    + unfold on_close. simpl.
      destruct (userIdOf s !! ws) as [[|user]|]; simpl; try apply lookup_insert_eq.
      destruct (negb (user =? 0)); simpl; apply lookup_insert_eq.
Qed.

End GatewayNever.

(** ** Gateway: the store and the registry over a run *)

Section GatewayRuns.
Import Schema Storage StorageMore Gateway GatewayMore.
Context {toNumber : Js.StringToNumber}.

Lemma on_message_keeps (s : State) (ws : Conn) (payload : MessagePayload) :
  Extends (storage s) (storage (on_message s ws payload).1)
  ∧ (MessagesWf (storage s) → MessagesWf (storage (on_message s ws payload).1)).
Proof.
  unfold on_message. repeat case_decide; [..|split; [apply Extends_refl|done]].
  - unfold case_authenticate. destruct (Js.Number (message payload)) as [|u]; simpl.
    + split; [apply Extends_refl|done].
    + apply updateUserOnlineStatus_keeps.
  - unfold case_message.
    destruct (userIdOf s !! ws) as [[|user]|]; try (split; [apply Extends_refl|done]).
    destruct (negb (user =? 0)); [|split; [apply Extends_refl|done]].
    destruct (conversationId payload) as [cid|]; [|split; [apply Extends_refl|done]].
    destruct (_ && _); [|split; [apply Extends_refl|done]].
    pose proof (createMessage_keeps (storage s) (messageData user cid payload)) as Hkeep.
    destruct (createMessage _ _) as [d [saved|?]]; simpl in *; [|done].
    by destruct (getConversationById d cid).
  - unfold case_typing.
    destruct (userIdOf s !! ws) as [[|user]|]; try (split; [apply Extends_refl|done]).
    destruct (conversationId payload) as [cid|]; [|split; [apply Extends_refl|done]].
    destruct (_ && _); [|split; [apply Extends_refl|done]].
    destruct (getConversationById _ _); split; try apply Extends_refl; done.
  - unfold case_edit_message.
    destruct (guard3 _ _ _ _) as [[[user mid] text]|]; [|split; [apply Extends_refl|done]].
    pose proof (updateMessage_keeps (storage s) mid text) as Hkeep.
    destruct (updateMessage _ _ _) as [d [[upd|]|e]]; simpl in *; [|done..].
    by destruct (getConversationById d _).
  - unfold case_add_reaction.
    destruct (guard3 _ _ _ _) as [[[user mid] text]|]; [|split; [apply Extends_refl|done]].
    match goal with |- context [addReactionToMessage ?d ?i ?r] =>
      pose proof (addReactionToMessage_keeps d i r) as Hkeep end.
    destruct (addReactionToMessage _ _ _) as [d [[upd|]|e]]; simpl in *; [|done..].
    by destruct (getConversationById d _).
  - unfold case_remove_reaction.
    destruct (guard3 _ _ _ _) as [[[user mid] text]|]; [|split; [apply Extends_refl|done]].
    pose proof (removeReactionFromMessage_keeps (storage s) mid user text) as Hkeep.
    destruct (removeReactionFromMessage _ _ _ _) as [d [[upd|]|e]]; simpl in *; [|done..].
    by destruct (getConversationById d _).
Qed.

Lemma on_close_keeps (s : State) (ws : Conn) :
  Extends (storage s) (storage (on_close s ws).1)
  ∧ (MessagesWf (storage s) → MessagesWf (storage (on_close s ws).1)).
Proof.
  unfold on_close. simpl.
  destruct (userIdOf s !! ws) as [[|user]|]; try (split; [apply Extends_refl|done]).
  destruct (negb (user =? 0)); [|split; [apply Extends_refl|done]].
  apply updateUserOnlineStatus_keeps.
Qed.

Lemma step_keeps (s : State) (ev : Event) :
  Extends (storage s) (storage (step s ev).1)
  ∧ (MessagesWf (storage s) → MessagesWf (storage (step s ev).1)).
Proof.
  destruct ev as [ws|ws payload|ws]; simpl.
  - split; [apply Extends_refl|done].
  - apply on_message_keeps.
  - apply on_close_keeps.
Qed.

(** X17. Over any sequence of connections, inbound envelopes and
    closes, the gateway leaves the conversations, the membership rows
    and the ids of the users as they were; it never deletes or reorders a
    message (the ids of the messages it started with stay a prefix of
    the ids of the messages it ends with), and message ids that are
    pairwise different and below the sequence stay so. *)
Theorem gateway_keeps_store_shape (s : State) (evs : list Event) :
  Extends (storage s) (storage (run s evs).1)
  ∧ (MessagesWf (storage s) → MessagesWf (storage (run s evs).1)).
Proof.
  revert s. induction evs as [|ev evs IH]; intros s.
  - split; [apply Extends_refl|done].
  - rewrite run_cons_state.
    destruct (step_keeps s ev) as [Hext Hwf].
    destruct (IH (step s ev).1) as [Hext' Hwf'].
    split; [by eapply Extends_trans|]. intros H. by apply Hwf', Hwf.
Qed.

(** X18. An [authenticate] envelope whose user id [Number] turns into
    [NaN] sends nothing and leaves the registry and the store as they
    were, but the connection, even if it had authenticated before, is
    unauthenticated from then on: a [message] envelope on it is answered
    with [Not authenticated], and when it closes, its old registry entry
    is not removed and nobody is set offline. *)
Theorem failed_authenticate_forgets_user (s : State) (ws : Conn)
  (payload : MessagePayload) :
  type payload = "authenticate" →
  Js.Number (message payload) = Js.NaN →
  let s1 := (on_message s ws payload).1 in
  (on_message s ws payload).2 = []
  ∧ (clients s1, storage s1, readyStateOf s1) = (clients s, storage s, readyStateOf s)
  ∧ (∀ p, type p = "message" →
          on_message s1 ws p = (s1, [(ws, error "Not authenticated")]))
  ∧ (clients (on_close s1 ws).1, storage (on_close s1 ws).1) = (clients s, storage s)
  ∧ (on_close s1 ws).2 = [].
Proof.
  intros Ht Hn s1. unfold s1. rewrite on_message_authenticate by done.
  unfold case_authenticate. rewrite Hn. simpl.
  split; [done|]. split; [done|]. split.
  - intros p Hp. rewrite on_message_message by done.
    apply case_message_falsy_user. simpl. by rewrite lookup_insert_eq.
  - unfold on_close. simpl. by rewrite lookup_insert_eq.
Qed.

Lemma users_online_rows (d : Db) (id : Z) (b : bool) (row : User) :
  row ∈ users (updateUserOnlineStatus d id b).1 ↔
  ∃ row0, row0 ∈ users d
          ∧ row = if decide (u_id row0 = id) then set_isOnline row0 b else row0.
Proof.
  unfold updateUserOnlineStatus. simpl. rewrite list_elem_of_fmap.
  split; intros (row0 & ? & ?); exists row0; done.
Qed.

(** X19. A connection that authenticates as user [u] and then as
    another user [v] stands in the registry under both ids. When it
    closes, only the entry of [v] is removed: the entry of [u] stays,
    pointing at the closed connection, and [u] stays flagged online in
    the store. *)
Theorem reauthentication_leaves_stale_entry (s : State) (ws : Conn) (u v : Z) :
  u ≠ v → v ≠ 0 →
  let s2 := (run s [Inbound ws (authenticate (Js.ANumber u));
                    Inbound ws (authenticate (Js.ANumber v))]).1 in
  let s3 := (on_close s2 ws).1 in
  clients s2 !! u = Some ws
  ∧ clients s2 !! v = Some ws
  ∧ clients s3 !! v = None
  ∧ clients s3 !! u = Some ws
  ∧ readyStateOf s3 !! ws = Some CLOSED
  ∧ ∀ row, row ∈ users (storage s3) → u_id row = u → u_isOnline row = true.
Proof.
  intros Hne Hv s2 s3.
  set (s1 := (on_message s ws (authenticate (Js.ANumber u))).1).
  assert (Hs2 : s2 = (on_message s1 ws (authenticate (Js.ANumber v))).1).
  { unfold s2. by rewrite run_cons_state, run_cons_state. }
  destruct (authenticate_state s ws (authenticate (Js.ANumber u)) u eq_refl eq_refl)
    as (Hc1 & Hu1 & Hr1 & Hd1). fold s1 in Hc1, Hu1, Hr1, Hd1.
  destruct (authenticate_state s1 ws (authenticate (Js.ANumber v)) v eq_refl eq_refl)
    as (Hc2 & Hu2 & Hr2 & Hd2). rewrite <- Hs2 in Hc2, Hu2, Hr2, Hd2.
  assert (Hws : userIdOf s2 !! ws = Some (Js.Num v)).
  { by rewrite Hu2, lookup_insert_eq. }
  destruct (close_state s2 ws v Hws Hv) as (Hc3 & Hu3 & Hr3 & Hd3).
  fold s3 in Hc3, Hu3, Hr3, Hd3.
  split; [by rewrite Hc2, lookup_insert_ne, Hc1, lookup_insert_eq|].
  split; [by rewrite Hc2, lookup_insert_eq|].
  split; [by rewrite Hc3, lookup_delete_eq|].
  split; [by rewrite Hc3, lookup_delete_ne, Hc2, lookup_insert_ne, Hc1, lookup_insert_eq|].
  split; [by rewrite Hr3, lookup_insert_eq|].
  intros row Hrow Hid. rewrite Hd3 in Hrow.
  apply users_online_rows in Hrow as (row2 & Hrow2 & ->).
  rewrite Hd2 in Hrow2. apply users_online_rows in Hrow2 as (row1 & Hrow1 & ->).
  rewrite Hd1 in Hrow1. apply users_online_rows in Hrow1 as (row0 & Hrow0 & ->).
  revert Hid. destruct (decide (u_id row0 = u)) as [Hu|Hu]; simpl.
  - destruct (decide (u_id row0 = v)) as [?|?]; [congruence|]. simpl.
    destruct (decide (u_id row0 = v)) as [?|?]; [congruence|]. done.
  - destruct (decide (u_id row0 = v)) as [Hv'|Hv']; simpl.
    + rewrite decide_True by done. simpl. congruence.
    + rewrite decide_False by done. congruence.
Qed.

(** X20. In a store whose membership rows hold ids that fit their
    columns, as the rows of the table do: after
    [removeUserFromConversation] has been called for a user and a
    conversation, a [message] or [typing] envelope for that conversation
    delivers nothing to the connection of that user (unless another
    member is registered on the same connection, or the envelope came
    from it). *)
Theorem removed_member_not_notified (s : State) (ws : Conn)
  (payload : MessagePayload) (cid p : Z) (cp : Conn) :
  Forall (λ row, int4 (cm_conversationId row) ∧ int4 (cm_userId row))
    (conversationMembers (storage s)) →
  type payload ∈ ["message"; "typing"] →
  conversationId payload = Some cid →
  ws ≠ cp →
  (∀ q, q ≠ p →
        {| cm_conversationId := cid; cm_userId := q |} ∈ conversationMembers (storage s) →
        clients s !! q ≠ Some cp) →
  let s' := with_storage s (removeUserFromConversation (storage s) cid p).1 in
  received cp (on_message s' ws payload).2 = [].
Proof.
  intros Hfit Ht Hcid Hws Halone s'.
  assert (Hrows : ∀ d conv q,
             conversations d = conversations (storage s) →
             conversationMembers d = conversationMembers (storage s') →
             getConversationById d cid = Some conv →
             q ∈ up_id <$> cw_members conv →
             clients s !! q ≠ Some cp).
  { intros d conv q Hcs Hd Hconv Hq.
    apply (getConversationById_member d cid conv q Hconv) in Hq as [_ Hq].
    rewrite Hd in Hq. unfold s', removeUserFromConversation in Hq. simpl in Hq.
    destruct (bool_decide (int4 cid)) eqn:Hc; simpl in Hq;
      [|apply bool_decide_eq_false in Hc; exfalso; apply Hc;
        by apply (proj1 (Forall_forall _ _) Hfit _ Hq)].
    destruct (getConversationById (storage s) cid) eqn:Hold; simpl in Hq.
    - destruct (bool_decide (int4 p)) eqn:Hp; simpl in Hq.
      + apply list_elem_of_filter in Hq as [Hnot Hq]. simpl in Hnot.
        apply Halone; [|done]. intros ->. by apply Hnot.
      + apply bool_decide_eq_false in Hp. apply Halone; [|done]. intros ->.
        apply Hp. by apply (proj1 (Forall_forall _ _) Hfit _ Hq).
    - exfalso.
      assert (is_Some (getConversationById (storage s) cid)) as [? ?]; [|congruence].
      apply getConversationById_is_Some. rewrite <- Hcs.
      apply getConversationById_is_Some. by eexists. }
  assert (Hcs' : conversations (storage s') = conversations (storage s)).
  { unfold s', removeUserFromConversation. simpl.
    destruct (bool_decide (int4 cid)); [|done].
    destruct (getConversationById (storage s) cid); [|done].
    by destruct (bool_decide (int4 p)). }
  assert (Herr : ∀ text, received cp [(ws, error text)] = []).
  { intros text. unfold received. rewrite filter_cons. simpl.
    by rewrite decide_False. }
  rewrite !elem_of_cons, elem_of_nil in Ht. destruct Ht as [Ht|[Ht|[]]].
  - rewrite on_message_message by done. unfold case_message.
    destruct (userIdOf s' !! ws) as [[|user]|]; try apply Herr.
    destruct (negb (user =? 0)); [|apply Herr].
    rewrite Hcid. destruct (_ && _); [|apply Herr].
    pose proof (createMessage_keeps (storage s') (messageData user cid payload))
      as [(Hc & Hm & _) _].
    destruct (createMessage _ _) as [d [saved|?]]; simpl in *; [|done].
    destruct (getConversationById d cid) as [conv|] eqn:Hconv; simpl; [|done].
    rewrite toMembers_ids.
    apply (received_fanout_none (with_storage s' d) _ _ (λ _, false)).
    intros q Hq _. simpl. eapply Hrows; [| |exact Hconv|exact Hq]; congruence.
  - rewrite on_message_typing by done. unfold case_typing.
    destruct (userIdOf s' !! ws) as [[|user]|]; try done.
    rewrite Hcid. destruct (_ && _); [|done].
    destruct (getConversationById (storage s') cid) as [conv|] eqn:Hconv; simpl; [|done].
    rewrite typing_fanout_ids.
    apply (received_fanout_none s').
    intros q Hq _. simpl. eapply Hrows; [| |exact Hconv|exact Hq]; done.
Qed.

End GatewayRuns.

(** ** Client: no action is lost *)

Section ClientQueue.
Import Client ClientMore.
Variable send_throws : list Effect → Outbound → bool.

Lemma sent_app (l1 l2 : list Effect) : sent (l1 ++ l2) = sent l1 ++ sent l2.
Proof. unfold sent. apply omap_app. Qed.

Lemma actionsSent_app (l1 l2 : list Effect) :
  actionsSent (l1 ++ l2) = actionsSent l1 ++ actionsSent l2.
Proof. unfold actionsSent. by rewrite sent_app, omap_app. Qed.

Lemma actionsSent_sends (k : nat) (ms : list QueuedMessage) :
  Forall (λ m, isTyping m = false) ms →
  actionsSent ((λ m, Send k (queued m)) <$> ms) = ms.
Proof.
  induction 1 as [|m ms Hm _ IH]; [done|].
  rewrite fmap_cons. change (?x :: ?l) with ([x] ++ l) at 1.
  rewrite actionsSent_app, IH. unfold actionsSent, sent. simpl. by rewrite Hm.
Qed.

Lemma Holds_refl (s : State) : Holds s s.
Proof. by intros H. Qed.

Lemma Holds_trans (s1 s2 s3 : State) : Holds s1 s2 → Holds s2 s3 → Holds s1 s3.
Proof.
  intros H12 H23 H1. destruct (H12 H1) as [H2 E2]. destruct (H23 H2) as [H3 E3].
  split; [done|congruence].
Qed.

(** A step that leaves the queue alone and logs no accepted action. *)
Lemma Holds_same (s s' : State) :
  messageQueue s' = messageQueue s → actionsSent (log s') = actionsSent (log s) →
  Holds s s'.
Proof.
  intros Hq Hl Hnt. unfold NoTyping, actions. rewrite Hq, Hl. done.
Qed.

Lemma Holds_log (s s' : State) (e : Effect) :
  messageQueue s' = messageQueue s → log s' = log s ++ [e] →
  actionsSent [e] = [] → Holds s s'.
Proof.
  intros Hq Hl He. apply Holds_same; [done|].
  by rewrite Hl, actionsSent_app, He, app_nil_r.
Qed.

Lemma reconnectSocket_Holds (s : State) : Holds s (reconnectSocket s).
Proof.
  destruct (reconnectSocket_cases s) as [->|(_ & _ & ->)]; [apply Holds_refl|].
  by eapply Holds_log.
Qed.

Lemma clearReconnectTimer_Holds (s : State) : Holds s (clearReconnectTimer s).
Proof.
  unfold clearReconnectTimer. destruct (socketReconnectTimer s); [|apply Holds_refl].
  by eapply Holds_log.
Qed.

Lemma closeCall_Holds (s : State) (k : nat) : Holds s (closeCall s k).
Proof.
  unfold closeCall. eapply Holds_log; simpl; try done;
    by destruct (readyState <$> sockets s !! k) as [[]|].
Qed.

Lemma sendAuthMessage_Holds (s : State) (userId : Z) :
  Holds s (sendAuthMessage send_throws s userId).1.
Proof.
  unfold sendAuthMessage. destruct (openSocket s); [|apply Holds_refl].
  destruct (send_throws _ _); [apply Holds_refl|]. by eapply Holds_log.
Qed.

Lemma processMessageQueue_Holds (s : State) :
  Holds s (processMessageQueue send_throws s).
Proof.
  unfold processMessageQueue. destruct (openSocket s) as [k|]; [|apply Holds_refl].
  destruct (drain_spec send_throws k (log s) (messageQueue s))
    as (done_ & Hq & Hl & _).
  destruct (drain send_throws k (log s) (messageQueue s)) as [l q]. simpl in *.
  intros Hnt. unfold NoTyping, actions in *. simpl. rewrite Hq in Hnt.
  apply Forall_app in Hnt as [Hsent Hrest]. split; [done|].
  by rewrite Hl, actionsSent_app, actionsSent_sends, Hq, app_assoc.
Qed.

Lemma connectSocket_Holds (s : State) (userId : Z) :
  Holds s (connectSocket send_throws s userId).1.
Proof.
  unfold connectSocket.
  set (s0 := {| socket := socket s; sockets := sockets s;
                socketReconnectTimer := socketReconnectTimer s;
                pendingTimers := pendingTimers s; nextTimer := nextTimer s;
                currentUserId := Some userId;
                reconnectAttempts := reconnectAttempts s;
                messageQueue := messageQueue s; log := log s |}).
  assert (H0 : Holds s s0) by by apply Holds_same.
  destruct (openSocket s0).
  - pose proof (sendAuthMessage_Holds s0 userId) as H1.
    destruct (sendAuthMessage send_throws s0 userId) as [s1 threw]. simpl in H1.
    destruct threw; simpl; [by eapply Holds_trans|].
    eapply Holds_trans; [|apply processMessageQueue_Holds]. by eapply Holds_trans.
  - simpl. set (s1 := match socket s0 with Some k => closeCall s0 k | None => s0 end).
    assert (H1 : Holds s0 s1).
    { unfold s1. destruct (socket s0); [apply closeCall_Holds|apply Holds_refl]. }
    eapply Holds_trans; [exact H0|]. eapply Holds_trans; [exact H1|].
    by eapply Holds_log.
Qed.

Lemma disconnectSocket_Holds (s : State) : Holds s (disconnectSocket s).
Proof.
  unfold disconnectSocket.
  eapply Holds_trans; [|apply clearReconnectTimer_Holds].
  destruct (socket s) as [k|]; [|apply Holds_refl].
  eapply Holds_trans; [apply (closeCall_Holds s k)|]. by apply Holds_same.
Qed.

Lemma onopen_Holds (s : State) (k : nat) : Holds s (onopen send_throws s k).
Proof.
  unfold onopen.
  set (s0 := set_attempts s 0).
  assert (H0 : Holds s s0) by by apply Holds_same.
  pose proof (sendAuthMessage_Holds s0 (default 0 (captured <$> sockets s0 !! k))) as H1.
  destruct (sendAuthMessage _ _ _) as [s1 threw]. simpl in H1.
  destruct threw; [by eapply Holds_trans|].
  eapply Holds_trans; [|apply clearReconnectTimer_Holds].
  eapply Holds_trans; [|apply processMessageQueue_Holds]. by eapply Holds_trans.
Qed.

Lemma reconnectCallback_Holds (s : State) : Holds s (reconnectCallback send_throws s).
Proof.
  unfold reconnectCallback.
  pose proof (connectSocket_Holds s (default 0 (currentUserId s))) as H1.
  destruct (connectSocket _ _ _) as [s1 threw]. simpl in H1.
  destruct threw; [done|]. eapply Holds_trans; [exact H1|]. by apply Holds_same.
Qed.

Lemma sendTypingNotification_Holds (s : State) (c : Z) :
  Holds s (sendTypingNotification send_throws s c).
Proof.
  unfold sendTypingNotification. destruct (openSocket s); [|apply Holds_refl].
  destruct (send_throws _ _); [apply Holds_refl|]. by eapply Holds_log.
Qed.

(** A submitted action is sent or queued. *)
Lemma submit_actions (flag : bool) (s : State) (m : QueuedMessage) :
  isTyping m = false → NoTyping s →
  NoTyping (submit send_throws flag s m)
  ∧ actions (submit send_throws flag s m) ≡ₚ actions s ++ [m].
Proof.
  intros Hm Hnt. unfold submit.
  set (s1 := set_queue_log s (messageQueue s ++ [m]) (log s)).
  assert (H1 : NoTyping s1 ∧ actions s1 = actions s ++ [m]).
  { unfold NoTyping, actions in *. simpl. split; [|by rewrite app_assoc].
    apply Forall_app. split; [done|]. by constructor. }
  assert (H2 : NoTyping (reconnectSocket s1)
               ∧ actions (reconnectSocket s1) = actions s ++ [m]).
  { destruct H1 as [Hnt1 E1]. destruct (reconnectSocket_Holds s1 Hnt1) as [? E2].
    split; [done|congruence]. }
  assert (Hperm : ∀ s', NoTyping s' ∧ actions s' = actions s ++ [m] →
                        NoTyping s' ∧ actions s' ≡ₚ actions s ++ [m]).
  { intros s' [? ->]. done. }
  destruct (openSocket s) as [k|].
  - destruct (send_throws _ _).
    + fold s1. destruct flag; destruct (bool_decide _); by apply Hperm.
    + split; [done|]. unfold actions. simpl.
      rewrite actionsSent_app. unfold actionsSent at 2, sent. simpl. rewrite Hm.
      rewrite <- !app_assoc. apply Permutation_app_head, Permutation_app_comm.
  - fold s1. destruct (noSocketOrClosed s1); by apply Hperm.
Qed.

Lemma step_actions (s s' : State) (ev : Event) :
  step send_throws s ev = Some s' → NoTyping s →
  NoTyping s'
  ∧ actions s' ≡ₚ actions s ++ match payloadOf ev with Some m => [m] | None => [] end.
Proof.
  assert (Hh : ∀ s1, Holds s s1 → NoTyping s → NoTyping s1 ∧ actions s1 ≡ₚ actions s ++ []).
  { intros s1 H Hnt. destruct (H Hnt) as [? ->]. by rewrite app_nil_r. }
  destruct ev; simpl; intros Hstep Hnt.
  - injection Hstep as <-. apply Hh; [apply connectSocket_Holds|done].
  - injection Hstep as <-. apply Hh; [apply disconnectSocket_Holds|done].
  - injection Hstep as <-. by apply submit_actions.
  - injection Hstep as <-. by apply submit_actions.
  - injection Hstep as <-. by apply submit_actions.
  - injection Hstep as <-. by apply submit_actions.
  - injection Hstep as <-. apply Hh; [apply sendTypingNotification_Holds|done].
  - destruct (readyState <$> sockets s !! sock) as [[]|]; try done.
    injection Hstep as <-. apply Hh; [|done].
    eapply Holds_trans; [|apply onopen_Holds]. by apply Holds_same.
  - assert (Hc : Holds s (onclose (set_readyState s sock CLOSED))).
    { eapply Holds_trans; [|apply reconnectSocket_Holds]. by apply Holds_same. }
    destruct (readyState <$> sockets s !! sock) as [[]|]; try done;
      injection Hstep as <-; by apply Hh.
  - destruct (sockets s !! sock); [|done]. injection Hstep as <-.
    apply Hh; [apply Holds_refl|done].
  - destruct (decide _); [|done]. injection Hstep as <-. apply Hh; [|done].
    eapply Holds_trans; [|apply reconnectCallback_Holds]. by apply Holds_same.
Qed.

Lemma run_actions (evs : list Event) (s s' : State) :
  run send_throws s evs = Some s' → NoTyping s →
  NoTyping s' ∧ actions s' ≡ₚ actions s ++ omap payloadOf evs.
Proof.
  revert s. induction evs as [|ev evs IH]; intros s; simpl.
  - intros [= <-] Hnt. by rewrite app_nil_r.
  - destruct (step send_throws s ev) as [s1|] eqn:Hstep; [|done].
    intros Hrun Hnt. destruct (step_actions s s1 ev Hstep Hnt) as [Hnt1 E1].
    destruct (IH s1 Hrun Hnt1) as [Hnt' E']. split; [done|].
    rewrite E', E1, <- app_assoc. apply Permutation_app_head.
    by destruct (payloadOf ev).
Qed.

(** X21. Whatever the application and the browser do, and whichever
    sends throw, every action submitted with [sendMessage],
    [editMessage], [addReaction] or [removeReaction] has been accepted
    by [socket.send] exactly once or waits in the queue exactly once,
    never both, and nothing else does; [typing] notices are never
    queued. *)
Theorem no_action_lost_or_duplicated (evs : list Event) (s : State) :
  run send_throws initial evs = Some s →
  actionsSent (log s) ++ messageQueue s ≡ₚ omap payloadOf evs
  ∧ Forall (λ m, isTyping m = false) (messageQueue s).
Proof.
  intros Hrun.
  destruct (run_actions evs initial s Hrun) as [Hnt E]; [by constructor|].
  split; [exact E|exact Hnt].
Qed.

End ClientQueue.

(** ** Client: the queue across an open *)

Section ClientOpen.
Import Client ClientMore.
Variable send_throws : list Effect → Outbound → bool.
Hypothesis never_throws : ∀ l data, send_throws l data = false.

Lemma drain_all (k : nat) (l : list Effect) (queue : list QueuedMessage) :
  drain send_throws k l queue = (l ++ ((λ m, Send k (queued m)) <$> queue), []).
Proof.
  revert l. induction queue as [|m rest IH]; intros l; simpl.
  - by rewrite app_nil_r.
  - rewrite never_throws, IH, <- app_assoc. done.
Qed.

Lemma sent_queued (k : nat) (q : list QueuedMessage) :
  sent ((λ m, Send k (queued m)) <$> q) = queued <$> q.
Proof.
  induction q as [|m q IH]; [done|].
  rewrite !fmap_cons. change (?x :: ?l) with ([x] ++ l) at 1.
  by rewrite sent_app, IH.
Qed.

Lemma clearReconnectTimer_sent (s : State) :
  sent (log (clearReconnectTimer s)) = sent (log s)
  ∧ messageQueue (clearReconnectTimer s) = messageQueue s.
Proof.
  unfold clearReconnectTimer. destruct (socketReconnectTimer s); [|done].
  simpl. by rewrite sent_app, app_nil_r.
Qed.

(** Authenticate and drain on an open socket. *)
Lemma authenticate_and_drain (s : State) (k : nat) (userId : Z) :
  openSocket s = Some k →
  ∃ s1,
    sendAuthMessage send_throws s userId = (s1, false)
    ∧ processMessageQueue send_throws s1
      = set_queue_log s []
          (log s ++ Send k (authenticate userId)
                 :: ((λ m, Send k (queued m)) <$> messageQueue s)).
Proof.
  intros Hopen. unfold sendAuthMessage. rewrite Hopen, never_throws.
  eexists. split; [reflexivity|].
  unfold processMessageQueue.
  change (openSocket (set_queue_log s (messageQueue s)
                        (log s ++ [Send k (authenticate userId)])))
    with (openSocket s).
  rewrite Hopen. simpl. rewrite drain_all, <- app_assoc. done.
Qed.

(** X22. While the socket is connecting, submitted actions are queued in
    the order of submission and nothing is sent; when the socket opens
    and no send throws, the client sends [authenticate] with the user id
    the socket was created for and then the whole queue, oldest first,
    and the queue is empty. *)
Theorem queued_actions_sent_on_open (s : State) (k : nat) (w : WebSocket)
  (evs : list Event) :
  socket s = Some k → sockets s !! k = Some w → readyState w = CONNECTING →
  Forall (λ ev, is_Some (payloadOf ev)) evs →
  ∃ s1 s2,
    run send_throws s evs = Some s1
    ∧ log s1 = log s
    ∧ messageQueue s1 = messageQueue s ++ omap payloadOf evs
    ∧ step send_throws s1 (SocketOpen k) = Some s2
    ∧ messageQueue s2 = []
    ∧ sent (log s2)
      = sent (log s)
        ++ authenticate (captured w)
           :: (queued <$> (messageQueue s ++ omap payloadOf evs)).
Proof.
  intros Hsock Hw Hconn Hevs.
  assert (Hrun : run send_throws s evs
                 = Some (set_queue_log s (messageQueue s ++ omap payloadOf evs) (log s))).
  { assert (Hgen : ∀ q, run send_throws (set_queue_log s q (log s)) evs
                        = Some (set_queue_log s (q ++ omap payloadOf evs) (log s))).
    { induction Hevs as [|ev evs [m Hm] _ IH]; intros q; simpl.
      - by rewrite app_nil_r.
      - assert (Hsub : ∀ flag, submit send_throws flag (set_queue_log s q (log s)) m
                               = set_queue_log s (q ++ [m]) (log s)).
        { intros flag. unfold submit, openSocket, noSocketOrClosed. simpl.
          rewrite Hsock, Hw, Hconn. simpl. rewrite Hconn.
          rewrite bool_decide_eq_false_2 by done. done. }
        rewrite Hm.
        assert (Hstep : step send_throws (set_queue_log s q (log s)) ev
                        = Some (set_queue_log s (q ++ [m]) (log s))).
        { destruct ev; simpl in Hm; try done; injection Hm as <-; simpl;
            unfold sendMessage, editMessage, addReaction, removeReaction;
            by rewrite Hsub. }
        rewrite Hstep, IH, <- app_assoc. done. }
    specialize (Hgen (messageQueue s)).
    assert (Hs : set_queue_log s (messageQueue s) (log s) = s) by by destruct s.
    by rewrite Hs in Hgen. }
  set (s1 := set_queue_log s (messageQueue s ++ omap payloadOf evs) (log s)) in *.
  set (s1' := set_attempts (set_readyState s1 k OPEN) 0).
  assert (Hopen : openSocket s1' = Some k).
  { unfold openSocket. simpl. rewrite Hsock, list_lookup_alter_eq, Hw. simpl. done. }
  destruct (authenticate_and_drain s1' k (captured w) Hopen) as (s1a & Hauth & Hdrain).
  assert (Hstep : step send_throws s1 (SocketOpen k)
                  = Some (clearReconnectTimer (processMessageQueue send_throws s1a))).
  { simpl. rewrite Hw. simpl. rewrite Hconn. unfold onopen. fold s1'.
    assert (Hcap : default 0 (captured <$> sockets s1' !! k) = captured w).
    { simpl. by rewrite list_lookup_alter_eq, Hw. }
    rewrite Hcap, Hauth. done. }
  exists s1, (clearReconnectTimer (processMessageQueue send_throws s1a)).
  split; [exact Hrun|]. split; [done|]. split; [done|]. split; [exact Hstep|].
  destruct (clearReconnectTimer_sent (processMessageQueue send_throws s1a)) as [-> ->].
  rewrite Hdrain. simpl. split; [done|].
  change (Send k (authenticate (captured w)) :: ?l)
    with ([Send k (authenticate (captured w))] ++ l).
  by rewrite !sent_app, sent_queued.
Qed.

(** X23. [connectSocket] on an open socket creates no socket and closes
    none: it records the user id, sends [authenticate] with it on the
    existing socket and, when no send throws, the whole queue after it. *)
Theorem connectSocket_reuses_open_socket (s : State) (k : nat) (userId : Z) :
  openSocket s = Some k →
  let s' := (connectSocket send_throws s userId).1 in
  socket s' = Some k
  ∧ sockets s' = sockets s
  ∧ currentUserId s' = Some userId
  ∧ messageQueue s' = []
  ∧ log s' = log s ++ Send k (authenticate userId)
                   :: ((λ m, Send k (queued m)) <$> messageQueue s).
Proof.
  intros Hopen s'. unfold s', connectSocket.
  set (s0 := {| socket := socket s; sockets := sockets s;
                socketReconnectTimer := socketReconnectTimer s;
                pendingTimers := pendingTimers s; nextTimer := nextTimer s;
                currentUserId := Some userId;
                reconnectAttempts := reconnectAttempts s;
                messageQueue := messageQueue s; log := log s |}).
  assert (Hopen0 : openSocket s0 = Some k) by exact Hopen.
  rewrite Hopen0.
  destruct (authenticate_and_drain s0 k userId Hopen0) as (s1 & Hauth & Hdrain).
  rewrite Hauth, Hdrain. simpl. repeat split.
  unfold openSocket in Hopen. destruct (socket s) as [j|]; [|done].
  destruct (sockets s !! j); [|done]. by destruct (decide _).
Qed.

End ClientOpen.

(** ** Client: what disconnecting does and does not do *)

Section ClientDisconnect.
Import Client ClientMore.
Variable send_throws : list Effect → Outbound → bool.

(** X24. At any time at most one socket is connecting or open, and it
    is the one held in [socket]. *)
Theorem one_live_socket (evs : list Event) (s : State) :
  run send_throws initial evs = Some s →
  ∀ k w, sockets s !! k = Some w →
         readyState w = CONNECTING ∨ readyState w = OPEN →
         socket s = Some k.
Proof.
  intros Hrun k w Hk Hlive.
  pose proof (run_Inv send_throws evs initial s Inv_initial Hrun) as [_ _ _ Hstale].
  destruct (decide (socket s = Some k)) as [|Hne]; [done|]. exfalso.
  destruct (Hstale k w Hk Hne) as [Hc|Hc]; destruct Hlive; congruence.
Qed.

End ClientDisconnect.

Section ClientUserless.
Import Client ClientMore.
Variable send_throws : list Effect → Outbound → bool.

Lemma Still_refl (s : State) : Still s s.
Proof. by constructor. Qed.

Lemma Still_trans (s1 s2 s3 : State) : Still s1 s2 → Still s2 s3 → Still s1 s3.
Proof. intros [] []. constructor; congruence. Qed.

Lemma Still_Userless (s s' : State) : Still s s' → Userless s → Userless s'.
Proof. intros [Hu Hp _ _] [Huser Hpending]. split; [by rewrite Hu|by rewrite Hp]. Qed.

Lemma Still_log (s s' : State) (e : Effect) :
  currentUserId s' = currentUserId s → pendingTimers s' = pendingTimers s →
  log s' = log s ++ [e] → isSetTimeout e = false → isNewWebSocket e = false →
  Still s s'.
Proof.
  intros Hu Hp Hl Hs Hn. constructor; try done.
  - rewrite Hl, scheduled_app. unfold scheduled at 2. rewrite filter_cons, Hs. simpl. lia.
  - rewrite Hl, created_app. unfold created at 2. rewrite filter_cons, Hn. simpl. lia.
Qed.

Lemma Quiet_Still (s s' : State) :
  Quiet s s' → currentUserId s' = currentUserId s → Still s s'.
Proof. intros [] Hu. by constructor. Qed.

Lemma reconnectSocket_userless (s : State) : Userless s → reconnectSocket s = s.
Proof.
  intros [[Hu|Hu] _]; unfold reconnectSocket; rewrite Hu;
    by destruct (socketReconnectTimer s).
Qed.

Lemma closeCall_Still (s : State) (k : nat) : Still s (closeCall s k).
Proof.
  unfold closeCall. eapply Still_log; simpl; try done;
    by destruct (readyState <$> sockets s !! k) as [[]|].
Qed.

Lemma clearReconnectTimer_Still (s : State) :
  pendingTimers s = [] → Still s (clearReconnectTimer s).
Proof.
  intros Hp. unfold clearReconnectTimer.
  destruct (socketReconnectTimer s); [|apply Still_refl].
  eapply Still_log; simpl; try done. by rewrite Hp.
Qed.

Lemma sendAuthMessage_Still (s : State) (userId : Z) :
  Still s (sendAuthMessage send_throws s userId).1.
Proof.
  apply Quiet_Still; [apply sendAuthMessage_quiet|].
  unfold sendAuthMessage. destruct (openSocket s); [|done].
  by destruct (send_throws _ _).
Qed.

Lemma processMessageQueue_Still (s : State) :
  Still s (processMessageQueue send_throws s).
Proof.
  apply Quiet_Still; [apply processMessageQueue_quiet|].
  unfold processMessageQueue. destruct (openSocket s); [|done].
  by destruct (drain _ _ _ _).
Qed.

Lemma sendTypingNotification_Still (s : State) (c : Z) :
  Still s (sendTypingNotification send_throws s c).
Proof.
  apply Quiet_Still; [apply sendTypingNotification_quiet|].
  unfold sendTypingNotification. destruct (openSocket s); [|done].
  by destruct (send_throws _ _).
Qed.

Lemma submit_Still (flag : bool) (s : State) (m : QueuedMessage) :
  Userless s → Still s (submit send_throws flag s m).
Proof.
  intros Hu. unfold submit.
  set (s1 := set_queue_log s (messageQueue s ++ [m]) (log s)).
  assert (H1 : Still s s1) by by constructor.
  assert (H2 : reconnectSocket s1 = s1) by by apply reconnectSocket_userless.
  destruct (openSocket s) as [k|].
  - destruct (send_throws _ _).
    + fold s1. rewrite H2. by destruct flag; destruct (bool_decide _).
    + by eapply Still_log.
  - fold s1. rewrite H2. by destruct (noSocketOrClosed s1).
Qed.

Lemma disconnectSocket_Still (s : State) : Userless s → Still s (disconnectSocket s).
Proof.
  intros [_ Hp]. unfold disconnectSocket. destruct (socket s) as [k|].
  - pose proof (closeCall_Still s k) as H1.
    eapply Still_trans; [|apply clearReconnectTimer_Still].
    + eapply Still_trans; [exact H1|]. by constructor.
    + destruct H1 as [_ Hp1 _ _]. change (pendingTimers (closeCall s k) = []).
      congruence.
  - by apply clearReconnectTimer_Still.
Qed.

Lemma onopen_Still (s : State) (k : nat) : Userless s → Still s (onopen send_throws s k).
Proof.
  intros [_ Hp]. unfold onopen.
  set (s0 := set_attempts s 0).
  pose proof (sendAuthMessage_Still s0 (default 0 (captured <$> sockets s0 !! k))) as H1.
  destruct (sendAuthMessage _ _ _) as [s1 threw]. simpl in H1.
  assert (H01 : Still s s1) by (eapply Still_trans; [|exact H1]; by constructor).
  destruct threw; [done|].
  pose proof (processMessageQueue_Still s1) as H2.
  assert (H02 : Still s (processMessageQueue send_throws s1)) by by eapply Still_trans.
  eapply Still_trans; [exact H02|]. apply clearReconnectTimer_Still.
  destruct H02 as [_ Hp2 _ _]. by rewrite Hp2.
Qed.

Lemma step_Still (s s' : State) (ev : Event) :
  Userless s → isConnect ev = false → step send_throws s ev = Some s' → Still s s'.
Proof.
  intros Hu Hev. destruct ev; simpl; try done; intros Hstep.
  - injection Hstep as <-. by apply disconnectSocket_Still.
  - injection Hstep as <-. by apply submit_Still.
  - injection Hstep as <-. by apply submit_Still.
  - injection Hstep as <-. by apply submit_Still.
  - injection Hstep as <-. by apply submit_Still.
  - injection Hstep as <-. apply sendTypingNotification_Still.
  - destruct (readyState <$> sockets s !! sock) as [[]|]; try done.
    injection Hstep as <-.
    assert (H0 : Still s (set_readyState s sock OPEN)) by by constructor.
    eapply Still_trans; [exact H0|]. apply onopen_Still. by apply (Still_Userless s).
  - assert (Hc : Still s (onclose (set_readyState s sock CLOSED))).
    { unfold onclose. rewrite reconnectSocket_userless; [by constructor|].
      apply (Still_Userless s); [by constructor|done]. }
    destruct (readyState <$> sockets s !! sock) as [[]|]; try done;
      by injection Hstep as <-.
  - destruct (sockets s !! sock); [|done]. injection Hstep as <-. apply Still_refl.
  - destruct Hu as [_ Hp]. rewrite Hp in Hstep. done.
Qed.

(** X25. A client whose user id is unset or 0 and that has no timer
    pending never schedules a reconnection and never creates a socket,
    whatever is submitted and whichever socket opens, closes or fails,
    until [connectSocket] is called. *)
Theorem no_reconnect_without_user (evs : list Event) (s s' : State) :
  currentUserId s = None ∨ currentUserId s = Some 0 →
  pendingTimers s = [] →
  Forall (λ ev, isConnect ev = false) evs →
  run send_throws s evs = Some s' →
  scheduled (log s') = scheduled (log s)
  ∧ created (log s') = created (log s)
  ∧ pendingTimers s' = []
  ∧ currentUserId s' = currentUserId s.
Proof.
  intros Hu Hp Hevs. assert (Huserless : Userless s) by done. clear Hu Hp.
  revert s Huserless. induction Hevs as [|ev evs Hev _ IH]; intros s Hu; simpl.
  - intros [= <-]. by destruct Hu.
  - destruct (step send_throws s ev) as [s1|] eqn:Hstep; [|done]. intros Hrun.
    pose proof (step_Still s s1 ev Hu Hev Hstep) as Hstill.
    destruct (IH s1 (Still_Userless s s1 Hstill Hu) Hrun) as (E1 & E2 & E3 & E4).
    destruct Hstill as [F1 F2 F3 F4]. repeat split; congruence.
Qed.

End ClientUserless.

Section ClientDisconnectUndone.
Import Client ClientMore.
Variable send_throws : list Effect → Outbound → bool.

(** What [disconnectSocket] leaves behind when there was a live socket. *)
Lemma disconnectSocket_fields (s : State) (k : nat) (w : WebSocket) :
  Inv s → socket s = Some k → sockets s !! k = Some w →
  readyState w = CONNECTING ∨ readyState w = OPEN →
  let s1 := disconnectSocket s in
  socket s1 = None
  ∧ socketReconnectTimer s1 = None
  ∧ pendingTimers s1 = []
  ∧ sockets s1
    = alter (λ w, {| readyState := CLOSING; captured := captured w |}) k (sockets s)
  ∧ currentUserId s1 = currentUserId s
  ∧ reconnectAttempts s1 = reconnectAttempts s
  ∧ nextTimer s1 = nextTimer s
  ∧ messageQueue s1 = messageQueue s.
Proof.
  intros [Ht _ _ _] Hsock Hw Hlive s1. unfold s1, disconnectSocket. rewrite Hsock.
  assert (Hclose : closeCall s k
                   = set_queue_log (set_readyState s k CLOSING) (messageQueue s)
                       (log s ++ [CloseSocket k])).
  { unfold closeCall. rewrite Hw. simpl. by destruct Hlive as [-> | ->]. }
  rewrite Hclose. unfold clearReconnectTimer. simpl.
  destruct (socketReconnectTimer s) as [t|] eqn:Hvar; simpl.
  - split; [done|]. split; [done|]. split; [|done].
    destruct Ht as [->|(t' & Ht' & ->)]; [done|].
    assert (t' = t) as -> by congruence.
    rewrite filter_cons. simpl. by rewrite decide_False by (intros H; by apply H).
  - split; [done|]. split; [done|]. split; [|done].
    destruct Ht as [?|(t & ? & _)]; [done|congruence].
Qed.

(** X26. [disconnectSocket] on a connecting or open socket clears the
    socket variable and cancels the pending timer, but the user id and
    the [onclose] handler of the closed socket stay: when the browser
    then reports the close, the client schedules a reconnection, and
    when that timer fires it opens a new socket for the same user. *)
Theorem disconnect_undone_by_close_event (evs : list Event) (s : State)
  (k : nat) (w : WebSocket) (user : Z) :
  run send_throws initial evs = Some s →
  socket s = Some k → sockets s !! k = Some w →
  readyState w = CONNECTING ∨ readyState w = OPEN →
  currentUserId s = Some user → user ≠ 0 →
  reconnectAttempts s < MAX_RECONNECT_ATTEMPTS →
  let s1 := disconnectSocket s in
  socket s1 = None
  ∧ socketReconnectTimer s1 = None
  ∧ pendingTimers s1 = []
  ∧ ∃ s2 s3,
      step send_throws s1 (SocketClose k) = Some s2
      ∧ pendingTimers s2 = [(nextTimer s, RECONNECT_DELAY_MS)]
      ∧ step send_throws s2 (TimerFire (nextTimer s)) = Some s3
      ∧ socket s3 = Some (length (sockets s))
      ∧ sockets s3 !! length (sockets s)
        = Some {| readyState := CONNECTING; captured := user |}
      ∧ reconnectAttempts s3 = reconnectAttempts s + 1.
Proof.
  intros Hrun Hsock Hw Hlive Huser Hnz Hlt s1.
  pose proof (run_Inv send_throws evs initial s Inv_initial Hrun) as Hinv.
  destruct (disconnectSocket_fields s k w Hinv Hsock Hw Hlive)
    as (F1 & F2 & F3 & F4 & F5 & F6 & F7 & F8).
  fold s1 in F1, F2, F3, F4, F5, F6, F7, F8. clearbody s1.
  split; [done|]. split; [done|]. split; [done|].
  set (t := nextTimer s).
  set (s1c := set_readyState s1 k CLOSED).
  set (s2 := set_timer s1c (Some t) [(t, RECONNECT_DELAY_MS)] (S t)
               (log s1c ++ [SetTimeout t RECONNECT_DELAY_MS])).
  assert (Hstep1 : step send_throws s1 (SocketClose k) = Some s2).
  { simpl. rewrite F4, list_lookup_alter_eq, Hw. simpl. f_equal.
    unfold onclose, reconnectSocket. fold s1c.
    change (socketReconnectTimer s1c) with (socketReconnectTimer s1).
    change (currentUserId s1c) with (currentUserId s1).
    change (reconnectAttempts s1c) with (reconnectAttempts s1).
    change (pendingTimers s1c) with (pendingTimers s1).
    change (nextTimer s1c) with (nextTimer s1).
    rewrite F2, F5, Huser, F6, F3, F7.
    rewrite (proj2 (Z.eqb_neq user 0) Hnz), (proj2 (Z.ltb_lt _ _) Hlt). done. }
  set (s2f := set_timer s2 (socketReconnectTimer s2)
                (filter (λ p, p.1 ≠ t) (pendingTimers s2)) (nextTimer s2) (log s2)).
  assert (Hconn : connectSocket send_throws s2f user
                  = ({| socket := Some (length (sockets s));
                        sockets := sockets s2f
                                   ++ [{| readyState := CONNECTING; captured := user |}];
                        socketReconnectTimer := socketReconnectTimer s2f;
                        pendingTimers := pendingTimers s2f;
                        nextTimer := nextTimer s2f;
                        currentUserId := Some user;
                        reconnectAttempts := reconnectAttempts s2f;
                        messageQueue := messageQueue s2f;
                        log := log s2f ++ [NewWebSocket (length (sockets s))] |}, false)).
  { unfold connectSocket, openSocket. simpl. rewrite F1. simpl.
    rewrite !length_alter, F4, length_alter. done. }
  exists s2. eexists. split; [exact Hstep1|]. split; [done|].
  split.
  { unfold step.
    destruct (decide (t ∈ (pendingTimers s2).*1)) as [_|Hn];
      [|exfalso; apply Hn; simpl; apply list_elem_of_here].
    fold s2f. unfold reconnectCallback.
    assert (Hu : default 0 (currentUserId s2f) = user).
    { simpl. by rewrite F5, Huser. }
    rewrite Hu, Hconn. reflexivity. }
  simpl. split; [done|]. split; [|lia].
  rewrite lookup_app_r; rewrite !length_alter, F4, length_alter; [|lia].
  by rewrite Nat.sub_diag.
Qed.

End ClientDisconnectUndone.

(** ** Client: callbacks *)

Section ClientCallbacks.
Import ClientEvents.
Variable throws : Call → bool.

Lemma callbacksOf_set (c : Callbacks) (ch ch' : Channel) (l : list nat) :
  callbacksOf (setCallbacks c ch l) ch'
  = if decide (ch' = ch) then l else callbacksOf c ch'.
Proof. by destruct ch, ch'. Qed.

Lemma forEach_elem (call : Call) (calls : list Call) :
  call ∈ forEach throws calls → call ∈ calls.
Proof.
  induction calls as [|c0 rest IH]; simpl; [done|].
  destruct (throws c0).
  - intros ->%list_elem_of_singleton. by left.
  - intros [->|H]%elem_of_cons; [by left|right; by apply IH].
Qed.

Lemma forEach_quiet (calls : list Call) :
  (∀ call, throws call = false) → forEach throws calls = calls.
Proof.
  intros Hq. induction calls as [|c0 rest IH]; simpl; [done|]. by rewrite Hq, IH.
Qed.

Lemma onmessage_elem (c : Callbacks) (data : Gateway.Envelope) (call : Call) :
  call ∈ onmessage throws c data →
  callee call ∈ callbacksOf c (channel call)
  ∧ route data = Some (channel call, args call).
Proof.
  unfold onmessage. destruct (route data) as [[ch a]|]; [|by intros ?%elem_of_nil].
  intros (cb & -> & Hcb)%forEach_elem%list_elem_of_fmap. done.
Qed.

Lemma run_cons (c : Callbacks) (op : Op) (ops : list Op) :
  run throws c (op :: ops)
  = ((run throws (step throws c op).1 ops).1,
     (step throws c op).2 ++ (run throws (step throws c op).1 ops).2).
Proof.
  simpl. destruct (step throws c op) as [c1 o1]. simpl.
  by destruct (run throws c1 ops).
Qed.

Lemma unsubscribed_stays (c : Callbacks) (ch : Channel) (cb : nat) (ops : list Op) :
  cb ∉ callbacksOf c ch →
  Forall (λ op, op ≠ Subscribe ch cb) ops →
  (cb ∉ callbacksOf (run throws c ops).1 ch)
  ∧ ∀ call, call ∈ (run throws c ops).2 → ¬ (channel call = ch ∧ callee call = cb).
Proof.
  intros Hnot Hops. revert c Hnot.
  induction Hops as [|op ops Hop _ IH]; intros c Hnot.
  - split; [done|]. by intros call ?%elem_of_nil.
  - rewrite run_cons. simpl.
    assert (Hstep : (cb ∉ callbacksOf (step throws c op).1 ch)
                    ∧ ∀ call, call ∈ (step throws c op).2 →
                              ¬ (channel call = ch ∧ callee call = cb)).
    { destruct op as [ch' cb'|ch' cb'|data]; simpl.
      - split; [|by intros call ?%elem_of_nil].
        unfold subscribe. rewrite callbacksOf_set.
        destruct (decide (ch = ch')) as [<-|]; [|done].
        intros [?|Heq%list_elem_of_singleton]%elem_of_app; [done|]. by subst.
      - split; [|by intros call ?%elem_of_nil].
        unfold unsubscribe. rewrite callbacksOf_set.
        destruct (decide (ch = ch')) as [<-|]; [|done].
        by intros [_ ?]%list_elem_of_filter.
      - split; [done|]. intros call [Hin _]%onmessage_elem [<- <-]. done. }
    destruct Hstep as [Hnot1 Hcalls1].
    destruct (IH _ Hnot1) as [Hnot2 Hcalls2]. split; [done|].
    intros call [?|?]%elem_of_app; [by apply Hcalls1|by apply Hcalls2].
Qed.

Lemma subscribed_stays (c : Callbacks) (ch : Channel) (cb : nat) (ops : list Op) :
  cb ∈ callbacksOf c ch →
  Forall (λ op, op ≠ Unsubscribe ch cb) ops →
  cb ∈ callbacksOf (run throws c ops).1 ch.
Proof.
  intros Hin Hops. revert c Hin.
  induction Hops as [|op ops Hop _ IH]; intros c Hin; [done|].
  rewrite run_cons. simpl. apply IH.
  destruct op as [ch' cb'|ch' cb'|data]; simpl; [| |done].
  - unfold subscribe. rewrite callbacksOf_set.
    destruct (decide (ch = ch')) as [<-|]; [|done]. apply elem_of_app. by left.
  - unfold unsubscribe. rewrite callbacksOf_set.
    destruct (decide (ch = ch')) as [<-|]; [|done].
    apply list_elem_of_filter. split; [|done]. intros ->. done.
Qed.

(** X27. The function returned by a subscription removes every
    registration of the callback on that channel: until the callback is
    subscribed there again, no envelope makes the client call it on that
    channel. A callback that is subscribed stays subscribed until its
    own unsubscribe function is called, and every envelope routed to
    its channel calls it with the fields of the envelope when no
    callback throws; [connected] and [error] envelopes call nothing. *)
Theorem subscription_lifetime (c : Callbacks) (ch : Channel) (cb : nat) :
  (∀ ops,
     Forall (λ op, op ≠ Subscribe ch cb) ops →
     ∀ call, call ∈ (run throws (unsubscribe ch c cb) ops).2 →
             ¬ (channel call = ch ∧ callee call = cb))
  ∧ (∀ ops data a,
       Forall (λ op, op ≠ Unsubscribe ch cb) ops →
       (∀ call, throws call = false) →
       route data = Some (ch, a) →
       {| channel := ch; callee := cb; args := a |}
         ∈ onmessage throws (run throws (subscribe ch c cb) ops).1 data)
  ∧ (∀ c' text, onmessage throws c' (Gateway.connected text) = []
                ∧ onmessage throws c' (Gateway.error text) = []).
Proof.
  split; [|split].
  - intros ops Hops. apply unsubscribed_stays; [|done].
    unfold unsubscribe. rewrite callbacksOf_set, decide_True by done.
    by intros [? _]%list_elem_of_filter.
  - intros ops data a Hops Hquiet Hroute. unfold onmessage. rewrite Hroute.
    rewrite forEach_quiet by done. apply list_elem_of_fmap.
    exists cb. split; [done|]. apply subscribed_stays; [|done].
    unfold subscribe. rewrite callbacksOf_set, decide_True by done.
    apply elem_of_app. right. by left.
  - done.
Qed.

End ClientCallbacks.

(** ** The further properties on concrete inputs *)

Section OnStorageScenario.
Import Schema Storage StorageMore Scenario MoreScenario.

Lemma db_wf : MessagesWf db.
Proof.
  split.
  - vm_compute. apply NoDup_singleton.
  - intros m Hm. apply list_elem_of_singleton in Hm. subst m. vm_compute. done.
Qed.

Lemma removeReactionFromMessage_removes_witness :
  ∃ d1 m1,
    removeReactionFromMessage liked 5 2 "+1" = (d1, Ok (Some m1))
    ∧ ms_message m1 = set_reactions helloLiked []
    ∧ selectMessage d1 5 = Ok (Some (ms_message m1))
    ∧ removeReactionFromMessage d1 5 2 "+1" = (d1, Ok (Some m1)).
Proof.
  destruct (removeReactionFromMessage_removes liked 5 2 "+1" helloLiked (publicOf alice))
    as (d1 & m1 & H1 & H2 & _ & H4 & _ & _ & _ & _ & H9); [vm_compute; reflexivity..|].
  exists d1, m1. split; [exact H1|]. split; [exact H2|]. split; [exact H4|exact H9].
Defined.

Lemma add_then_remove_reaction_witness :
  ∃ m2,
    (removeReactionFromMessage (addReactionToMessage db 5 thumbsUp).1 5 2 "+1").2
    = Ok (Some m2)
    ∧ m_reactions (ms_message m2) = Some []
    ∧ m_id (ms_message m2) = 5
    ∧ m_content (ms_message m2) = "hello".
Proof.
  apply (add_then_remove_reaction db 5 thumbsUp hello (publicOf alice));
    [vm_compute; reflexivity..|].
  simpl. apply not_elem_of_nil.
Defined.

Lemma updateMessage_edits_one_witness :
  ∃ d1 m1,
    updateMessage db 5 "hello!" = (d1, Ok (Some m1))
    ∧ m_content (ms_message m1) = "hello!"
    ∧ m_isEdited (ms_message m1) = true
    ∧ m_updatedAt (ms_message m1) = Some 200
    ∧ selectMessage d1 5 = Ok (Some (ms_message m1)).
Proof.
  destruct (updateMessage_edits_one db 5 "hello!" hello (publicOf alice))
    as (d1 & m1 & H1 & _ & H3 & H4 & H5 & _ & H7 & _); [vm_compute; reflexivity..|].
  exists d1, m1. repeat split; assumption.
Defined.

Lemma updateUserOnlineStatus_spec_witness :
  (updateUserOnlineStatus db 2 true).2 = Some (set_isOnline bob true)
  ∧ updateUserOnlineStatus (updateUserOnlineStatus db 2 true).1 2 true
    = ((updateUserOnlineStatus db 2 true).1, Some (set_isOnline bob true)).
Proof.
  destruct (updateUserOnlineStatus_spec db 2 true) as (_ & H2 & _ & H4 & _).
  split; [exact H2|exact H4].
Defined.

Lemma createMessage_fresh_id_witness :
  (6 ∉ (m_id <$> messages db))
  ∧ messages (createMessage db hi).1 = [hello; ms_message savedHi]
  ∧ selectMessage (createMessage db hi).1 6 = Ok (Some (ms_message savedHi))
  ∧ MessagesWf (createMessage db hi).1.
Proof.
  destruct (createMessage_fresh_id db (createMessage db hi).1 hi savedHi db_wf)
    as (H1 & H2 & _ & H4 & _ & H6); [vm_compute; reflexivity|].
  split; [exact H1|]. split; [exact H2|]. split; [|exact H6].
  apply H4. unfold int4. simpl. lia.
Defined.

Lemma getConversationsForUser_sorted_witness :
  StronglySorted (λ x y, sortDate db y ≤ sortDate db x) (getConversationsForUser db 1)
  ∧ ∀ conv, conv ∈ getConversationsForUser db 1 ↔
      ∃ id, {| cm_conversationId := id; cm_userId := 1 |} ∈ conversationMembers db
            ∧ getConversationById db id = Some conv.
Proof.
  destruct (getConversationsForUser_sorted db 1) as (H1 & _ & H3).
  split; [exact H1|exact H3].
Defined.

Lemma getConversationById_lastMessage_witness :
  hello ∈ messages db
  ∧ selectPublic db 1 = Some (publicOf alice)
  ∧ ∀ m, m ∈ messages db → m_conversationId m = 7 → m_createdAt m ≤ 150.
Proof.
  destruct (getConversationById_lastMessage db 7 roomView) as [Hlast _];
    [vm_compute; reflexivity|].
  destruct (Hlast {| ms_message := hello; ms_sender := publicOf alice |} eq_refl)
    as (H1 & _ & H3 & H4).
  split; [exact H1|]. split; [exact H3|exact H4].
Defined.


Lemma clearMessagesInConversation_clears_witness :
  (clearMessagesInConversation db 7).2 = true
  ∧ getMessagesForConversation (clearMessagesInConversation db 7).1 7 = []
  ∧ (clearMessagesInConversation db 2147483648).2 = false
  ∧ (clearMessagesInConversation db 2147483648).1 = db.
Proof.
  destruct (clearMessagesInConversation_clears db 7) as (H1 & _ & H3 & _).
  destruct (clearMessagesInConversation_clears db 2147483648) as (H1' & H2' & _).
  assert (Hin : int4 7) by (unfold int4; lia).
  assert (Hout : ¬ int4 2147483648) by (unfold int4; lia).
  split; [by apply H1|]. split; [by apply H3|].
  split; [|by apply H2'].
  destruct (clearMessagesInConversation db 2147483648).2 eqn:Hb; [|done].
  exfalso. apply Hout. by apply H1'.
Defined.

Lemma removeUserFromConversation_removes_witness :
  (removeUserFromConversation db 7 2).2 = true
  ∧ (∃ conv', getConversationById (removeUserFromConversation db 7 2).1 7 = Some conv'
              ∧ cw_members conv' = [publicOf alice; publicOf carol])
  ∧ removeUserFromConversation db 7 2147483648 = (db, false).
Proof.
  destruct (removeUserFromConversation_removes db 7 2) as (_ & H2 & _).
  destruct (removeUserFromConversation_removes db 7 2147483648) as (H1 & _).
  destruct (H2 roomView) as (Htrue & conv' & Hconv' & Hmembers);
    [vm_compute; reflexivity|unfold int4; lia..|].
  split; [exact Htrue|]. split; [exists conv'; split; [exact Hconv'|exact Hmembers]|].
  apply H1. right. right. unfold int4. lia.
Defined.

End OnStorageScenario.

Section OnGatewayScenario.
Import Schema Storage StorageMore Gateway GatewayMore Scenario MoreScenario.

Ltac among := vm_compute; repeat first [apply list_elem_of_here | apply list_elem_of_further].

Lemma online_registry : clients online = <[3 := 30%nat]> (<[2 := 20%nat]> (<[1 := 10%nat]> ∅)).
Proof. vm_compute. reflexivity. Qed.

Lemma online_members :
  conversationMembers (storage online)
  = [ {| cm_conversationId := 7; cm_userId := 1 |};
      {| cm_conversationId := 7; cm_userId := 2 |};
      {| cm_conversationId := 7; cm_userId := 3 |} ].
Proof. vm_compute. reflexivity. Qed.

(** In the deployment every member has a connection of their own. *)
Lemma online_alone (p : Z) (cp : Conn) :
  clients online !! p = Some cp →
  ∀ q, q ≠ p →
       {| cm_conversationId := 7; cm_userId := q |} ∈ conversationMembers (storage online) →
       clients online !! q ≠ Some cp.
Proof.
  rewrite online_members, online_registry. intros Hp q Hne Hq Hqc.
  rewrite !elem_of_cons, elem_of_nil in Hq.
  assert (Hq' : q = 1 ∨ q = 2 ∨ q = 3).
  { destruct Hq as [Hq|[Hq|[Hq|Hq]]]; [injection Hq as ->..|done]; tauto. }
  destruct (decide (p = 3)) as [->|H3].
  - rewrite lookup_insert_eq in Hp. injection Hp as <-.
    destruct Hq' as [-> | [-> | ->] ]; [vm_compute in Hqc; discriminate..|done].
  - rewrite lookup_insert_ne in Hp by done.
    destruct (decide (p = 2)) as [->|H2].
    + rewrite lookup_insert_eq in Hp. injection Hp as <-.
      destruct Hq' as [-> | [-> | ->] ]; [vm_compute in Hqc; discriminate|done|
                                     vm_compute in Hqc; discriminate].
    + rewrite lookup_insert_ne in Hp by done.
      destruct (decide (p = 1)) as [->|H1].
      * rewrite lookup_insert_eq in Hp. injection Hp as <-.
        destruct Hq' as [-> | [-> | ->] ]; [done|vm_compute in Hqc; discriminate..].
      * rewrite lookup_insert_ne in Hp by done. by rewrite lookup_empty in Hp.
Qed.

Lemma online_recipient_bob : Recipient online 7 2 20.
Proof.
  constructor; try (vm_compute; reflexivity); try among.
  - apply (bool_decide_unpack _). vm_compute. reflexivity.
  - apply online_alone. vm_compute. reflexivity.
Qed.

Lemma online_recipient_carol : Recipient online 7 3 30.
Proof.
  constructor; try (vm_compute; reflexivity); try among.
  - apply (bool_decide_unpack _). vm_compute. reflexivity.
  - apply online_alone. vm_compute. reflexivity.
Qed.

Lemma online_alice : authenticatedAs online 10 1.
Proof. split; [vm_compute; reflexivity|lia]. Qed.

Lemma online_bob : authenticatedAs online 20 2.
Proof. split; [vm_compute; reflexivity|lia]. Qed.


Lemma typing_reaches_other_members_witness :
  (on_message online 10 (typing_notice 7)).1 = online
  ∧ received 20 (on_message online 10 (typing_notice 7)).2 = [typing 7 1]
  ∧ received 10 (on_message online 10 (typing_notice 7)).2 = [].
Proof.
  destruct (typing_reaches_other_members online 10%nat (typing_notice 7) 1 7)
    as (H1 & H2 & _); try reflexivity; try lia; [exact online_alice|].
  split; [exact H1|]. split; [|vm_compute; reflexivity].
  apply (H2 2 20%nat online_recipient_bob). lia.
Defined.

Lemma edit_reaches_member_witness :
  selectMessage (storage (on_message online 20 (edit_message 5 "hello!")).1) 5
  = Ok (Some (set_edited hello "hello!" 200))
  ∧ received 30 (on_message online 20 (edit_message 5 "hello!")).2
    = [message_updated 7 {| ms_message := set_edited hello "hello!" 200;
                            ms_sender := aliceOnline |}].
Proof.
  apply (edit_reaches_member online 20%nat (edit_message 5 "hello!") 2 5 "hello!"
           hello aliceOnline 3 30%nat); try reflexivity; try lia.
  - exact online_bob.
  - exact online_recipient_carol.
Defined.

Lemma add_reaction_reaches_member_witness :
  selectMessage (storage (on_message online 20 (add_reaction 5 "+1")).1) 5
  = Ok (Some helloLiked)
  ∧ received 30 (on_message online 20 (add_reaction 5 "+1")).2
    = [message_reacted 7 {| ms_message := helloLiked; ms_sender := aliceOnline |}].
Proof.
  apply (add_reaction_reaches_member online 20%nat (add_reaction 5 "+1") 2 5 "+1"
           hello aliceOnline 3 30%nat); try reflexivity; try lia.
  - exact online_bob.
  - exact online_recipient_carol.
Defined.

Lemma remove_reaction_reaches_member_witness :
  selectMessage (storage (on_message online 20 (remove_reaction 5 "+1")).1) 5
  = Ok (Some (set_reactions hello []))
  ∧ received 30 (on_message online 20 (remove_reaction 5 "+1")).2
    = [message_reaction_removed 7 {| ms_message := set_reactions hello [];
                                     ms_sender := aliceOnline |}].
Proof.
  apply (remove_reaction_reaches_member online 20%nat (remove_reaction 5 "+1") 2 5 "+1"
           hello aliceOnline 3 30%nat); try reflexivity; try lia.
  - exact online_bob.
  - exact online_recipient_carol.
Defined.

Lemma deliveries_well_addressed_witness :
  WellAddressed (on_message online 10 (send_message 7 "hi" None)).1 10
    (on_message online 10 (send_message 7 "hi" None)).2
  ∧ received 10 (on_close online 10).2 = [].
Proof.
  destruct (deliveries_well_addressed online 10%nat (send_message 7 "hi" None))
    as (H1 & _ & H3).
  split; [exact H1|exact H3].
Defined.

Lemma gateway_keeps_store_shape_witness :
  Extends db (storage (run idle day).1) ∧ MessagesWf (storage (run idle day).1).
Proof.
  destruct (gateway_keeps_store_shape idle day) as [H1 H2].
  split; [exact H1|]. apply H2. exact db_wf.
Defined.

Lemma failed_authenticate_forgets_user_witness :
  let s1 := (on_message online 10 (authenticate Js.Undefined)).1 in
  on_message s1 10 (send_message 7 "hi" None)
  = (s1, [(10%nat, error "Not authenticated")])
  ∧ (clients (on_close s1 10).1, storage (on_close s1 10).1)
    = (clients online, storage online).
Proof.
  destruct (failed_authenticate_forgets_user online 10%nat (authenticate Js.Undefined))
    as (_ & _ & H3 & H4 & _); try reflexivity.
  split; [apply H3; reflexivity|exact H4].
Defined.

Lemma reauthentication_leaves_stale_entry_witness :
  let s2 := (run fresh [Inbound 10 (authenticate (Js.ANumber 1));
                        Inbound 10 (authenticate (Js.ANumber 2))]).1 in
  let s3 := (on_close s2 10).1 in
  clients s3 !! 2 = None
  ∧ clients s3 !! 1 = Some 10%nat
  ∧ readyStateOf s3 !! 10%nat = Some CLOSED.
Proof.
  destruct (reauthentication_leaves_stale_entry fresh 10%nat 1 2)
    as (_ & _ & H3 & H4 & H5 & _); try lia.
  split; [exact H3|]. split; [exact H4|exact H5].
Defined.

Lemma removed_member_not_notified_witness :
  received 20
    (on_message
       (with_storage online (removeUserFromConversation (storage online) 7 2).1)
       10 (send_message 7 "hi" None)).2
  = [].
Proof.
  apply (removed_member_not_notified online 10%nat (send_message 7 "hi" None) 7 2 20%nat);
    try reflexivity; try lia.
  - rewrite online_members. repeat constructor; unfold int4; simpl; lia.
  - among.
  - apply online_alone. vm_compute. reflexivity.
Defined.

End OnGatewayScenario.

Section OnMoreClientScenario.
Import Client ClientMore ClientEvents ClientScenario MoreScenario.

Lemma no_action_lost_or_duplicated_witness :
  actionsSent (log afterBusy) ++ messageQueue afterBusy
  ≡ₚ [message 7 "a" None; edit_message 5 "b"; add_reaction 5 "c"]
  ∧ Forall (λ m, isTyping m = false) (messageQueue afterBusy).
Proof.
  apply (no_action_lost_or_duplicated never busy afterBusy). vm_compute. reflexivity.
Defined.

Lemma queued_actions_sent_on_open_witness :
  ∃ s1 s2,
    Client.run never connecting [SendMessage 7 "a" None; EditMessage 5 "b"] = Some s1
    ∧ log s1 = log connecting
    ∧ messageQueue s1 = [message 7 "a" None; edit_message 5 "b"]
    ∧ Client.step never s1 (SocketOpen 0) = Some s2
    ∧ messageQueue s2 = []
    ∧ sent (log s2)
      = [authenticate 1; queued (message 7 "a" None); queued (edit_message 5 "b")].
Proof.
  apply (queued_actions_sent_on_open never (λ _ _, eq_refl) connecting 0%nat
           {| readyState := CONNECTING; captured := 1 |}
           [SendMessage 7 "a" None; EditMessage 5 "b"]); try reflexivity.
  repeat constructor; by eexists.
Defined.

Lemma connectSocket_reuses_open_socket_witness :
  let s' := (connectSocket never backlog 2).1 in
  socket s' = Some 0%nat
  ∧ sockets s' = sockets backlog
  ∧ currentUserId s' = Some 2
  ∧ messageQueue s' = []
  ∧ log s' = log backlog
             ++ [Send 0 (authenticate 2); Send 0 (queued m1);
                 Send 0 (queued m2); Send 0 (queued m3)].
Proof.
  apply (connectSocket_reuses_open_socket never (λ _ _, eq_refl) backlog 0%nat 2).
  reflexivity.
Defined.

Lemma one_live_socket_witness : socket opened = Some 0%nat.
Proof.
  apply (one_live_socket never started opened eq_refl 0%nat
           {| readyState := OPEN; captured := 1 |}); [reflexivity|by right].
Defined.

Lemma no_reconnect_without_user_witness :
  scheduled (log afterIdle) = scheduled (log initial)
  ∧ created (log afterIdle) = created (log initial)
  ∧ pendingTimers afterIdle = []
  ∧ currentUserId afterIdle = currentUserId initial.
Proof.
  apply (no_reconnect_without_user never idleEvents initial afterIdle).
  - left. reflexivity.
  - reflexivity.
  - repeat constructor.
  - vm_compute. reflexivity.
Defined.

Lemma disconnect_undone_by_close_event_witness :
  let s1 := disconnectSocket opened in
  socket s1 = None
  ∧ socketReconnectTimer s1 = None
  ∧ pendingTimers s1 = []
  ∧ ∃ s2 s3,
      Client.step never s1 (SocketClose 0) = Some s2
      ∧ pendingTimers s2 = [(1%nat, 3000)]
      ∧ Client.step never s2 (TimerFire 1) = Some s3
      ∧ socket s3 = Some 1%nat
      ∧ sockets s3 !! 1%nat = Some {| readyState := CONNECTING; captured := 1 |}
      ∧ reconnectAttempts s3 = 1.
Proof.
  apply (disconnect_undone_by_close_event never started opened 0%nat
           {| readyState := OPEN; captured := 1 |} 1); try reflexivity; try lia.
  by right.
Defined.

Lemma subscription_lifetime_witness :
  (∀ call,
     call ∈ (ClientEvents.run (λ _, false)
               (unsubscribe NewMessage (onNewMessage (onNewMessage none 1) 1) 1)
               [Subscribe NewMessage 2;
                Receive (Gateway.new_message 7 savedHi)]).2 →
     ¬ (channel call = NewMessage ∧ callee call = 1%nat))
  ∧ {| channel := MessageReacted; callee := 1%nat; args := MessageArgs 7 savedHi |}
      ∈ onmessage (λ _, false) (onMessageReacted none 1)
          (Gateway.message_reaction_removed 7 savedHi).
Proof.
  split.
  - destruct (subscription_lifetime (λ _, false)
                (onNewMessage (onNewMessage none 1) 1) NewMessage 1%nat) as (H1 & _).
    apply H1. repeat constructor; done.
  - destruct (subscription_lifetime (λ _, false) none MessageReacted 1%nat)
      as (_ & H2 & _).
    apply (H2 [] (Gateway.message_reaction_removed 7 savedHi) (MessageArgs 7 savedHi));
      [constructor|done|reflexivity].
Defined.

End OnMoreClientScenario.
